(** * sqlitexx: a shallow embedding of the wrapper over an abstract engine

    The wrapper (error.hpp, type_traits.hpp, statement.hpp and the
    connection/transaction header) is a thin layer over the SQLite C API.
    The engine itself is not part of the repository, so it enters as an
    interface ([Sqlite3]); every wrapper function is a computation in a
    state-and-exception monad over the engine state, and every call into
    the engine is recorded in a call log, so that statements such as "the
    statement is reset right after the step" or "the text pointer is
    never requested" can be read off the log. *)

From Stdlib Require Import ZArith List String Bool Lia Arith SpecFloat.
Import ListNotations.
Open Scope Z_scope.

(** ** Result codes of sqlite3.h used by the wrapper *)

Definition SQLITE_OK : Z := 0.
Definition SQLITE_ERROR : Z := 1.
Definition SQLITE_BUSY : Z := 5.
Definition SQLITE_MISUSE : Z := 21.
Definition SQLITE_RANGE : Z := 25.
Definition SQLITE_ROW : Z := 100.
Definition SQLITE_DONE : Z := 101.

(** ** Handles

    [sqlite3*] and [sqlite3_stmt*] are nullable handles; [None] is
    [nullptr]. *)

Definition sqlite3_ptr := option nat.
Definition sqlite3_stmt_ptr := option nat.

(** A character buffer behind a pointer: [None] is the null pointer,
    [Some buf] the code units stored from the pointed address on
    (8-bit units for narrow text, 16-bit units for wide text). *)
Definition char_ptr := option (list Z).

(** How the engine is told to treat a bound text buffer. *)
Inductive text_destructor := SQLITE_STATIC | SQLITE_TRANSIENT.

(** ** The C++ implementation

    [sizeof] of the integer types depends on the data model of the
    compiler; the three floating-point types are kept abstract, with
    the implicit conversions the wrapper relies on (a [float] argument
    is promoted at the call of [bind_traits<double>::bind], the [double]
    returned by the engine is converted to the requested type, [float]
    or [long double]). *)

Inductive data_model := ILP32 | LLP64 | LP64.

Class Implementation := {
  model : data_model;
  double : Type;
  float : Type;
  long_double : Type;
  float_to_double : float -> double;
  double_to_float : double -> float;
  double_to_long_double : double -> long_double
}.

(** ** The engine interface (the part of sqlite3.h the wrapper calls) *)

Class Sqlite3 {CXX : Implementation} := {
  engine : Type;
  sqlite3_exec : sqlite3_ptr -> string -> engine -> (Z * option string) * engine;
  sqlite3_prepare_v2 :
    sqlite3_ptr -> string -> Z -> engine -> (Z * sqlite3_stmt_ptr) * engine;
  sqlite3_finalize : sqlite3_stmt_ptr -> engine -> Z * engine;
  sqlite3_step : sqlite3_stmt_ptr -> engine -> Z * engine;
  sqlite3_reset : sqlite3_stmt_ptr -> engine -> Z * engine;
  sqlite3_bind_parameter_index : sqlite3_stmt_ptr -> string -> engine -> Z;
  sqlite3_bind_double : sqlite3_stmt_ptr -> Z -> double -> engine -> Z * engine;
  sqlite3_bind_int : sqlite3_stmt_ptr -> Z -> Z -> engine -> Z * engine;
  sqlite3_bind_int64 : sqlite3_stmt_ptr -> Z -> Z -> engine -> Z * engine;
  sqlite3_bind_null : sqlite3_stmt_ptr -> Z -> engine -> Z * engine;
  sqlite3_bind_text :
    sqlite3_stmt_ptr -> Z -> char_ptr -> Z -> text_destructor ->
    engine -> Z * engine;
  sqlite3_bind_text16 :
    sqlite3_stmt_ptr -> Z -> char_ptr -> Z -> text_destructor ->
    engine -> Z * engine;
  sqlite3_column_double : sqlite3_stmt_ptr -> Z -> engine -> double;
  sqlite3_column_int : sqlite3_stmt_ptr -> Z -> engine -> Z;
  sqlite3_column_int64 : sqlite3_stmt_ptr -> Z -> engine -> Z;
  sqlite3_column_bytes : sqlite3_stmt_ptr -> Z -> engine -> Z;
  sqlite3_column_bytes16 : sqlite3_stmt_ptr -> Z -> engine -> Z;
  sqlite3_column_text : sqlite3_stmt_ptr -> Z -> engine -> char_ptr;
  sqlite3_column_text16 : sqlite3_stmt_ptr -> Z -> engine -> char_ptr;
  sqlite3_column_blob : sqlite3_stmt_ptr -> Z -> engine -> char_ptr
}.

(** ** error.hpp *)

(** [detail::error_string]: an owned, possibly null message. *)
Record error_string := { str : option string }.

(** Move construction: the new object takes the pointer and the source
    is left null.  The result is (new object, moved-from source). *)
Definition error_string_move (o : error_string) : error_string * error_string :=
  ({| str := str o |}, {| str := None |}).

Definition valid (s : error_string) : bool :=
  match str s with Some _ => true | None => false end.

(** What the wrapper can throw: [error], [execute_error] (an [error]
    with a message) and the [std::length_error] of
    [basic_string::reserve]. *)
Inductive exception :=
| error (ec : Z)
| execute_error (ec : Z) (msg : error_string)
| length_error.

Definition code (e : exception) : option Z :=
  match e with
  | error ec => Some ec
  | execute_error ec _ => Some ec
  | length_error => None
  end.

Definition message (e : exception) : option string :=
  match e with
  | execute_error _ msg => str msg
  | _ => None
  end.

Definition has_message (e : exception) : bool :=
  match e with
  | execute_error _ msg => valid msg
  | _ => false
  end.

(** ** Outcomes of a wrapper call

    A call returns, leaves by an exception, or has undefined behaviour
    (reading through a null or too short buffer). *)

Inductive outcome (A : Type) :=
| Returns (a : A)
| Throws (e : exception)
| Undefined.

Arguments Returns {A} a.
Arguments Throws {A} e.
Arguments Undefined {A}.

Definition raises {A} (o : outcome A) : bool :=
  match o with Throws _ => true | _ => false end.

Definition returns_normally {A} (o : outcome A) : bool :=
  match o with Returns _ => true | _ => false end.

(** ** type_traits.hpp: the types the traits are asked about *)

(** The five types [is_integer] names. *)
Inductive integer_type := i_bool | i_short | i_int | i_long | i_long_long.

Inductive cpp_type :=
| ty_integer (I : integer_type)
| ty_unsigned_int
| ty_char | ty_wchar_t | ty_char16_t | ty_char32_t
| ty_float | ty_double | ty_long_double
| ty_nullptr_t
| ty_array (T : cpp_type) (N : nat)
| ty_const_pointer (T : cpp_type)
| ty_basic_string (CharT : cpp_type)
| ty_blob
| ty_named_parameter (T : cpp_type).

Abbreviation ty_bool := (ty_integer i_bool).
Abbreviation ty_short := (ty_integer i_short).
Abbreviation ty_int := (ty_integer i_int).
Abbreviation ty_long := (ty_integer i_long).
Abbreviation ty_long_long := (ty_integer i_long_long).

Definition cpp_type_eq_dec : forall T U : cpp_type, {T = U} + {T <> U}.
Proof. decide equality. decide equality. apply Nat.eq_dec. Defined.

(** [std::is_same<T, U>::value] *)
Definition is_same (T U : cpp_type) : bool :=
  if cpp_type_eq_dec T U then true else false.

(** [meta::and_] and [meta::or_] over the values of their arguments:
    the empty pack, the single argument, and the recursive case. *)
Fixpoint and_ (Args : list bool) : bool :=
  match Args with
  | [] => true
  | [T] => T
  | T :: Rest => if T then and_ Rest else T
  end.

Fixpoint or_ (Args : list bool) : bool :=
  match Args with
  | [] => false
  | [T] => T
  | T :: Rest => if T then T else or_ Rest
  end.

Definition is_any_of (T : cpp_type) (Args : list cpp_type) : bool :=
  or_ (map (is_same T) Args).

Definition is_integer (T : cpp_type) : bool :=
  is_any_of T [ty_bool; ty_short; ty_int; ty_long; ty_long_long].


(** [std::is_floating_point<T>::value] *)
Definition is_floating_point (T : cpp_type) : bool :=
  is_any_of T [ty_float; ty_double; ty_long_double].

(** [is_named_parameter] of statement.hpp. *)
Definition is_named_parameter (T : cpp_type) : bool :=
  match T with ty_named_parameter _ => true | _ => false end.

(** The two's complement value of the low [bits] bits of [v]: what a
    conversion to a signed integer type of that width yields. *)
Definition wrap (bits : Z) (v : Z) : Z :=
  (v + 2 ^ (bits - 1)) mod 2 ^ bits - 2 ^ (bits - 1).

(** ** The wrapper monad: engine state, call log, exceptions *)

Section Monad.
Context {CXX : Implementation} {SQL : Sqlite3}.

(** [sizeof(T)].  Only asked for integer and character types; class
    types, whose size the wrapper never asks, are given 0, and
    [long double] the sizes of the x86 conventions. *)
Fixpoint sizeof (T : cpp_type) : Z :=
  match T with
  | ty_bool | ty_char => 1
  | ty_short | ty_char16_t => 2
  | ty_int | ty_unsigned_int | ty_char32_t | ty_float => 4
  | ty_wchar_t => match model with LLP64 => 2 | _ => 4 end
  | ty_long => match model with LP64 => 8 | _ => 4 end
  | ty_long_long | ty_double => 8
  | ty_long_double => match model with LLP64 => 8 | ILP32 => 12 | LP64 => 16 end
  | ty_nullptr_t | ty_const_pointer _ =>
      match model with ILP32 => 4 | _ => 8 end
  | ty_array T N => Z.of_nat N * sizeof T
  | ty_basic_string _ | ty_blob | ty_named_parameter _ => 0
  end.

(** The C++ values of a type, as far as the wrapper looks at them:
    integers and characters are [Z], a buffer is the list of its
    elements, a named parameter is its name and its value. *)
Fixpoint value_of (T : cpp_type) : Type :=
  match T with
  | ty_float => float
  | ty_double => double
  | ty_long_double => long_double
  | ty_nullptr_t => unit
  | ty_array T _ => list (value_of T)
  | ty_const_pointer T => option (list (value_of T))
  | ty_basic_string CharT => list (value_of CharT)
  | ty_blob => (char_ptr * Z)%type
  | ty_named_parameter T => (string * value_of T)%type
  | _ => Z
  end.

(** One entry of the call log: the engine function, its arguments and,
    for the functions that report one, the status it returned. *)
Inductive event :=
| ev_exec (db : sqlite3_ptr) (sql : string) (ret : Z) (errmsg : option string)
| ev_prepare (db : sqlite3_ptr) (sql : string) (nbyte : Z) (ret : Z)
    (stmt : sqlite3_stmt_ptr)
| ev_finalize (p : sqlite3_stmt_ptr)
| ev_step (p : sqlite3_stmt_ptr) (ret : Z)
| ev_reset (p : sqlite3_stmt_ptr) (ret : Z)
| ev_bind_parameter_index (p : sqlite3_stmt_ptr) (name : string) (ret : Z)
| ev_bind_double (p : sqlite3_stmt_ptr) (index : Z) (value : double) (ret : Z)
| ev_bind_int (p : sqlite3_stmt_ptr) (index : Z) (value : Z) (ret : Z)
| ev_bind_int64 (p : sqlite3_stmt_ptr) (index : Z) (value : Z) (ret : Z)
| ev_bind_null (p : sqlite3_stmt_ptr) (index : Z) (ret : Z)
| ev_bind_text (p : sqlite3_stmt_ptr) (index : Z) (text : char_ptr) (n : Z)
    (d : text_destructor) (ret : Z)
| ev_bind_text16 (p : sqlite3_stmt_ptr) (index : Z) (text : char_ptr) (n : Z)
    (d : text_destructor) (ret : Z)
| ev_column_double (p : sqlite3_stmt_ptr) (index : Z)
| ev_column_int (p : sqlite3_stmt_ptr) (index : Z)
| ev_column_int64 (p : sqlite3_stmt_ptr) (index : Z)
| ev_column_bytes (p : sqlite3_stmt_ptr) (index : Z)
| ev_column_bytes16 (p : sqlite3_stmt_ptr) (index : Z)
| ev_column_text (p : sqlite3_stmt_ptr) (index : Z)
| ev_column_text16 (p : sqlite3_stmt_ptr) (index : Z)
| ev_column_blob (p : sqlite3_stmt_ptr) (index : Z).

(** [struct statement]: the owning [unique_ptr<sqlite3_stmt, deleter>]. *)
Record statement := { _ptr : sqlite3_stmt_ptr }.

(** [struct transaction]: the two prepared statements and the flag. *)
Record transaction := {
  _commit : statement;
  _rollback : statement;
  needs_rollback : bool
}.

(** The mutable world: the engine, the log of the calls made into it,
    and the transaction guards living at their addresses (a guard is
    mutated in place and can be named twice, as in a self-assignment). *)
Record world := {
  state : engine;
  calls : list event;
  guards : nat -> transaction
}.

Definition M (A : Type) : Type := world -> outcome A * world.

Definition pure {A} (a : A) : M A := fun w => (Returns a, w).

Definition throw {A} (e : exception) : M A := fun w => (Throws e, w).

Definition undefined {A} : M A := fun w => (Undefined, w).

Definition and_then {A B} (m : M A) (k : A -> M B) : M B :=
  fun w =>
    match m w with
    | (Returns a, w') => k a w'
    | (Throws e, w') => (Throws e, w')
    | (Undefined, w') => (Undefined, w')
    end.

(** Run [cleanup] when [m] leaves by an exception, then let the
    exception continue (destruction of already built members). *)
Definition on_exception {A} (m : M A) (cleanup : M unit) : M A :=
  fun w =>
    match m w with
    | (Throws e, w') => (Throws e, snd (cleanup w'))
    | r => r
    end.

(** Run [cleanup] however [m] ends (member destructors after a
    destructor body). *)
Definition finally {A} (m : M A) (cleanup : M unit) : M A :=
  fun w => let (r, w') := m w in (r, snd (cleanup w')).

(** A call that may change the engine. *)
Definition effect {A} (f : engine -> A * engine) (ev : A -> event) : M A :=
  fun w =>
    let (r, e') := f (state w) in
    (Returns r,
     {| state := e'; calls := calls w ++ [ev r]; guards := guards w |}).

(** A call that only reads the engine. *)
Definition query {A} (f : engine -> A) (ev : event) : M A :=
  fun w =>
    (Returns (f (state w)),
     {| state := state w; calls := calls w ++ [ev]; guards := guards w |}).

(** The entries a run added to the log. *)
Definition new_calls (w w' : world) : list event :=
  skipn (List.length (calls w)) (calls w').

(** A run [grows] the log: it only appends to it. *)
Definition grows (w w' : world) : Prop := exists l, calls w' = calls w ++ l.

End Monad.

Declare Scope wrapper_scope.
Delimit Scope wrapper_scope with wrapper.
Notation "x <- m ;; k" := (and_then m (fun x => k))
  (at level 61, m at next level, right associativity) : wrapper_scope.
Notation "m ;;; k" := (and_then m (fun _ => k))
  (at level 61, right associativity) : wrapper_scope.
Open Scope wrapper_scope.

(** ** Calls into the engine, logged *)

Section EngineCalls.
Context {CXX : Implementation} {SQL : Sqlite3}.

Definition exec_call (db : sqlite3_ptr) (sql : string) : M (Z * option string) :=
  effect (sqlite3_exec db sql) (fun r => ev_exec db sql (fst r) (snd r)).

Definition prepare_call (db : sqlite3_ptr) (sql : string) (nbyte : Z)
  : M (Z * sqlite3_stmt_ptr) :=
  effect (sqlite3_prepare_v2 db sql nbyte)
         (fun r => ev_prepare db sql nbyte (fst r) (snd r)).

Definition finalize_call (p : sqlite3_stmt_ptr) : M Z :=
  effect (sqlite3_finalize p) (fun _ => ev_finalize p).

Definition step_call (p : sqlite3_stmt_ptr) : M Z :=
  effect (sqlite3_step p) (ev_step p).

Definition reset_call (p : sqlite3_stmt_ptr) : M Z :=
  effect (sqlite3_reset p) (ev_reset p).

Definition bind_parameter_index_call (p : sqlite3_stmt_ptr) (name : string) : M Z :=
  effect (fun e => (sqlite3_bind_parameter_index p name e, e))
         (ev_bind_parameter_index p name).

Definition bind_double_call (p : sqlite3_stmt_ptr) (index : Z) (value : double) : M Z :=
  effect (sqlite3_bind_double p index value) (ev_bind_double p index value).

Definition bind_int_call (p : sqlite3_stmt_ptr) (index value : Z) : M Z :=
  effect (sqlite3_bind_int p index value) (ev_bind_int p index value).

Definition bind_int64_call (p : sqlite3_stmt_ptr) (index value : Z) : M Z :=
  effect (sqlite3_bind_int64 p index value) (ev_bind_int64 p index value).

Definition bind_null_call (p : sqlite3_stmt_ptr) (index : Z) : M Z :=
  effect (sqlite3_bind_null p index) (ev_bind_null p index).

Definition bind_text_call (p : sqlite3_stmt_ptr) (index : Z) (text : char_ptr)
  (n : Z) (d : text_destructor) : M Z :=
  effect (sqlite3_bind_text p index text n d) (ev_bind_text p index text n d).

Definition bind_text16_call (p : sqlite3_stmt_ptr) (index : Z) (text : char_ptr)
  (n : Z) (d : text_destructor) : M Z :=
  effect (sqlite3_bind_text16 p index text n d) (ev_bind_text16 p index text n d).

Definition column_double_call (p : sqlite3_stmt_ptr) (index : Z) : M double :=
  query (sqlite3_column_double p index) (ev_column_double p index).

Definition column_int_call (p : sqlite3_stmt_ptr) (index : Z) : M Z :=
  query (sqlite3_column_int p index) (ev_column_int p index).

Definition column_int64_call (p : sqlite3_stmt_ptr) (index : Z) : M Z :=
  query (sqlite3_column_int64 p index) (ev_column_int64 p index).

Definition column_bytes_call (p : sqlite3_stmt_ptr) (index : Z) : M Z :=
  query (sqlite3_column_bytes p index) (ev_column_bytes p index).

Definition column_bytes16_call (p : sqlite3_stmt_ptr) (index : Z) : M Z :=
  query (sqlite3_column_bytes16 p index) (ev_column_bytes16 p index).

Definition column_text_call (p : sqlite3_stmt_ptr) (index : Z) : M char_ptr :=
  query (sqlite3_column_text p index) (ev_column_text p index).

Definition column_text16_call (p : sqlite3_stmt_ptr) (index : Z) : M char_ptr :=
  query (sqlite3_column_text16 p index) (ev_column_text16 p index).

Definition column_blob_call (p : sqlite3_stmt_ptr) (index : Z) : M char_ptr :=
  query (sqlite3_column_blob p index) (ev_column_blob p index).

End EngineCalls.

(** ** type_traits.hpp: [bind_traits] and [column_traits]

    A trait is [None] where the template has no specialization for the
    type (using it does not compile) and [Some f] where it has one. *)

Module Meta.
Section Traits.
Context {CXX : Implementation} {SQL : Sqlite3}.

(** [std::char_traits<T>::length]: the units before the terminator;
    undefined on a null pointer or an unterminated buffer. *)
Fixpoint find_terminator (buf : list Z) : option nat :=
  match buf with
  | [] => None
  | c :: rest => if c =? 0 then Some O else option_map S (find_terminator rest)
  end.

Definition char_traits_length (s : char_ptr) : M Z :=
  match s with
  | None => undefined
  | Some buf =>
      match find_terminator buf with
      | Some n => pure (Z.of_nat n)
      | None => undefined
      end
  end.

(** [bind_traits<T, enable_if_t<is_integer<T>::value>>] *)
Definition do_integer_bind (ptr : sqlite3_stmt_ptr) (index value : Z)
  (narrow : bool) : M Z :=
  if narrow
  then bind_int_call ptr index (wrap 32 value)
  else bind_int64_call ptr index (wrap 64 value).

Definition integer_bind (T : cpp_type) (ptr : sqlite3_stmt_ptr) (index value : Z)
  : M Z :=
  do_integer_bind ptr index value (sizeof T <? 8).

(** [bind_traits<T[N]>], for [T] one of [char], [char16_t]: the array
    decays to a pointer to its elements. *)
Definition array_bind (T : cpp_type) (N : nat)
  : option (sqlite3_stmt_ptr -> Z -> list (value_of T) -> M Z) :=
  match T as T0 return option (sqlite3_stmt_ptr -> Z -> list (value_of T0) -> M Z) with
  | ty_char => Some (fun ptr index str =>
      bind_text_call ptr index (Some str)
        (Z.of_nat N * sizeof ty_char - 1) SQLITE_STATIC)
  | ty_char16_t => Some (fun ptr index str =>
      bind_text16_call ptr index (Some str)
        (Z.of_nat N * sizeof ty_char16_t - 1) SQLITE_STATIC)
  | _ => None
  end.

(** [bind_traits<const T*>], for [T] one of [char], [char16_t]. *)
Definition pointer_bind (T : cpp_type)
  : option (sqlite3_stmt_ptr -> Z -> option (list (value_of T)) -> M Z) :=
  match T as T0
        return option (sqlite3_stmt_ptr -> Z -> option (list (value_of T0)) -> M Z) with
  | ty_char => Some (fun ptr index str =>
      n <- char_traits_length str ;;
      bind_text_call ptr index str n SQLITE_TRANSIENT)
  | ty_char16_t => Some (fun ptr index str =>
      n <- char_traits_length str ;;
      bind_text16_call ptr index str (n * sizeof ty_char16_t) SQLITE_TRANSIENT)
  | _ => None
  end.

(** [bind_traits<std::basic_string<CharT, Rest...>>]: [c_str()] points
    to the characters followed by the terminator, [size()] counts the
    characters. *)
Definition string_bind (CharT : cpp_type)
  : option (sqlite3_stmt_ptr -> Z -> list (value_of CharT) -> M Z) :=
  match CharT as T0
        return option (sqlite3_stmt_ptr -> Z -> list (value_of T0) -> M Z) with
  | ty_char => Some (fun ptr index str =>
      bind_text_call ptr index (Some (str ++ [0]))
        (Z.of_nat (List.length str)) SQLITE_TRANSIENT)
  | ty_char16_t => Some (fun ptr index str =>
      bind_text16_call ptr index (Some (str ++ [0]))
        (Z.of_nat (List.length str) * sizeof ty_char16_t) SQLITE_TRANSIENT)
  | _ => None
  end.

Definition bind_traits (T : cpp_type)
  : option (sqlite3_stmt_ptr -> Z -> value_of T -> M Z) :=
  match T as T0 return option (sqlite3_stmt_ptr -> Z -> value_of T0 -> M Z) with
  | ty_double => Some (fun ptr index value => bind_double_call ptr index value)
  | ty_float => Some (fun ptr index value =>
      bind_double_call ptr index (float_to_double value))
  | ty_long_double => None
  | ty_nullptr_t => Some (fun ptr index _ => bind_null_call ptr index)
  | ty_array T N => array_bind T N
  | ty_const_pointer T => pointer_bind T
  | ty_basic_string CharT => string_bind CharT
  | ty_blob => None
  | ty_named_parameter _ => None
  | (ty_integer _ | ty_unsigned_int
    | ty_char | ty_wchar_t | ty_char16_t | ty_char32_t) as T0 =>
      if is_integer T0 then Some (integer_bind T0) else None
  end.

(** The conversion of an [int] or [sqlite3_int64] result to [T]. *)
Definition integer_cast (T : cpp_type) (v : Z) : Z :=
  match T with
  | ty_bool => if v =? 0 then 0 else 1
  | _ => wrap (8 * sizeof T) v
  end.

(** [column_traits<T, enable_if_t<is_integer<T>::value>>] *)
Definition do_integer_convert (T : cpp_type) (ptr : sqlite3_stmt_ptr) (index : Z)
  (narrow : bool) : M Z :=
  if narrow
  then v <- column_int_call ptr index ;; pure (integer_cast T v)
  else v <- column_int64_call ptr index ;; pure (integer_cast T v).

Definition integer_convert (T : cpp_type) (ptr : sqlite3_stmt_ptr) (index : Z)
  : M Z :=
  do_integer_convert T ptr index (sizeof T <? 8).

(** [basic_string::reserve(n)] with [n] an [int]: a negative [n]
    becomes a size beyond [max_size()]. *)
Definition reserve (n : Z) : M unit :=
  if n <? 0 then throw length_error else pure tt.

(** [basic_string::insert(0, s, n)] into the empty string: the first
    [n] units behind [s] are read. *)
Definition insert (s : char_ptr) (n : Z) : M (list Z) :=
  if n =? 0 then pure []
  else match s with
       | None => undefined
       | Some buf =>
           if n <=? Z.of_nat (List.length buf)
           then pure (firstn (Z.to_nat n) buf)
           else undefined
       end.

(** [column_traits<std::basic_string<char, Args...>>::convert] *)
Definition string_convert (ptr : sqlite3_stmt_ptr) (index : Z) : M (list Z) :=
  bytes <- column_bytes_call ptr index ;;
  if negb (bytes =? 0) then
    reserve bytes ;;;
    text <- column_text_call ptr index ;;
    insert text bytes
  else pure [].

(** [column_traits<std::basic_string<char16_t, Args...>>::convert];
    the division is the truncating division of [int]. *)
Definition u16string_convert (ptr : sqlite3_stmt_ptr) (index : Z) : M (list Z) :=
  bytes <- column_bytes16_call ptr index ;;
  if negb (bytes =? 0) then
    reserve (Z.quot bytes 2) ;;;
    text <- column_text16_call ptr index ;;
    insert text (Z.quot bytes 2)
  else pure [].

Definition pointer_convert (T : cpp_type)
  : option (sqlite3_stmt_ptr -> Z -> M (option (list (value_of T)))) :=
  match T as T0
        return option (sqlite3_stmt_ptr -> Z -> M (option (list (value_of T0)))) with
  | ty_char => Some column_text_call
  | ty_char16_t => Some column_text16_call
  | _ => None
  end.

Definition basic_string_convert (CharT : cpp_type)
  : option (sqlite3_stmt_ptr -> Z -> M (list (value_of CharT))) :=
  match CharT as T0
        return option (sqlite3_stmt_ptr -> Z -> M (list (value_of T0))) with
  | ty_char => Some string_convert
  | ty_char16_t => Some u16string_convert
  | _ => None
  end.

Definition column_traits (T : cpp_type)
  : option (sqlite3_stmt_ptr -> Z -> M (value_of T)) :=
  match T as T0 return option (sqlite3_stmt_ptr -> Z -> M (value_of T0)) with
  | ty_double =>
      if is_floating_point ty_double
      then Some (fun ptr index => column_double_call ptr index)
      else None
  | ty_float =>
      if is_floating_point ty_float
      then Some (fun ptr index =>
                   d <- column_double_call ptr index ;; pure (double_to_float d))
      else None
  | ty_long_double =>
      if is_floating_point ty_long_double
      then Some (fun ptr index =>
                   d <- column_double_call ptr index ;;
                   pure (double_to_long_double d))
      else None
  | ty_const_pointer T => pointer_convert T
  | ty_basic_string CharT => basic_string_convert CharT
  | ty_blob => Some (fun ptr index =>
      data <- column_blob_call ptr index ;;
      length <- column_bytes_call ptr index ;;
      pure (data, length))
  | ty_nullptr_t => None
  | ty_array _ _ => None
  | ty_named_parameter _ => None
  | (ty_integer _ | ty_unsigned_int
    | ty_char | ty_wchar_t | ty_char16_t | ty_char32_t) as T0 =>
      if is_integer T0 then Some (integer_convert T0) else None
  end.

End Traits.

(** [meta::not_] and [detail::string_traits] *)
Section StringTraits.
Context {CXX : Implementation} {SQL : Sqlite3}.

Definition not_ (T : bool) : bool := negb T.

(** The two members of a [string_traits] specialization, on the
    values [V] of its type. *)
Record string_traits_for (V : Type) := {
  c_str : V -> char_ptr;
  size : V -> M Z
}.

Arguments c_str {V}.
Arguments size {V}.

(** [string_traits<std::basic_string<char, Rest...>>] *)
Definition basic_string_traits (CharT : cpp_type)
  : option (string_traits_for (list (value_of CharT))) :=
  match CharT as T0 return option (string_traits_for (list (value_of T0))) with
  | ty_char => Some {| c_str := fun str => Some (str ++ [0]);
                       size := fun str => pure (Z.of_nat (List.length str)) |}
  | _ => None
  end.

(** [string_traits<char[N]>]; an array type has [N] at least 1. *)
Definition array_traits (T : cpp_type) (N : nat)
  : option (string_traits_for (list (value_of T))) :=
  match T as T0 return option (string_traits_for (list (value_of T0))) with
  | ty_char => Some {| c_str := fun arr => Some arr;
                       size := fun _ => pure (Z.of_nat N - 1) |}
  | _ => None
  end.

(** [string_traits<const char*>] *)
Definition pointer_traits (T : cpp_type)
  : option (string_traits_for (option (list (value_of T)))) :=
  match T as T0 return option (string_traits_for (option (list (value_of T0)))) with
  | ty_char => Some {| c_str := fun str => str;
                       size := fun str => char_traits_length str |}
  | _ => None
  end.

(** [string_traits<T>]: [None] is the primary template, whose
    [static_assert] stops the compilation. *)
Definition string_traits (T : cpp_type) : option (string_traits_for (value_of T)) :=
  match T as T0 return option (string_traits_for (value_of T0)) with
  | ty_basic_string CharT => basic_string_traits CharT
  | ty_array T N => array_traits T N
  | ty_const_pointer T => pointer_traits T
  | _ => None
  end.

End StringTraits.

Arguments c_str {CXX SQL V}.
Arguments size {CXX SQL V}.

End Meta.

(** ** statement.hpp *)

(** Equality of two statement handles. *)
Definition ptr_eqb (p q : sqlite3_stmt_ptr) : bool :=
  match p, q with
  | None, None => true
  | Some a, Some b => Nat.eqb a b
  | _, _ => false
  end.

(** [struct column]: the view of the current row of a statement. *)
Module Column.
Section Column.
Context {CXX : Implementation} {SQL : Sqlite3}.

Record column := { ptr : sqlite3_stmt_ptr }.

Definition data (c : column) : sqlite3_stmt_ptr := ptr c.

Definition get (T : cpp_type) (c : column) (index : Z) : option (M (value_of T)) :=
  option_map (fun convert => convert (ptr c) index) (Meta.column_traits T).

End Column.
End Column.

(** [detail::statement_iterator] *)
Module Iterator.
Section Iterator.
Context {CXX : Implementation} {SQL : Sqlite3}.

Record statement_iterator := {
  _current_column : Column.column;
  ret : Z
}.

Definition data (it : statement_iterator) : sqlite3_stmt_ptr :=
  Column.data (_current_column it).

Definition advance (it : statement_iterator) : M statement_iterator :=
  if negb (ret it =? SQLITE_DONE) then
    r <- step_call (data it) ;;
    if negb (r =? SQLITE_ROW) && negb (r =? SQLITE_DONE)
    then throw (error r)
    else pure {| _current_column := _current_column it; ret := r |}
  else pure it.

(** [statement_iterator(sqlite3_stmt* ptr)] *)
Definition from_statement (p : sqlite3_stmt_ptr) : M statement_iterator :=
  advance {| _current_column := {| Column.ptr := p |}; ret := SQLITE_OK |}.

(** [statement_iterator(end_tag, sqlite3_stmt* ptr)] *)
Definition from_end_tag (p : sqlite3_stmt_ptr) : statement_iterator :=
  {| _current_column := {| Column.ptr := p |}; ret := SQLITE_DONE |}.

(** [operator==] and [operator!=] *)
Definition eq (a b : statement_iterator) : bool :=
  ptr_eqb (data a) (data b) && (ret a =? ret b).

Definition neq (a b : statement_iterator) : bool := negb (eq a b).

(** [operator++()] *)
Definition increment (it : statement_iterator) : M statement_iterator :=
  advance it.

(** [operator*()] *)
Definition deref (it : statement_iterator) : Column.column :=
  _current_column it.

End Iterator.

Section PostIncrement.
Context {CXX : Implementation} {SQL : Sqlite3}.

(** [operator++(int)]: the copy made before the step is what the call
    returns; the result pairs it with the iterator after the step. *)
Definition post_increment (it : statement_iterator)
  : M (statement_iterator * statement_iterator) :=
  let copy := it in
  it' <- advance it ;;
  pure (copy, it').

End PostIncrement.

End Iterator.

(** [detail::statement_range] and the range-based [for] over it *)
Module Range.
Section Range.
Context {CXX : Implementation} {SQL : Sqlite3}.

(** [_ptr] is what [Pointer::get()] yields. *)
Record statement_range := { _ptr : sqlite3_stmt_ptr }.

Definition reset (r : statement_range) : M unit :=
  ret <- reset_call (_ptr r) ;;
  if negb (ret =? SQLITE_OK) then throw (error ret) else pure tt.

Definition begin (r : statement_range) : M Iterator.statement_iterator :=
  reset r ;;; Iterator.from_statement (_ptr r).

Definition end_ (r : statement_range) : Iterator.statement_iterator :=
  Iterator.from_end_tag (_ptr r).

(** [for (auto&& row : range) rows.push_back(read(row));] -- the loop
    of the language, with [read] what the body extracts from the row
    view.  The result is the rows read and how the loop ended; [None]
    when [fuel] iterations were not enough. *)
Fixpoint range_for_loop {R : Type} (read : Column.column -> engine -> R)
  (fuel : nat) (it last : Iterator.statement_iterator) (rows : list R)
  (w : world) : option ((list R * outcome unit) * world) :=
  match fuel with
  | O => None
  | S fuel' =>
      if Iterator.neq it last then
        let row := read (Iterator.deref it) (state w) in
        match Iterator.increment it w with
        | (Returns it', w') => range_for_loop read fuel' it' last (rows ++ [row]) w'
        | (Throws e, w') => Some ((rows ++ [row], Throws e), w')
        | (Undefined, w') => Some ((rows ++ [row], Undefined), w')
        end
      else Some ((rows, Returns tt), w)
  end.

Definition range_for {R : Type} (read : Column.column -> engine -> R)
  (fuel : nat) (r : statement_range) (w : world)
  : option ((list R * outcome unit) * world) :=
  match begin r w with
  | (Returns it, w') => range_for_loop read fuel it (end_ r) [] w'
  | (Throws e, w') => Some (([], Throws e), w')
  | (Undefined, w') => Some (([], Undefined), w')
  end.

End Range.
End Range.

(** [struct statement] *)
Module Statement.
Section Statement.
Context {CXX : Implementation} {SQL : Sqlite3}.

(** One argument of a call: its type and its value. *)
Record argument := { arg_type : cpp_type; arg_value : value_of arg_type }.

(** [sqlite::named(name, value)] *)
Definition named (name : string) (a : argument) : argument :=
  {| arg_type := ty_named_parameter (arg_type a);
     arg_value := (name, arg_value a) |}.

(** The body of [bind_to(int index, T&& value)], given the
    specialization of [bind_traits] it uses. *)
Definition bind_to_with {V : Type} (traits_bind : sqlite3_stmt_ptr -> Z -> V -> M Z)
  (s : statement) (index : Z) (value : V) : M unit :=
  ret <- traits_bind (_ptr s) index value ;;
  if negb (ret =? SQLITE_OK) then throw (error ret) else pure tt.

(** [bind_to(int index, T&& value)] *)
Definition bind_to (T : cpp_type) (s : statement) (index : Z) (value : value_of T)
  : option (M unit) :=
  option_map (fun traits_bind => bind_to_with traits_bind s index value)
             (Meta.bind_traits T).

(** [bind_to(const String& name, T&& value)] *)
Definition bind_to_name (T : cpp_type) (s : statement) (name : string)
  (value : value_of T) : option (M unit) :=
  option_map
    (fun traits_bind =>
       index <- bind_parameter_index_call (_ptr s) name ;;
       if index =? 0 then pure tt      (* not found so bail *)
       else bind_to_with traits_bind s index value)
    (Meta.bind_traits T).

(** A pack expansion inside a braced list: the expressions are
    evaluated from left to right; the call compiles when each of them
    does. *)
Fixpoint expand (es : list (option (M unit))) : option (M unit) :=
  match es with
  | [] => Some (pure tt)
  | e :: rest =>
      match e, expand rest with
      | Some m, Some ms => Some (m ;;; ms)
      | _, _ => None
      end
  end.

(** [bind_to(args.name(), args.get())] for one argument of
    [bind_impl(std::true_type, ...)]; only a named parameter has the
    two members. *)
Definition bind_named_argument (s : statement) (a : argument) : option (M unit) :=
  match arg_type a as T0 return value_of T0 -> option (M unit) with
  | ty_named_parameter T => fun nv => bind_to_name T s (fst nv) (snd nv)
  | _ => fun _ => None
  end (arg_value a).

Definition bind_impl_true (s : statement) (args : list argument) : option (M unit) :=
  expand (map (bind_named_argument s) args).

(** [std::index_sequence_for<Args...>] *)
Definition index_sequence_for (args : list argument) : list nat :=
  seq 0 (List.length args).

Definition bind_parameters (s : statement) (I : list nat) (args : list argument)
  : option (M unit) :=
  expand (map (fun ia : nat * argument =>
                 bind_to (arg_type (snd ia)) s (Z.of_nat (fst ia + 1))
                         (arg_value (snd ia)))
              (combine I args)).

Definition bind_impl_false (s : statement) (args : list argument) : option (M unit) :=
  bind_parameters s (index_sequence_for args) args.

Definition bind (s : statement) (args : list argument) : option (M unit) :=
  if and_ (map (fun a => is_named_parameter (arg_type a)) args)
  then bind_impl_true s args
  else bind_impl_false s args.

Definition reset (s : statement) : M unit :=
  ret <- reset_call (_ptr s) ;;
  if negb (ret =? SQLITE_OK) then throw (error ret) else pure tt.

(** [void execute()] *)
Definition execute (s : statement) : M unit :=
  ret <- step_call (_ptr s) ;;
  if negb (ret =? SQLITE_DONE) && negb (ret =? SQLITE_ROW)
  then throw (error ret)
  else reset s.

(** [template<typename... Args> void execute(Args&&... args)] *)
Definition execute_args (s : statement) (args : list argument) : option (M unit) :=
  option_map
    (fun bind_args =>
       bind_args ;;;
       ret <- step_call (_ptr s) ;;
       if negb (ret =? SQLITE_DONE) && negb (ret =? SQLITE_ROW)
       then throw (error ret)
       else reset s)
    (bind s args).

(** [fetch() const&] *)
Definition fetch (s : statement) : Range.statement_range :=
  {| Range._ptr := _ptr s |}.

(** [statement(sqlite3* db, const String& statement)] *)
Definition prepare (db : sqlite3_ptr) (sql : string) : M statement :=
  r <- prepare_call db sql (Z.of_nat (String.length sql)) ;;
  if negb (fst r =? SQLITE_OK) then throw (error (fst r))
  else pure {| _ptr := snd r |}.

(** The destructor: the deleter runs on a handle that is not null. *)
Definition destroy (s : statement) : M unit :=
  match _ptr s with
  | Some _ => finalize_call (_ptr s) ;;; pure tt
  | None => pure tt
  end.

End Statement.
End Statement.

(** ** The connection and transaction header *)

(** [struct connection] *)
Module Connection.
Section Connection.
Context {CXX : Implementation} {SQL : Sqlite3}.

Record connection := { db : sqlite3_ptr }.

(** [execute(const String& query)]: the engine writes its message
    through [error_msg.as_ptr()]; the exception takes the message over
    by move. *)
Definition execute (con : connection) (query : string) : M unit :=
  r <- exec_call (db con) query ;;
  let ret := fst r in
  let error_msg := {| str := snd r |} in
  if negb (ret =? SQLITE_OK) || valid error_msg
  then throw (execute_error ret (fst (error_string_move error_msg)))
  else pure tt.

(** [prepare(const String& sql)] *)
Definition prepare (con : connection) (sql : string) : M statement :=
  Statement.prepare (db con) sql.

End Connection.

Section Fetch.
Context {CXX : Implementation} {SQL : Sqlite3}.

(** [fetch(const String& query)]: [prepare(query).fetch()], the
    [fetch() &&] of a temporary; the handle moves into the range. *)
Definition fetch_query (con : connection) (query : string) : M Range.statement_range :=
  stmt <- prepare con query ;;
  pure {| Range._ptr := _ptr stmt |}.

(** [fetch(const String& query, Args&&... args)]: the statement is a
    local; when [bind] throws it is destroyed on the way out, otherwise
    [std::move(stmt).fetch()] moves its handle into the range and the
    destructor of the emptied local does nothing.  Whether the call of
    [bind] compiles depends on the types of the arguments only, so it
    is asked of a statement without a handle; the branch for a call
    that does not compile is then never run. *)
Definition fetch (con : connection) (query : string) (args : list Statement.argument)
  : option (M Range.statement_range) :=
  option_map
    (fun _ =>
       stmt <- prepare con query ;;
       match Statement.bind stmt args with
       | Some bind_args =>
           on_exception bind_args (Statement.destroy stmt) ;;;
           pure {| Range._ptr := _ptr stmt |}
       | None => undefined
       end)
    (Statement.bind {| _ptr := None |} args).

(** The destructor of the range [fetch] returns, which owns the
    statement. *)
Definition release (r : Range.statement_range) : M unit :=
  Statement.destroy {| _ptr := Range._ptr r |}.

End Fetch.

End Connection.

(** [struct transaction], the guards living in the world at their
    addresses. *)
Module Transaction.
Section Transaction.
Context {CXX : Implementation} {SQL : Sqlite3}.

Definition load (this : nat) : M transaction :=
  fun w => (Returns (guards w this), w).

Definition store (this : nat) (t : transaction) : M unit :=
  fun w =>
    (Returns tt,
     {| state := state w; calls := calls w;
        guards := fun a => if Nat.eqb a this then t else guards w a |}).

Definition set_commit (s : statement) (t : transaction) : transaction :=
  {| _commit := s; _rollback := _rollback t; needs_rollback := needs_rollback t |}.

Definition set_rollback (s : statement) (t : transaction) : transaction :=
  {| _commit := _commit t; _rollback := s; needs_rollback := needs_rollback t |}.

Definition set_needs_rollback (b : bool) (t : transaction) : transaction :=
  {| _commit := _commit t; _rollback := _rollback t; needs_rollback := b |}.

(** [needs_rollback = b;] on the guard at [this]. *)
Definition assign_needs_rollback (this : nat) (b : bool) : M unit :=
  t <- load this ;; store this (set_needs_rollback b t).

(** [transaction(const Connection& con)] *)
Definition construct (this : nat) (con : Connection.connection) : M unit :=
  c <- Connection.prepare con "COMMIT;" ;;
  r <- on_exception (Connection.prepare con "ROLLBACK;") (Statement.destroy c) ;;
  store this {| _commit := c; _rollback := r; needs_rollback := true |} ;;;
  on_exception (Connection.execute con "BEGIN TRANSACTION;")
               (Statement.destroy r ;;; Statement.destroy c).

(** [transaction(transaction&& o) noexcept]: a new guard at [this]. *)
Definition move_construct (this o : nat) : M unit :=
  src <- load o ;;
  let c := _commit src in
  store o (set_commit {| _ptr := None |} src) ;;;
  src <- load o ;;
  let r := _rollback src in
  store o (set_rollback {| _ptr := None |} src) ;;;
  src <- load o ;;
  store this {| _commit := c; _rollback := r;
                needs_rollback := needs_rollback src |} ;;;
  assign_needs_rollback o false.

(** The move assignment of a [statement] member ([unique_ptr]'s
    [reset(u.release())]), on the member selected by [field]/[set]. *)
Definition member_move_assign (field : transaction -> statement)
  (set : statement -> transaction -> transaction) (this o : nat) : M unit :=
  src <- load o ;;
  let p := _ptr (field src) in
  store o (set {| _ptr := None |} src) ;;;
  dst <- load this ;;
  let old := _ptr (field dst) in
  store this (set {| _ptr := p |} dst) ;;;
  Statement.destroy {| _ptr := old |}.

(** [operator=(transaction&& o) noexcept] *)
Definition move_assign (this o : nat) : M unit :=
  src <- load o ;;
  assign_needs_rollback this (needs_rollback src) ;;;
  member_move_assign _commit set_commit this o ;;;
  member_move_assign _rollback set_rollback this o ;;;
  assign_needs_rollback o false.

(** [commit()] *)
Definition commit (this : nat) : M unit :=
  t <- load this ;;
  if needs_rollback t then
    Statement.execute (_commit t) ;;;
    assign_needs_rollback this false
  else pure tt.

(** [rollback()] *)
Definition rollback (this : nat) : M unit :=
  t <- load this ;;
  if needs_rollback t then
    Statement.execute (_rollback t) ;;;
    assign_needs_rollback this false
  else pure tt.

(** [~transaction() noexcept(false)]: the body, then the members in
    the reverse order of their declaration, also when the body throws. *)
Definition destructor (this : nat) : M unit :=
  finally
    (t <- load this ;;
     if needs_rollback t then rollback this else pure tt)
    (t <- load this ;;
     Statement.destroy (_rollback t) ;;;
     Statement.destroy (_commit t)).

(** What callers do with the guards: an operation on the guard at an
    address; [op_destroy] is the end of its scope. *)
Inductive operation := op_commit | op_rollback | op_destroy.

Definition perform (this : nat) (op : operation) : M unit :=
  match op with
  | op_commit => commit this
  | op_rollback => rollback this
  | op_destroy => destructor this
  end.

(** Callers that perform [ops] in turn, catching what each throws.
    The result lists, for each operation, how it ended and which
    engine calls it made. *)
Fixpoint run (ops : list (nat * operation)) (w : world)
  : list (outcome unit * list event) * world :=
  match ops with
  | [] => ([], w)
  | (this, op) :: rest =>
      let (r, w') := perform this op w in
      let (rs, w'') := run rest w' in
      ((r, new_calls w w') :: rs, w'')
  end.

(** The life of one guard: [ops] ([op_commit], [op_rollback]) and then
    the end of its scope. *)
Definition lifetime (this : nat) (ops : list operation) (w : world)
  : list (outcome unit * list event) * world :=
  run (map (pair this) ops ++ [(this, op_destroy)]) w.

(** An operation executed a statement when it stepped one. *)
Definition is_step (ev : event) : bool :=
  match ev with ev_step _ _ => true | _ => false end.

Definition executed (r : outcome unit * list event) : bool :=
  existsb is_step (snd r).

(** ... and executed it to the end when it also returned. *)
Definition completed (r : outcome unit * list event) : bool :=
  executed r && returns_normally (fst r).

End Transaction.
End Transaction.

(** ** The database handle of a connection

    [open], [is_open] and the destructor of a connection work on the
    database handle alone.  The engine calls they make are the rest of
    the interface; they are logged on their own.  [sqlite3_open_v2]
    returns its status together with the handle it writes through
    [ppDb] (the file name is passed as its text, the VFS is null). *)

Class Sqlite3Open {CXX : Implementation} {SQL : Sqlite3} := {
  sqlite3_open_v2 : string -> Z -> engine -> (Z * sqlite3_ptr) * engine;
  sqlite3_extended_result_codes : sqlite3_ptr -> Z -> engine -> Z * engine;
  sqlite3_close : sqlite3_ptr -> engine -> Z * engine
}.

Module Handle.
Section Handle.
Context {CXX : Implementation} {SQL : Sqlite3} {OPEN : Sqlite3Open}.

Inductive handle_event :=
| ev_open_v2 (filename : string) (flags : Z) (ret : Z) (db : sqlite3_ptr)
| ev_extended_result_codes (db : sqlite3_ptr) (onoff : Z)
| ev_close (db : sqlite3_ptr).

(** The connection object, the engine, and the log of the calls made
    on database handles. *)
Record session := {
  this : Connection.connection;
  engine_state : engine;
  handle_calls : list handle_event
}.

(** [connection() noexcept = default] *)
Definition default (e : engine) : session :=
  {| this := {| Connection.db := None |}; engine_state := e; handle_calls := [] |}.

(** The deleter, [sqlite3_close(db)]. *)
Definition deleter (db : sqlite3_ptr) (s : session) : session :=
  {| this := this s;
     engine_state := snd (sqlite3_close db (engine_state s));
     handle_calls := handle_calls s ++ [ev_close db] |}.

(** [db.reset(ptr)]: the connection takes [ptr], then the deleter runs
    on the handle it held, when it held one. *)
Definition reset_db (ptr : sqlite3_ptr) (s : session) : session :=
  let old := Connection.db (this s) in
  let s' := {| this := {| Connection.db := ptr |};
               engine_state := engine_state s;
               handle_calls := handle_calls s |} in
  match old with
  | Some _ => deleter old s'
  | None => s'
  end.

(** [open(const String& filename, int flags)] *)
Definition open (filename : string) (flags : Z) (s : session)
  : outcome unit * session :=
  let r := sqlite3_open_v2 filename flags (engine_state s) in
  let ret := fst (fst r) in
  let ptr := snd (fst r) in
  let s1 := {| this := this s;
               engine_state := snd r;
               handle_calls := handle_calls s ++ [ev_open_v2 filename flags ret ptr] |} in
  if negb (ret =? SQLITE_OK) then (Throws (error ret), s1)
  else
    let s2 := {| this := this s1;
                 engine_state :=
                   snd (sqlite3_extended_result_codes ptr 1 (engine_state s1));
                 handle_calls :=
                   handle_calls s1 ++ [ev_extended_result_codes ptr 1] |} in
    (Returns tt, reset_db ptr s2).

(** [data()] and [is_open()] *)
Definition data (s : session) : sqlite3_ptr := Connection.db (this s).

Definition is_open (s : session) : bool :=
  match Connection.db (this s) with Some _ => true | None => false end.

(** The destructor: the deleter runs on a handle that is not null. *)
Definition destructor (s : session) : session :=
  match Connection.db (this s) with
  | Some _ => deleter (Connection.db (this s)) s
  | None => s
  end.

(** A caller that opens the files [fs] in turn on the same connection,
    catching what an [open] throws. *)
Fixpoint opens (fs : list (string * Z)) (s : session) : session :=
  match fs with
  | [] => s
  | (filename, flags) :: rest => opens rest (snd (open filename flags s))
  end.

(** The handles closed in a log, and the handles a successful
    [sqlite3_open_v2] gave in it. *)
Fixpoint closed (l : list handle_event) : list sqlite3_ptr :=
  match l with
  | [] => []
  | ev_close db :: rest => db :: closed rest
  | _ :: rest => closed rest
  end.

Fixpoint taken (l : list handle_event) : list sqlite3_ptr :=
  match l with
  | [] => []
  | ev_open_v2 _ _ ret (Some h) :: rest =>
      if ret =? SQLITE_OK then Some h :: taken rest else taken rest
  | _ :: rest => taken rest
  end.

End Handle.
End Handle.

(** ** error.hpp: who frees the message

    The [error_string] objects at their addresses, and the log of the
    pointers handed to [sqlite3_free]. *)

Module ErrorString.

Record heap := {
  objects : nat -> error_string;
  freed : list (option string)
}.

Definition put (a : nat) (x : error_string) (h : heap) : heap :=
  {| objects := fun b => if Nat.eqb b a then x else objects h b;
     freed := freed h |}.

(** [error_string(error_string&& o) noexcept]: a new object at [this]. *)
Definition move_construct (this o : nat) (h : heap) : heap :=
  let h1 := put this {| str := str (objects h o) |} h in
  put o {| str := None |} h1.

(** [operator=(error_string&& o) noexcept] *)
Definition move_assign (this o : nat) (h : heap) : heap :=
  let h1 := put this {| str := str (objects h o) |} h in
  put o {| str := None |} h1.

(** [~error_string()] *)
Definition destructor (this : nat) (h : heap) : heap :=
  {| objects := objects h; freed := freed h ++ [str (objects h this)] |}.

(** [data()] *)
Definition data (this : nat) (h : heap) : option string := str (objects h this).

(** The messages released in a log: [sqlite3_free] of a null pointer
    releases nothing. *)
Fixpoint released (l : list (option string)) : list string :=
  match l with
  | [] => []
  | Some m :: rest => m :: released rest
  | None :: rest => released rest
  end.

End ErrorString.

(** ** column.hpp: the row view with the types of its columns *)

Module TypedColumn.
Section TypedColumn.
Context {CXX : Implementation} {SQL : Sqlite3}.

Record column := { ptr : sqlite3_stmt_ptr }.

Definition data (c : column) : sqlite3_stmt_ptr := ptr c.


(** [get<N>()]: the [static_assert] stops the compilation when [N] is
    out of bounds; the result has the type [T] of position [N]. *)
Definition get (Args : list cpp_type) (N : nat) (c : column)
  : option {T : cpp_type & M (value_of T)} :=
  match nth_error Args N with
  | Some T =>
      option_map (fun convert => existT (fun T => M (value_of T)) T
                                        (convert (ptr c) (Z.of_nat N)))
                 (Meta.column_traits T)
  | None => None
  end.



End TypedColumn.
End TypedColumn.

(** ** Notions the properties are stated with *)

Section Notions.
Context {CXX : Implementation} {SQL : Sqlite3}.

(** The values of a signed integer type of [bits] bits. *)
Definition in_range (bits : Z) (v : Z) : Prop :=
  - 2 ^ (bits - 1) <= v < 2 ^ (bits - 1).

(** The values of an integer type: [false] and [true] are 0 and 1. *)
Definition representable (I : integer_type) (v : Z) : Prop :=
  match I with
  | i_bool => 0 <= v <= 1
  | _ => in_range (8 * sizeof (ty_integer I)) v
  end.

(** The engine after [n] steps of the statement [p]. *)
Fixpoint stepped (p : sqlite3_stmt_ptr) (n : nat) (e : engine) : engine :=
  match n with
  | O => e
  | S n' => stepped p n' (snd (sqlite3_step p e))
  end.

(** The status the engine reports at step number [n] (counted from 0). *)
Definition status_at (p : sqlite3_stmt_ptr) (n : nat) (e : engine) : Z :=
  fst (sqlite3_step p (stepped p n e)).

(** The engine rewinds [p]: a reset makes the steps taken before it
    forgotten, and a second reset changes nothing. *)
Definition rewinds (p : sqlite3_stmt_ptr) : Prop :=
  forall e : engine,
    sqlite3_reset p (snd (sqlite3_step p e)) = sqlite3_reset p e /\
    sqlite3_reset p (snd (sqlite3_reset p e)) = sqlite3_reset p e.

(** The engine gives back, through [column_] at column [col] of the
    first row, the value [x] bound through [bind_] at [index]. *)
Definition echoes {A : Type}
  (bind_ : sqlite3_stmt_ptr -> Z -> A -> engine -> Z * engine)
  (column_ : sqlite3_stmt_ptr -> Z -> engine -> A)
  (p : sqlite3_stmt_ptr) (index col : Z) (x : A) (e : engine) : Prop :=
  let b := bind_ p index x e in
  let r := sqlite3_reset p (snd b) in
  let s := sqlite3_step p (snd r) in
  fst b = SQLITE_OK /\ fst r = SQLITE_OK /\ fst s = SQLITE_ROW /\
  column_ p col (snd s) = x.

(** Bind a value at [index], start an iteration, and extract column
    [col] of the row it stands on as the same type. *)
Definition round_trip (T : cpp_type) (s : statement) (index col : Z)
  (value : value_of T) : option (M (value_of T)) :=
  match Statement.bind_to T s index value, Meta.column_traits T with
  | Some bind_value, Some convert =>
      Some (bind_value ;;;
            it <- Range.begin (Statement.fetch s) ;;
            convert (Column.data (Iterator.deref it)) col)
  | _, _ => None
  end.

(** The reading of [bind] the specification gives is written from the
    calls of the engine alone.  First the engine call that binds one
    value, by the category of its type: a [double] as it is and a
    [float] promoted, by [sqlite3_bind_double]; an integer by
    [sqlite3_bind_int] when its type is narrower than 8 bytes and by
    [sqlite3_bind_int64] otherwise; [nullptr] by [sqlite3_bind_null];
    an array, a pointer to terminated text and a string of [char] by
    [sqlite3_bind_text], of [char16_t] by [sqlite3_bind_text16], with
    the count of bytes.  [None]: no value of the type can be bound. *)
Fixpoint units_before_zero (buf : list Z) : option Z :=
  match buf with
  | [] => None
  | c :: rest =>
      if c =? 0 then Some 0 else option_map Z.succ (units_before_zero rest)
  end.

Definition engine_bind_array (C : cpp_type) (N : nat)
  : option (sqlite3_stmt_ptr -> Z -> list (value_of C) -> M Z) :=
  match C as C0 return option (sqlite3_stmt_ptr -> Z -> list (value_of C0) -> M Z) with
  | ty_char => Some (fun p index units =>
      bind_text_call p index (Some units) (Z.of_nat N - 1) SQLITE_STATIC)
  | ty_char16_t => Some (fun p index units =>
      bind_text16_call p index (Some units) (Z.of_nat N * 2 - 1) SQLITE_STATIC)
  | _ => None
  end.

Definition engine_bind_pointer (C : cpp_type)
  : option (sqlite3_stmt_ptr -> Z -> option (list (value_of C)) -> M Z) :=
  match C as C0
        return option (sqlite3_stmt_ptr -> Z -> option (list (value_of C0)) -> M Z) with
  | ty_char => Some (fun p index text =>
      match text with
      | Some buf =>
          match units_before_zero buf with
          | Some n => bind_text_call p index text n SQLITE_TRANSIENT
          | None => undefined
          end
      | None => undefined
      end)
  | ty_char16_t => Some (fun p index text =>
      match text with
      | Some buf =>
          match units_before_zero buf with
          | Some n => bind_text16_call p index text (n * 2) SQLITE_TRANSIENT
          | None => undefined
          end
      | None => undefined
      end)
  | _ => None
  end.

Definition engine_bind_string (C : cpp_type)
  : option (sqlite3_stmt_ptr -> Z -> list (value_of C) -> M Z) :=
  match C as C0 return option (sqlite3_stmt_ptr -> Z -> list (value_of C0) -> M Z) with
  | ty_char => Some (fun p index units =>
      bind_text_call p index (Some (units ++ [0]))
        (Z.of_nat (List.length units)) SQLITE_TRANSIENT)
  | ty_char16_t => Some (fun p index units =>
      bind_text16_call p index (Some (units ++ [0]))
        (Z.of_nat (List.length units) * 2) SQLITE_TRANSIENT)
  | _ => None
  end.

Definition engine_bind (T : cpp_type)
  : option (sqlite3_stmt_ptr -> Z -> value_of T -> M Z) :=
  match T as T0 return option (sqlite3_stmt_ptr -> Z -> value_of T0 -> M Z) with
  | ty_double => Some (fun p index v => bind_double_call p index v)
  | ty_float => Some (fun p index v => bind_double_call p index (float_to_double v))
  | ty_integer Int => Some (fun p index v =>
      if sizeof (ty_integer Int) <? 8
      then bind_int_call p index (wrap 32 v)
      else bind_int64_call p index (wrap 64 v))
  | ty_nullptr_t => Some (fun p index _ => bind_null_call p index)
  | ty_array C N => engine_bind_array C N
  | ty_const_pointer C => engine_bind_pointer C
  | ty_basic_string C => engine_bind_string C
  | _ => None
  end.

(** The arguments [named(name, value)...] of a call. *)
Definition named_arguments (nps : list (string * Statement.argument))
  : list Statement.argument :=
  map (fun na => Statement.named (fst na) (snd na)) nps.

(** The reading for a call whose arguments are all named: resolve each
    name in turn, skip it when the engine does not know it, bind the
    value at the index found otherwise; the first binding the engine
    refuses is thrown, and ends the call. *)
Fixpoint bind_each_by_name (s : statement) (nps : list (string * Statement.argument))
  : option (M unit) :=
  match nps with
  | [] => Some (pure tt)
  | (name, a) :: rest =>
      match engine_bind (Statement.arg_type a), bind_each_by_name s rest with
      | Some call, Some others =>
          Some (index <- bind_parameter_index_call (_ptr s) name ;;
                (if index =? 0 then pure tt
                 else
                   ret <- call (_ptr s) index (Statement.arg_value a) ;;
                   if ret =? SQLITE_OK then pure tt else throw (error ret)) ;;;
                others)
      | _, _ => None
      end
  end.

(** ... and for the other calls: bind the arguments in their order at
    the indices [index], [index + 1], ..., up to the first binding the
    engine refuses, which is thrown. *)
Fixpoint bind_each_positionally (s : statement) (index : Z)
  (args : list Statement.argument) : option (M unit) :=
  match args with
  | [] => Some (pure tt)
  | a :: rest =>
      match engine_bind (Statement.arg_type a),
            bind_each_positionally s (index + 1) rest with
      | Some call, Some others =>
          Some ((ret <- call (_ptr s) index (Statement.arg_value a) ;;
                 if ret =? SQLITE_OK then pure tt else throw (error ret)) ;;;
                others)
      | _, _ => None
      end
  end.

(** The statement, the index and the status of a call that binds. *)
Definition binding_of (ev : event) : option (sqlite3_stmt_ptr * Z * Z) :=
  match ev with
  | ev_bind_double p index _ ret => Some (p, index, ret)
  | ev_bind_int p index _ ret => Some (p, index, ret)
  | ev_bind_int64 p index _ ret => Some (p, index, ret)
  | ev_bind_null p index ret => Some (p, index, ret)
  | ev_bind_text p index _ _ _ ret => Some (p, index, ret)
  | ev_bind_text16 p index _ _ _ ret => Some (p, index, ret)
  | _ => None
  end.

(** Bindings on [p] at the indices [first], [first + 1], ... with the
    given statuses. *)
Definition bound_in_order (p : sqlite3_stmt_ptr) (first : nat) (statuses : list Z)
  : list (option (sqlite3_stmt_ptr * Z * Z)) :=
  map (fun ir : nat * Z => Some (p, Z.of_nat (fst ir), snd ir))
      (combine (seq first (List.length statuses)) statuses).

(** Two calls behave alike: both compile and run alike from every
    world, or neither compiles. *)
Definition same_behaviour {A} (a b : option (M A)) : Prop :=
  match a, b with
  | Some m, Some m' => forall w, m w = m' w
  | None, None => True
  | _, _ => False
  end.

(** "The call raises exactly when the step result is neither row nor
    done", read on the outcome and the log of a run of [m] from [w]. *)
Definition raises_exactly_on_bad_step (m : M unit) (p : sqlite3_stmt_ptr)
  (w : world) : Prop :=
  raises (fst (m w)) = true <->
  exists ret, In (ev_step p ret) (new_calls w (snd (m w))) /\
              ret <> SQLITE_ROW /\ ret <> SQLITE_DONE.









(** What a caller does between two operations on a guard may be
    anything: a step of a caller is an operation on a guard, or any
    other computation. *)
Inductive step :=
| on_guard (a : nat) (op : Transaction.operation)
| other (m : M unit).






(** How an iteration that met the status [c] ends. *)
Definition ending (c : Z) : outcome unit :=
  if c =? SQLITE_DONE then Returns tt else Throws (error c).

(** The rows read at the states reached by 0, 1, ..., [m] steps. *)
Definition rows_from {R : Type} (read : Column.column -> engine -> R)
  (p : sqlite3_stmt_ptr) (e : engine) (m : nat) : list R :=
  map (fun k => read {| Column.ptr := p |} (stepped p k e)) (seq 0 (S m)).

(** The rows of an iteration that started from the engine [e] (just
    reset) and met [n] rows: row [k] is read after step [k]. *)
Definition rows_read {R : Type} (read : Column.column -> engine -> R)
  (p : sqlite3_stmt_ptr) (e : engine) (n : nat) : list R :=
  map (fun k => read {| Column.ptr := p |} (stepped p (S k) e)) (seq 0 n).

(** The world an iteration leaves that reset [p] with success and met
    [n] rows and then the status [c]. *)
Definition iterated (p : sqlite3_stmt_ptr) (w : world) (n : nat) (c : Z) : world :=
  {| state := stepped p (S n) (snd (sqlite3_reset p (state w)));
     calls := calls w ++
              ev_reset p SQLITE_OK :: repeat (ev_step p SQLITE_ROW) n ++ [ev_step p c];
     guards := guards w |}.

(** The statuses of the steps that follow a reset of [p] in [w] are
    [n] rows and then [c], which is not a row. *)
Definition meets (p : sqlite3_stmt_ptr) (w : world) (n : nat) (c : Z) : Prop :=
  (forall k, (k < n)%nat ->
     status_at p k (snd (sqlite3_reset p (state w))) = SQLITE_ROW) /\
  status_at p n (snd (sqlite3_reset p (state w))) = c /\
  c <> SQLITE_ROW.

(** Two runs ended alike: with the same result, the same engine, and
    the same calls added to their logs; or neither ended. *)
Definition alike {A} (w w' : world) (a b : option (A * world)) : Prop :=
  match a, b with
  | Some (x, w1), Some (x', w1') =>
      x = x' /\ state w1 = state w1' /\
      exists l, calls w1 = calls w ++ l /\ calls w1' = calls w' ++ l
  | None, None => True
  | _, _ => False
  end.

End Notions.

(** ** Further notions: supported types, resources, text *)

Section Resources.
Context {CXX : Implementation} {SQL : Sqlite3}.



(** The calls that bind a parameter or look one up. *)
Definition is_binding (ev : event) : bool :=
  match ev with
  | ev_bind_parameter_index _ _ _
  | ev_bind_double _ _ _ _ | ev_bind_int _ _ _ _ | ev_bind_int64 _ _ _ _
  | ev_bind_null _ _ _ | ev_bind_text _ _ _ _ _ _ | ev_bind_text16 _ _ _ _ _ _ => true
  | _ => false
  end.

(** The statement handles the engine handed out in a log (those of
    the [sqlite3_prepare_v2] calls that succeeded and gave one), and the
    handles finalized in it. *)
Fixpoint handed_out (l : list event) : list sqlite3_stmt_ptr :=
  match l with
  | [] => []
  | ev_prepare _ _ _ ret (Some h) :: rest =>
      if ret =? SQLITE_OK then Some h :: handed_out rest else handed_out rest
  | _ :: rest => handed_out rest
  end.

Fixpoint finalized (l : list event) : list sqlite3_stmt_ptr :=
  match l with
  | [] => []
  | ev_finalize p :: rest => p :: finalized rest
  | _ :: rest => finalized rest
  end.


End Resources.

Section Binding.
Context {CXX : Implementation} {SQL : Sqlite3}.

(** A computation only binds: from whatever world it is run, it
    leaves the guards alone and adds only binding calls to the log. *)
Definition only_binds {A} (m : M A) : Prop :=
  forall w,
    guards (snd (m w)) = guards w /\
    exists l, calls (snd (m w)) = calls w ++ l /\ forallb is_binding l = true.

End Binding.

Section Running.
Context {CXX : Implementation} {SQL : Sqlite3}.

(** The calls that run a statement: a step or a reset. *)
Definition is_running (ev : event) : bool :=
  match ev with
  | ev_step _ _ | ev_reset _ _ => true
  | _ => false
  end.

End Running.

(** ** A small engine to run the wrapper on

    A database is a catalog of the SQL texts it understands, each with
    the program a prepared statement of that text runs, and the
    statements prepared so far.  A program tells, from the bound values
    and the number of steps taken since the last reset, the status of
    the next step and the row it produces. *)

Module Toy.

(** The C++ implementation: LP64 with IEEE binary32 and binary64, and
    the 80-bit extended format for [long double]. *)
Definition to_format (prec emax : Z) (x : spec_float) : spec_float :=
  match x with
  | S754_finite s m e => binary_normalize prec emax (cond_Zopp s (Zpos m)) e s
  | _ => x
  end.

#[export] Instance cxx : Implementation := {|
  model := LP64;
  double := spec_float;
  float := spec_float;
  long_double := spec_float;
  float_to_double := to_format 53 1024;
  double_to_float := to_format 24 128;
  double_to_long_double := to_format 64 16384
|}.

Inductive value :=
| v_null
| v_integer (i : Z)
| v_real (d : spec_float)
| v_text (units : list Z).

Record program := {
  parameters : list string;
  step_of : list value -> nat -> Z * list value
}.

Record stmt := {
  prog : program;
  bound : list value;
  pc : nat;
  row : list value
}.

Record database := {
  catalog : list (string * program);
  stmts : list stmt
}.

Fixpoint lookup (sql : string) (c : list (string * program)) : option program :=
  match c with
  | [] => None
  | (text, p) :: rest => if String.eqb sql text then Some p else lookup sql rest
  end.

Fixpoint update {A} (n : nat) (f : A -> A) (l : list A) : list A :=
  match l, n with
  | [], _ => []
  | x :: rest, O => f x :: rest
  | x :: rest, S n' => x :: update n' f rest
  end.

Definition on_stmt {A} (p : sqlite3_stmt_ptr) (d : database) (missing : A)
  (f : stmt -> A) : A :=
  match p with
  | Some h => match nth_error (stmts d) h with Some s => f s | None => missing end
  | None => missing
  end.

Definition change (p : sqlite3_stmt_ptr) (f : stmt -> stmt) (d : database) : database :=
  match p with
  | Some h => {| catalog := catalog d; stmts := update h f (stmts d) |}
  | None => d
  end.

Definition exec (db : sqlite3_ptr) (sql : string) (d : database)
  : (Z * option string) * database :=
  match lookup sql (catalog d) with
  | Some _ => ((SQLITE_OK, None), d)
  | None => ((SQLITE_ERROR, Some "syntax error"%string), d)
  end.

Definition prepare (db : sqlite3_ptr) (sql : string) (nbyte : Z) (d : database)
  : (Z * sqlite3_stmt_ptr) * database :=
  match lookup sql (catalog d) with
  | Some p =>
      ((SQLITE_OK, Some (List.length (stmts d))),
       {| catalog := catalog d;
          stmts := stmts d ++
                   [{| prog := p;
                       bound := repeat v_null (List.length (parameters p));
                       pc := O; row := [] |}] |})
  | None => ((SQLITE_ERROR, None), d)
  end.

Definition finalize (p : sqlite3_stmt_ptr) (d : database) : Z * database :=
  (SQLITE_OK, d).

Definition step (p : sqlite3_stmt_ptr) (d : database) : Z * database :=
  on_stmt p d (SQLITE_MISUSE, d)
    (fun s =>
       let r := step_of (prog s) (bound s) (pc s) in
       (fst r,
        change p (fun s => {| prog := prog s; bound := bound s;
                              pc := S (pc s); row := snd r |}) d)).

Definition reset (p : sqlite3_stmt_ptr) (d : database) : Z * database :=
  (SQLITE_OK,
   change p (fun s => {| prog := prog s; bound := bound s; pc := O; row := [] |}) d).

Fixpoint index_of (name : string) (names : list string) (i : Z) : Z :=
  match names with
  | [] => 0
  | n :: rest => if String.eqb name n then i else index_of name rest (i + 1)
  end.

Definition bind_parameter_index (p : sqlite3_stmt_ptr) (name : string)
  (d : database) : Z :=
  on_stmt p d 0 (fun s => index_of name (parameters (prog s)) 1).

Definition bind_value (v : value) (p : sqlite3_stmt_ptr) (index : Z) (d : database)
  : Z * database :=
  on_stmt p d (SQLITE_MISUSE, d)
    (fun s =>
       if (1 <=? index) && (index <=? Z.of_nat (List.length (bound s))) then
         (SQLITE_OK,
          change p (fun s => {| prog := prog s;
                                bound := update (Z.to_nat (index - 1))
                                                (fun _ => v) (bound s);
                                pc := pc s; row := row s |}) d)
       else (SQLITE_RANGE, d)).

Definition bind_text (units_per_byte : Z) (p : sqlite3_stmt_ptr) (index : Z)
  (text : char_ptr) (n : Z) (destructor : text_destructor) (d : database)
  : Z * database :=
  match text with
  | Some buf => bind_value (v_text (firstn (Z.to_nat (n / units_per_byte)) buf)) p index d
  | None => bind_value v_null p index d
  end.

Definition column {A} (p : sqlite3_stmt_ptr) (index : Z) (d : database)
  (f : value -> A) : A :=
  on_stmt p d (f v_null) (fun s => f (nth (Z.to_nat index) (row s) v_null)).

Definition column_double (p : sqlite3_stmt_ptr) (index : Z) (d : database)
  : spec_float :=
  column p index d
    (fun v => match v with v_real x => x | _ => S754_zero false end).

Definition column_int (bits : Z) (p : sqlite3_stmt_ptr) (index : Z) (d : database)
  : Z :=
  column p index d
    (fun v => match v with v_integer i => wrap bits i | _ => 0 end).

Definition column_bytes (bytes_per_unit : Z) (p : sqlite3_stmt_ptr) (index : Z)
  (d : database) : Z :=
  column p index d
    (fun v => match v with
              | v_text s => bytes_per_unit * Z.of_nat (List.length s)
              | _ => 0
              end).

Definition column_text (p : sqlite3_stmt_ptr) (index : Z) (d : database) : char_ptr :=
  column p index d
    (fun v => match v with
              | v_text s => Some (s ++ [0])
              | _ => None
              end).

#[export] Instance sqlite : Sqlite3 := {|
  engine := database;
  sqlite3_exec := exec;
  sqlite3_prepare_v2 := prepare;
  sqlite3_finalize := finalize;
  sqlite3_step := step;
  sqlite3_reset := reset;
  sqlite3_bind_parameter_index := bind_parameter_index;
  sqlite3_bind_double := fun p index value => bind_value (v_real value) p index;
  sqlite3_bind_int := fun p index value => bind_value (v_integer value) p index;
  sqlite3_bind_int64 := fun p index value => bind_value (v_integer value) p index;
  sqlite3_bind_null := bind_value v_null;
  sqlite3_bind_text := bind_text 1;
  sqlite3_bind_text16 := bind_text 2;
  sqlite3_column_double := column_double;
  sqlite3_column_int := column_int 32;
  sqlite3_column_int64 := column_int 64;
  sqlite3_column_bytes := column_bytes 1;
  sqlite3_column_bytes16 := column_bytes 2;
  sqlite3_column_text := column_text;
  sqlite3_column_text16 := column_text;
  sqlite3_column_blob := column_text
|}.

(** Programs. *)

(** [SELECT ?]-like: one row, the bound values. *)
Definition select_parameters (names : list string) : program :=
  {| parameters := names;
     step_of := fun bound pc =>
       match pc with O => (SQLITE_ROW, bound) | _ => (SQLITE_DONE, []) end |}.

(** A query over a table that does not change: its rows, then done. *)
Definition select_rows (rows : list (list value)) : program :=
  {| parameters := [];
     step_of := fun _ pc =>
       match nth_error rows pc with
       | Some r => (SQLITE_ROW, r)
       | None => (SQLITE_DONE, [])
       end |}.

(** A statement without result rows that succeeds. *)
Definition succeeds : program :=
  {| parameters := []; step_of := fun _ _ => (SQLITE_DONE, []) |}.


(** A recursive query without a limit: a row at every step. *)
Definition counting : program :=
  {| parameters := [];
     step_of := fun _ pc => (SQLITE_ROW, [v_integer (Z.of_nat pc)]) |}.

(** [n] rows, then the failure [ec]. *)
Definition fails_after (n : nat) (ec : Z) : program :=
  {| parameters := [];
     step_of := fun _ pc =>
       if Nat.ltb pc n then (SQLITE_ROW, [v_integer (Z.of_nat pc)]) else (ec, []) |}.

Definition no_guard : transaction :=
  {| _commit := {| _ptr := None |}; _rollback := {| _ptr := None |};
     needs_rollback := false |}.

(** The world with a database of the given catalog and statements. *)
Definition world_of (c : list (string * program)) (ss : list stmt) : world :=
  {| state := {| catalog := c; stmts := ss |}; calls := []; guards := fun _ => no_guard |}.

(** A prepared statement of a program, nothing bound, not stepped. *)
Definition fresh (p : program) : stmt :=
  {| prog := p; bound := repeat v_null (List.length (parameters p));
     pc := O; row := [] |}.

(** Scenarios. *)

Definition handle0 : statement := {| _ptr := Some 0%nat |}.

Definition connection0 : Connection.connection :=
  {| Connection.db := Some 0%nat |}.

Definition argument_of (T : cpp_type) (v : value_of T) : Statement.argument :=
  {| Statement.arg_type := T; Statement.arg_value := v |}.

(** What a loop body reads: column 0 of the row, as an [int]. *)
Definition read_int (c : Column.column) (d : database) : Z :=
  column_int 32 (Column.ptr c) 0 d.


(** A database where the three statements of a transaction succeed. *)
Definition quiet : list (string * program) :=
  [("COMMIT;"%string, succeeds); ("ROLLBACK;"%string, succeeds);
   ("BEGIN TRANSACTION;"%string, succeeds)].

(** The world after [transaction guard(con);] placed the guard at
    address 0, in an empty database of the given catalog. *)
Definition in_transaction (c : list (string * program)) : world :=
  snd (Transaction.construct 0 connection0 (world_of c [])).

(** One prepared statement of the given program, at handle 0. *)
Definition prepared (p : program) : world := world_of [] [fresh p].

Definition two_rows : program :=
  select_rows [[v_integer 10]; [v_integer 20]].

(** The world an iteration over the two rows leaves. *)
Definition after_first_pass : world :=
  match Range.range_for read_int 5 (Statement.fetch handle0) (prepared two_rows) with
  | Some (_, w1) => w1
  | None => prepared two_rows
  end.

(** The world in which the iterator stands on a row holding a null. *)
Definition on_null_row : world :=
  snd (Range.begin (Statement.fetch handle0) (prepared (select_rows [[v_null]]))).


Definition one_and_a_half : spec_float := S754_finite false 6755399441055744 (-52).

Definition one_and_a_half_f : spec_float := S754_finite false 12582912 (-23).

End Toy.

(** ** An engine whose reset reports a failed step

    [sqlite3_reset] of the engine returns the status of the most recent
    step of the statement when that step failed.  The engine above with
    such a reset: *)

Module Reporting.
Import Toy.

(** The status of the most recent step, [SQLITE_OK] before any step. *)
Definition last_step (s : stmt) : Z :=
  match pc s with
  | O => SQLITE_OK
  | S n => fst (step_of (prog s) (bound s) n)
  end.

Definition reset (p : sqlite3_stmt_ptr) (d : database) : Z * database :=
  (on_stmt p d SQLITE_OK
     (fun s =>
        if (last_step s =? SQLITE_ROW) || (last_step s =? SQLITE_DONE)
        then SQLITE_OK
        else last_step s),
   snd (Toy.reset p d)).

Definition sqlite : Sqlite3 := {|
  engine := database;
  sqlite3_exec := exec;
  sqlite3_prepare_v2 := prepare;
  sqlite3_finalize := finalize;
  sqlite3_step := step;
  sqlite3_reset := reset;
  sqlite3_bind_parameter_index := bind_parameter_index;
  sqlite3_bind_double := fun p index value => bind_value (v_real value) p index;
  sqlite3_bind_int := fun p index value => bind_value (v_integer value) p index;
  sqlite3_bind_int64 := fun p index value => bind_value (v_integer value) p index;
  sqlite3_bind_null := bind_value v_null;
  sqlite3_bind_text := bind_text 1;
  sqlite3_bind_text16 := bind_text 2;
  sqlite3_column_double := column_double;
  sqlite3_column_int := column_int 32;
  sqlite3_column_int64 := column_int 64;
  sqlite3_column_bytes := column_bytes 1;
  sqlite3_column_bytes16 := column_bytes 2;
  sqlite3_column_text := column_text;
  sqlite3_column_text16 := column_text;
  sqlite3_column_blob := column_text
|}.

(** One prepared statement of the given program, at handle 0. *)
Definition prepared (p : program) : world (SQL := sqlite) :=
  @Build_world cxx sqlite {| catalog := []; stmts := [fresh p] |} []
               (fun _ => no_guard).

(** The world an iteration over the two rows leaves. *)
Definition after_first_pass : world (SQL := sqlite) :=
  match Range.range_for (SQL := sqlite) read_int 5 (Statement.fetch handle0)
          (prepared two_rows) with
  | Some (_, w1) => w1
  | None => prepared two_rows
  end.

End Reporting.

(** ** Files and further scenarios for the small engine *)

Module Files.

Definition SQLITE_CANTOPEN : Z := 14.

(** Every name but the empty one opens, on the handle numbered by the
    length of the name; the empty name cannot be opened, and the engine
    still writes a handle. *)
Definition open_v2 (filename : string) (flags : Z) (d : Toy.database)
  : (Z * sqlite3_ptr) * Toy.database :=
  match filename with
  | EmptyString => ((SQLITE_CANTOPEN, Some 0%nat), d)
  | _ => ((SQLITE_OK, Some (String.length filename)), d)
  end.

Definition extended_result_codes (db : sqlite3_ptr) (onoff : Z) (d : Toy.database)
  : Z * Toy.database :=
  (SQLITE_OK, d).

Definition close (db : sqlite3_ptr) (d : Toy.database) : Z * Toy.database :=
  (SQLITE_OK, d).

#[export] Instance files : @Sqlite3Open Toy.cxx Toy.sqlite :=
  @Build_Sqlite3Open Toy.cxx Toy.sqlite open_v2 extended_result_codes close.

(** An empty database. *)
Definition nothing : Toy.database := {| Toy.catalog := []; Toy.stmts := [] |}.

(** A default-constructed connection to it. *)
Definition unopened : Handle.session :=
  @Handle.default Toy.cxx Toy.sqlite nothing.

(** The text [hi], and a text with a zero inside. *)
Definition hi : list Z := [104; 105].



(** A statement with one parameter, which it gives back as its row. *)
Definition one_parameter : world :=
  Toy.prepared (Toy.select_parameters ["a"%string]).

(** A database that knows [COMMIT;] only, and one that does not know
    [BEGIN TRANSACTION;]. *)
Definition only_commit : list (string * Toy.program) :=
  [("COMMIT;"%string, Toy.succeeds)].

Definition no_begin : list (string * Toy.program) :=
  [("COMMIT;"%string, Toy.succeeds); ("ROLLBACK;"%string, Toy.succeeds)].

(** A database with one query, of one parameter. *)
Definition one_query : list (string * Toy.program) :=
  [("SELECT ?;"%string, Toy.select_parameters ["a"%string])].

(** Two [error_string] objects: the one at address 0 holds a message,
    the other holds none. *)
Definition one_message : ErrorString.heap :=
  {| ErrorString.objects := fun a =>
       match a with
       | O => {| str := Some "syntax error"%string |}
       | _ => {| str := None |}
       end;
     ErrorString.freed := [] |}.

(** The iterator that [begin()] returns over the two rows, and the
    world it stands in. *)
Definition first_row : Iterator.statement_iterator :=
  {| Iterator._current_column := {| Column.ptr := Some 0%nat |};
     Iterator.ret := SQLITE_ROW |}.

Definition on_first_row : world :=
  snd (Range.begin (Statement.fetch Toy.handle0) (Toy.prepared Toy.two_rows)).

End Files.


(** * Properties *)

Section Properties.
Context {CXX : Implementation} {SQL : Sqlite3}.

(** ** The call log *)

Lemma skipn_length_app {A} (l l' : list A) : skipn (List.length l) (l ++ l') = l'.
Proof. induction l as [|x l IH]; simpl; auto. Qed.

Lemma new_calls_app (w : world) (e : engine) (l : list event) (g : nat -> transaction) :
  new_calls w {| state := e; calls := calls w ++ l; guards := g |} = l.
Proof. unfold new_calls; simpl. apply skipn_length_app. Qed.






Lemma effect_run {A} (f : engine -> A * engine) (ev : A -> event) (w : world) :
  effect f ev w =
  (Returns (fst (f (state w))),
   {| state := snd (f (state w));
      calls := calls w ++ [ev (fst (f (state w)))];
      guards := guards w |}).
Proof. unfold effect. now destruct (f (state w)). Qed.

(** ** Integer types *)

Lemma is_integer_iff (T : cpp_type) :
  is_integer T = true <-> exists I, T = ty_integer I.
Proof.
  split.
  - destruct T as [I| | | | | | | | | | | | | | ]; try discriminate; eauto.
  - intros [[] ->]; reflexivity.
Qed.

Lemma sizeof_integer (I : integer_type) :
  sizeof (ty_integer I) = 1 \/ sizeof (ty_integer I) = 2 \/
  sizeof (ty_integer I) = 4 \/ sizeof (ty_integer I) = 8.
Proof. destruct I; simpl; auto; destruct model; auto. Qed.

(** C7: for each of the integer types the traits accept, binding makes
    exactly one engine call, [sqlite3_bind_int] when [sizeof(T) < 8] and
    [sqlite3_bind_int64] when [sizeof(T)] is 8, and extraction makes
    exactly one engine call, [sqlite3_column_int] in the first case and
    [sqlite3_column_int64] in the second; one of the two cases holds. *)
Theorem integer_width_dispatch
  (I : integer_type) (ptr : sqlite3_stmt_ptr) (index value : Z) (w : world) :
  is_integer (ty_integer I) = true /\
  (sizeof (ty_integer I) < 8 \/ sizeof (ty_integer I) = 8) /\
  exists bind_ convert,
    Meta.bind_traits (ty_integer I) = Some bind_ /\
    Meta.column_traits (ty_integer I) = Some convert /\
    (sizeof (ty_integer I) < 8 ->
       new_calls w (snd (bind_ ptr index value w)) =
         [ev_bind_int ptr index (wrap 32 value)
            (fst (sqlite3_bind_int ptr index (wrap 32 value) (state w)))] /\
       new_calls w (snd (convert ptr index w)) = [ev_column_int ptr index] /\
       fst (convert ptr index w) =
         Returns (Meta.integer_cast (ty_integer I)
                    (sqlite3_column_int ptr index (state w)))) /\
    (sizeof (ty_integer I) = 8 ->
       new_calls w (snd (bind_ ptr index value w)) =
         [ev_bind_int64 ptr index (wrap 64 value)
            (fst (sqlite3_bind_int64 ptr index (wrap 64 value) (state w)))] /\
       new_calls w (snd (convert ptr index w)) = [ev_column_int64 ptr index] /\
       fst (convert ptr index w) =
         Returns (Meta.integer_cast (ty_integer I)
                    (sqlite3_column_int64 ptr index (state w)))).
Proof.
  assert (Hint : is_integer (ty_integer I) = true) by (destruct I; reflexivity).
  split; [exact Hint|].
  split; [pose proof (sizeof_integer I); lia|].
  exists (Meta.integer_bind (ty_integer I)), (Meta.integer_convert (ty_integer I)).
  split; [cbn [Meta.bind_traits]; now rewrite Hint|].
  split; [cbn [Meta.column_traits]; now rewrite Hint|].
  unfold Meta.integer_bind, Meta.integer_convert,
    Meta.do_integer_bind, Meta.do_integer_convert.
  split; intros Hsize.
  - apply Z.ltb_lt in Hsize. rewrite Hsize.
    unfold bind_int_call, column_int_call, and_then, query, pure.
    rewrite effect_run. cbn [fst snd]. rewrite !new_calls_app. auto.
  - assert (Hge : (sizeof (ty_integer I) <? 8) = false) by (apply Z.ltb_ge; lia).
    rewrite Hge.
    unfold bind_int64_call, column_int64_call, and_then, query, pure.
    rewrite effect_run. cbn [fst snd]. rewrite !new_calls_app. auto.
Qed.

(** C8: extracting an owned string, narrow or wide, from a column whose
    byte count is zero returns the empty string after the single call
    that asks for the count, whatever the text pointer of the engine
    would be; the pointer is requested only when the count is not
    zero. *)
Theorem empty_string_without_pointer_read
  (ptr : sqlite3_stmt_ptr) (index : Z) (w : world) :
  Meta.column_traits (ty_basic_string ty_char) = Some Meta.string_convert /\
  Meta.column_traits (ty_basic_string ty_char16_t) = Some Meta.u16string_convert /\
  (sqlite3_column_bytes ptr index (state w) = 0 ->
     fst (Meta.string_convert ptr index w) = Returns [] /\
     new_calls w (snd (Meta.string_convert ptr index w)) =
       [ev_column_bytes ptr index]) /\
  (sqlite3_column_bytes16 ptr index (state w) = 0 ->
     fst (Meta.u16string_convert ptr index w) = Returns [] /\
     new_calls w (snd (Meta.u16string_convert ptr index w)) =
       [ev_column_bytes16 ptr index]) /\
  (In (ev_column_text ptr index)
      (new_calls w (snd (Meta.string_convert ptr index w))) ->
     sqlite3_column_bytes ptr index (state w) <> 0) /\
  (In (ev_column_text16 ptr index)
      (new_calls w (snd (Meta.u16string_convert ptr index w))) ->
     sqlite3_column_bytes16 ptr index (state w) <> 0).
Proof.
  split; [reflexivity|]. split; [reflexivity|].
  unfold Meta.string_convert, Meta.u16string_convert, column_bytes_call,
    column_bytes16_call, and_then, query.
  repeat split.
  - rewrite H. reflexivity.
  - rewrite H. cbn. apply new_calls_app.
  - rewrite H. reflexivity.
  - rewrite H. cbn. apply new_calls_app.
  - intros Hin Hz. rewrite Hz in Hin. cbn in Hin.
    rewrite new_calls_app in Hin. destruct Hin as [Heq|[]]. discriminate.
  - intros Hin Hz. rewrite Hz in Hin. cbn in Hin.
    rewrite new_calls_app in Hin. destruct Hin as [Heq|[]]. discriminate.
Qed.

(** C6: [connection::execute] makes the one call [sqlite3_exec]; it
    throws exactly when the status is not [SQLITE_OK] or the engine
    produced a message, the exception is the [execute_error] holding
    that status and that message, and otherwise the call returns. *)
Theorem connection_execute_raises_iff
  (con : Connection.connection) (query : string) (w : world) :
  let r := sqlite3_exec (Connection.db con) query (state w) in
  let ret := fst (fst r) in
  let msg := snd (fst r) in
  let out := Connection.execute con query w in
  new_calls w (snd out) = [ev_exec (Connection.db con) query ret msg] /\
  state (snd out) = snd r /\
  (raises (fst out) = true <-> ret <> SQLITE_OK \/ msg <> None) /\
  (raises (fst out) = true ->
     fst out = Throws (execute_error ret {| str := msg |}) /\
     code (execute_error ret {| str := msg |}) = Some ret /\
     message (execute_error ret {| str := msg |}) = msg) /\
  (raises (fst out) = false -> fst out = Returns tt).
Proof.
  cbv zeta. unfold Connection.execute, exec_call, and_then.
  rewrite effect_run. cbn [fst snd].
  destruct (sqlite3_exec (Connection.db con) query (state w)) as [[ret msg] e'].
  cbn [fst snd]. unfold valid, error_string_move, throw, pure. cbn [str fst].
  destruct (Z.eqb_spec ret SQLITE_OK) as [Hret|Hret];
    destruct msg as [m|]; cbn [negb orb fst snd raises state];
    rewrite new_calls_app; repeat split; try discriminate; auto.
  - intros _. right. discriminate.
  - intros [H|H]; congruence.
Qed.


(** ** Binding *)

Lemma and__forallb (l : list bool) : and_ l = forallb (fun b => b) l.
Proof.
  induction l as [|b l IH]; [reflexivity|].
  cbn [forallb]. rewrite <- IH. destruct l as [|c l]; destruct b; reflexivity.
Qed.

Lemma forallb_of_map {A} (f : A -> bool) (l : list A) :
  forallb (fun b => b) (map f l) = forallb f l.
Proof. induction l as [|x l IH]; cbn; [reflexivity|now rewrite IH]. Qed.

Lemma and_then_ext {A B} (m m' : M A) (k k' : A -> M B) (w : world) :
  m w = m' w -> (forall a w1, k a w1 = k' a w1) ->
  and_then m k w = and_then m' k' w.
Proof.
  intros Hm Hk. unfold and_then. rewrite Hm.
  destruct (m' w) as [[a|e|] w1]; auto.
Qed.

Lemma and_then_assoc {A B C} (m : M A) (k : A -> M B) (k' : B -> M C) (w : world) :
  and_then (and_then m k) k' w = and_then m (fun a => and_then (k a) k') w.
Proof. unfold and_then. destruct (m w) as [[a|e|] w1]; reflexivity. Qed.

Lemma units_before_zero_spec (buf : list Z) :
  units_before_zero buf = option_map Z.of_nat (Meta.find_terminator buf).
Proof.
  induction buf as [|c buf IH]; [reflexivity|].
  cbn [units_before_zero Meta.find_terminator]. destruct (c =? 0); [reflexivity|].
  rewrite IH. destruct (Meta.find_terminator buf); cbn [option_map]; [|reflexivity].
  f_equal. lia.
Qed.

(** [bind_traits] makes, for every type, the engine call of the
    reading, and has no member where the reading has none. *)
Lemma bind_traits_is_engine_bind (T : cpp_type) :
  match Meta.bind_traits T, engine_bind T with
  | Some f, Some call => forall p index v w, f p index v w = call p index v w
  | None, None => True
  | _, _ => False
  end.
Proof.
  destruct T as [I| | | | | | | | | |C N|C|C| |U];
    cbn [Meta.bind_traits engine_bind]; try exact I; try (intros; reflexivity).
  - assert (Hint : is_integer (ty_integer I) = true) by (destruct I; reflexivity).
    rewrite Hint. intros p index v w. reflexivity.
  - destruct C; try exact Logic.I; cbn [Meta.array_bind engine_bind_array]; intros p index v w.
    + f_equal. cbn [sizeof]. lia.
    + reflexivity.
  - destruct C; try exact Logic.I; cbn [Meta.pointer_bind engine_bind_pointer];
      intros p index v w; unfold and_then, Meta.char_traits_length;
      (destruct v as [buf|]; [|reflexivity]);
      rewrite units_before_zero_spec;
      destruct (Meta.find_terminator buf); reflexivity.
  - destruct C; try exact Logic.I; cbn [Meta.string_bind engine_bind_string]; intros;
      reflexivity.
Qed.

Lemma same_behaviour_left {A} (a b : option (M A)) (m : M A) :
  same_behaviour a b -> a = Some m ->
  exists m', b = Some m' /\ forall w, m w = m' w.
Proof.
  intros H ->. destruct b as [m'|]; [|contradiction]. now exists m'.
Qed.

Lemma same_behaviour_right {A} (a b : option (M A)) (m' : M A) :
  same_behaviour a b -> b = Some m' ->
  exists m, a = Some m /\ forall w, m w = m' w.
Proof.
  intros H ->. destruct a as [m|]; [|contradiction]. now exists m.
Qed.

Lemma bind_named_refines (s : statement) (nps : list (string * Statement.argument)) :
  same_behaviour
    (Statement.bind_impl_true s (named_arguments nps)) (bind_each_by_name s nps).
Proof.
  unfold Statement.bind_impl_true, named_arguments.
  induction nps as [|[name a] nps IH]; [intros w; reflexivity|].
  cbn [map Statement.expand bind_each_by_name fst snd].
  unfold Statement.bind_named_argument at 1.
  cbn [Statement.named Statement.arg_type Statement.arg_value fst snd].
  unfold Statement.bind_to_name.
  pose proof (bind_traits_is_engine_bind (Statement.arg_type a)) as Htable.
  destruct (Meta.bind_traits (Statement.arg_type a)) as [traits_bind|],
           (engine_bind (Statement.arg_type a)) as [call|];
    try contradiction; cbn [option_map]; [|exact I].
  unfold same_behaviour in IH.
  destruct (Statement.expand _) as [ms|], (bind_each_by_name s nps) as [others|];
    try contradiction; try exact I.
  intros w. rewrite and_then_assoc.
  apply and_then_ext; [reflexivity|].
  intros index w1. apply and_then_ext; [|intros; apply IH].
  destruct (index =? 0); [reflexivity|].
  unfold Statement.bind_to_with. apply and_then_ext; [apply Htable|].
  intros ret w2. destruct (ret =? SQLITE_OK); reflexivity.
Qed.

Lemma bind_positional_refines (s : statement) (args : list Statement.argument)
  (k : nat) :
  same_behaviour
    (Statement.bind_parameters s (seq k (List.length args)) args)
    (bind_each_positionally s (Z.of_nat k + 1) args).
Proof.
  unfold Statement.bind_parameters.
  revert k. induction args as [|a args IH]; intros k; [intros w; reflexivity|].
  cbn [List.length seq combine map Statement.expand bind_each_positionally fst snd].
  unfold Statement.bind_to at 1.
  pose proof (bind_traits_is_engine_bind (Statement.arg_type a)) as Htable.
  destruct (Meta.bind_traits (Statement.arg_type a)) as [traits_bind|],
           (engine_bind (Statement.arg_type a)) as [call|];
    try contradiction; cbn [option_map]; [|exact I].
  specialize (IH (S k)). unfold same_behaviour in IH.
  replace (Z.of_nat (S k) + 1) with (Z.of_nat k + 1 + 1) in IH by lia.
  destruct (Statement.expand _) as [ms|],
           (bind_each_positionally s (Z.of_nat k + 1 + 1) args) as [others|];
    try contradiction; try exact I.
  intros w. apply and_then_ext; [|intros; apply IH].
  unfold Statement.bind_to_with.
  replace (Z.of_nat (k + 1)) with (Z.of_nat k + 1) by lia.
  apply and_then_ext; [apply Htable|].
  intros ret w2. destruct (ret =? SQLITE_OK); reflexivity.
Qed.

Lemma named_has_no_bind_traits (s : statement) (args : list Statement.argument)
  (k : nat) :
  existsb (fun a => is_named_parameter (Statement.arg_type a)) args = true ->
  Statement.bind_parameters s (seq k (List.length args)) args = None.
Proof.
  unfold Statement.bind_parameters. revert k.
  induction args as [|a args IH]; intros k Hsome; [discriminate|].
  cbn [List.length seq combine map Statement.expand fst snd].
  cbn [existsb] in Hsome. apply orb_true_iff in Hsome as [Ha|Hargs].
  - destruct a as [T v]. cbn [Statement.arg_type] in *.
    destruct T; try discriminate. reflexivity.
  - rewrite (IH (S k) Hargs).
    now destruct (Statement.bind_to _ _ _ _).
Qed.

Lemma all_named (nps : list (string * Statement.argument)) :
  forallb (fun a => is_named_parameter (Statement.arg_type a))
          (named_arguments nps) = true.
Proof. unfold named_arguments. induction nps as [|[name a] nps IH]; cbn; auto. Qed.

Lemma bind_named_is_reading (s : statement) (nps : list (string * Statement.argument)) :
  same_behaviour (Statement.bind s (named_arguments nps)) (bind_each_by_name s nps).
Proof.
  unfold Statement.bind. rewrite and__forallb, forallb_of_map, all_named.
  apply bind_named_refines.
Qed.

Lemma bind_positional_is_reading (s : statement) (args : list Statement.argument) :
  forallb (fun a => is_named_parameter (Statement.arg_type a)) args = false ->
  same_behaviour (Statement.bind s args) (bind_each_positionally s 1 args).
Proof.
  intros Hnot. unfold Statement.bind.
  rewrite and__forallb, forallb_of_map, Hnot.
  apply (bind_positional_refines s args 0).
Qed.

(** The first name of a call by names: the lookup, and then the rest of
    the call when the name is unknown, the engine call of the value at
    the index found when it is known. *)
Lemma first_name_run (s : statement) (name : string)
  (a : Statement.argument) (rest : list (string * Statement.argument))
  (m : M unit) (w : world) :
  bind_each_by_name s ((name, a) :: rest) = Some m ->
  let index := sqlite3_bind_parameter_index (_ptr s) name (state w) in
  let w1 := {| state := state w;
               calls := calls w ++ [ev_bind_parameter_index (_ptr s) name index];
               guards := guards w |} in
  exists call others,
    engine_bind (Statement.arg_type a) = Some call /\
    bind_each_by_name s rest = Some others /\
    m w = if index =? 0 then others w1
          else match call (_ptr s) index (Statement.arg_value a) w1 with
               | (Returns ret, w2) =>
                   if ret =? SQLITE_OK then others w2 else (Throws (error ret), w2)
               | (Throws e, w2) => (Throws e, w2)
               | (Undefined, w2) => (Undefined, w2)
               end.
Proof.
  cbn [bind_each_by_name]. intros Hm. cbv zeta.
  destruct (engine_bind (Statement.arg_type a)) as [call|]; [|discriminate].
  destruct (bind_each_by_name s rest) as [others|]; [|discriminate].
  injection Hm as <-. exists call, others.
  split; [reflexivity|]. split; [reflexivity|].
  unfold and_then at 1 2. unfold bind_parameter_index_call. rewrite effect_run.
  cbn [fst snd].
  destruct (_ =? 0); [reflexivity|].
  unfold and_then.
  destruct (call _ _ _ _) as [[ret|e|] w2]; try reflexivity.
  destruct (ret =? SQLITE_OK); reflexivity.
Qed.

(** Each engine call of the reading is undefined, before any call, or
    is one binding on the statement at the index. *)
Lemma engine_bind_one_call (T : cpp_type)
  (call : sqlite3_stmt_ptr -> Z -> value_of T -> M Z) :
  engine_bind T = Some call ->
  forall p index v w,
    call p index v w = (Undefined, w) \/
    exists ret e ev,
      call p index v w =
        (Returns ret,
         {| state := e; calls := calls w ++ [ev]; guards := guards w |}) /\
      binding_of ev = Some (p, index, ret).
Proof.
  destruct T as [I| | | | | | | | | |C N|C|C| |U]; cbn [engine_bind];
    intros Hcall p index v w; try discriminate;
    try (injection Hcall as <-; try destruct (_ <? _);
         right; unfold bind_double_call, bind_int_call, bind_int64_call,
           bind_null_call; rewrite effect_run; eauto).
  - destruct C; try discriminate; injection Hcall as <-; right;
      unfold bind_text_call, bind_text16_call; rewrite effect_run; eauto.
  - destruct C; try discriminate; injection Hcall as <-;
      (destruct v as [buf|]; [|now left]);
      (destruct (units_before_zero buf); [|now left]); right;
      unfold bind_text_call, bind_text16_call; rewrite effect_run; eauto.
  - destruct C; try discriminate; injection Hcall as <-; right;
      unfold bind_text_call, bind_text16_call; rewrite effect_run; eauto.
Qed.

Lemma bound_in_order_cons (p : sqlite3_stmt_ptr) (first : nat) (r : Z)
  (statuses : list Z) :
  bound_in_order p first (r :: statuses) =
  Some (p, Z.of_nat first, r) :: bound_in_order p (S first) statuses.
Proof. reflexivity. Qed.

(** The log of a positional reading that started at the index [first]. *)
Lemma positional_log (s : statement) (args : list Statement.argument) :
  forall (first : nat) (m : M unit) (w : world),
    bind_each_positionally s (Z.of_nat first) args = Some m ->
    exists l,
      calls (snd (m w)) = calls w ++ l /\
      (fst (m w) = Returns tt ->
         map binding_of l =
         bound_in_order (_ptr s) first (repeat SQLITE_OK (List.length args))) /\
      (forall e, fst (m w) = Throws e ->
         exists k ret,
           (k < List.length args)%nat /\ ret <> SQLITE_OK /\ e = error ret /\
           map binding_of l =
           bound_in_order (_ptr s) first (repeat SQLITE_OK k ++ [ret])).
Proof.
  induction args as [|a args IH]; intros first m w Hm.
  - injection Hm as <-. exists []. cbn. rewrite app_nil_r.
    split; [reflexivity|]. split; [reflexivity|]. discriminate.
  - cbn [bind_each_positionally] in Hm.
    destruct (engine_bind (Statement.arg_type a)) as [call|] eqn:Hcall;
      [|discriminate].
    replace (Z.of_nat first + 1) with (Z.of_nat (S first)) in Hm by lia.
    destruct (bind_each_positionally s (Z.of_nat (S first)) args) as [others|] eqn:Ho;
      [|discriminate].
    injection Hm as <-. unfold and_then.
    destruct (engine_bind_one_call _ call Hcall (_ptr s) (Z.of_nat first)
                (Statement.arg_value a) w) as [->|(ret & e & ev & -> & Hev)].
    + exists []. cbn [fst snd]. rewrite app_nil_r.
      split; [reflexivity|]. split; discriminate.
    + destruct (Z.eqb_spec ret SQLITE_OK) as [->|Hret].
      * cbn [pure].
        destruct (IH (S first) others
                    {| state := e; calls := calls w ++ [ev]; guards := guards w |} Ho)
          as (l & Hl & Hreturns & Hthrows).
        exists (ev :: l). cbn [calls] in Hl.
        split; [rewrite Hl, <- app_assoc; reflexivity|].
        cbn [List.length repeat map]. rewrite bound_in_order_cons, Hev. split.
        -- intros Hr. now rewrite (Hreturns Hr).
        -- intros x Hx. destruct (Hthrows x Hx) as (k & ret & Hk & Hret & -> & Hlog).
           exists (S k), ret. split; [lia|]. split; [exact Hret|].
           split; [reflexivity|].
           cbn [repeat app]. rewrite bound_in_order_cons. now rewrite Hlog.
      * cbn [throw fst snd calls]. exists [ev].
        split; [reflexivity|]. split; [discriminate|].
        intros x Hx. injection Hx as <-. exists O, ret.
        cbn [List.length]. split; [lia|]. split; [exact Hret|].
        split; [reflexivity|]. cbn. now rewrite Hev.
Qed.

(** C3, as amended: a call of [bind] whose arguments are all named
    parameters behaves as the reading by names: each name in turn is
    resolved through [sqlite3_bind_parameter_index]; a name that
    resolves to 0 costs that one lookup, binds nothing, leaves the
    engine as it was and lets the call go on, so that a call all of
    whose names are unknown returns with the engine unchanged; a name
    that resolves has its value bound by the engine call of its type at
    the index found, and the call goes on when the status is
    [SQLITE_OK] and throws the status otherwise, the names after it
    neither resolved nor bound.  A call whose arguments are not all
    named behaves as the positional reading: when it returns, the
    engine calls it made are one binding for each argument, at the
    indices 1, 2, ... in argument order, each with the status
    [SQLITE_OK]; when it throws, the bindings at 1, ..., k succeeded,
    the binding at k + 1 was refused with the status thrown, and the
    arguments after it were not bound.  A named parameter among
    arguments that are not all named has no [bind_traits], so that call
    does not compile. *)
Theorem bind_named_or_positional (s : statement) :
  (forall nps,
     same_behaviour (Statement.bind s (named_arguments nps))
                    (bind_each_by_name s nps)) /\
  (forall name a rest m w,
     Statement.bind s (named_arguments ((name, a) :: rest)) = Some m ->
     sqlite3_bind_parameter_index (_ptr s) name (state w) = 0 ->
     exists others,
       Statement.bind s (named_arguments rest) = Some others /\
       m w = others {| state := state w;
                       calls := calls w ++ [ev_bind_parameter_index (_ptr s) name 0];
                       guards := guards w |}) /\
  (forall name a rest m w,
     Statement.bind s (named_arguments ((name, a) :: rest)) = Some m ->
     let index := sqlite3_bind_parameter_index (_ptr s) name (state w) in
     let w1 := {| state := state w;
                  calls := calls w ++ [ev_bind_parameter_index (_ptr s) name index];
                  guards := guards w |} in
     index <> 0 ->
     exists call others,
       engine_bind (Statement.arg_type a) = Some call /\
       Statement.bind s (named_arguments rest) = Some others /\
       m w = match call (_ptr s) index (Statement.arg_value a) w1 with
             | (Returns ret, w2) =>
                 if ret =? SQLITE_OK then others w2 else (Throws (error ret), w2)
             | (Throws e, w2) => (Throws e, w2)
             | (Undefined, w2) => (Undefined, w2)
             end) /\
  (forall nps m w,
     Statement.bind s (named_arguments nps) = Some m ->
     (forall na, In na nps ->
        sqlite3_bind_parameter_index (_ptr s) (fst na) (state w) = 0) ->
     m w = (Returns tt,
            {| state := state w;
               calls := calls w ++
                        map (fun na => ev_bind_parameter_index (_ptr s) (fst na) 0) nps;
               guards := guards w |})) /\
  (forall args,
     forallb (fun a => is_named_parameter (Statement.arg_type a)) args = false ->
     same_behaviour (Statement.bind s args) (bind_each_positionally s 1 args)) /\
  (forall args m w,
     forallb (fun a => is_named_parameter (Statement.arg_type a)) args = false ->
     Statement.bind s args = Some m ->
     (fst (m w) = Returns tt ->
        map binding_of (new_calls w (snd (m w))) =
        bound_in_order (_ptr s) 1 (repeat SQLITE_OK (List.length args))) /\
     (forall e, fst (m w) = Throws e ->
        exists k ret,
          (k < List.length args)%nat /\ ret <> SQLITE_OK /\ e = error ret /\
          map binding_of (new_calls w (snd (m w))) =
          bound_in_order (_ptr s) 1 (repeat SQLITE_OK k ++ [ret]))) /\
  (forall args,
     forallb (fun a => is_named_parameter (Statement.arg_type a)) args = false ->
     existsb (fun a => is_named_parameter (Statement.arg_type a)) args = true ->
     Statement.bind s args = None).
Proof.
  assert (Hfirst : forall name a rest m w,
            Statement.bind s (named_arguments ((name, a) :: rest)) = Some m ->
            let index := sqlite3_bind_parameter_index (_ptr s) name (state w) in
            let w1 := {| state := state w;
                         calls := calls w ++
                                  [ev_bind_parameter_index (_ptr s) name index];
                         guards := guards w |} in
            exists call others,
              engine_bind (Statement.arg_type a) = Some call /\
              Statement.bind s (named_arguments rest) = Some others /\
              m w = if index =? 0 then others w1
                    else match call (_ptr s) index (Statement.arg_value a) w1 with
                         | (Returns ret, w2) =>
                             if ret =? SQLITE_OK then others w2
                             else (Throws (error ret), w2)
                         | (Throws e, w2) => (Throws e, w2)
                         | (Undefined, w2) => (Undefined, w2)
                         end).
  { intros name a rest m w Hm. cbv zeta.
    destruct (same_behaviour_left _ _ m (bind_named_is_reading s _) Hm)
      as (m' & Hm' & Heq).
    destruct (first_name_run s name a rest m' w Hm')
      as (call & others' & Hcall & Ho' & Hrun).
    destruct (same_behaviour_right _ _ others' (bind_named_is_reading s rest) Ho')
      as (others & Ho & Heq').
    exists call, others. split; [exact Hcall|]. split; [exact Ho|].
    rewrite Heq, Hrun. cbv zeta.
    destruct (_ =? 0); [now rewrite Heq'|].
    destruct (call _ _ _ _) as [[ret|e|] w2]; try reflexivity.
    destruct (ret =? SQLITE_OK); [now rewrite Heq'|reflexivity]. }
  assert (Hskip : forall name a rest m w,
            Statement.bind s (named_arguments ((name, a) :: rest)) = Some m ->
            sqlite3_bind_parameter_index (_ptr s) name (state w) = 0 ->
            exists others,
              Statement.bind s (named_arguments rest) = Some others /\
              m w = others
                      {| state := state w;
                         calls := calls w ++
                                  [ev_bind_parameter_index (_ptr s) name 0];
                         guards := guards w |}).
  { intros name a rest m w Hm Hidx.
    destruct (Hfirst name a rest m w Hm) as (call & others & _ & Ho & Hrun).
    exists others. split; [exact Ho|].
    rewrite Hrun, Hidx. reflexivity. }
  split; [|split; [|split; [|split; [|split; [|split]]]]].
  - apply bind_named_is_reading.
  - exact Hskip.
  - intros name a rest m w Hm index w1 Hidx.
    destruct (Hfirst name a rest m w Hm) as (call & others & Hcall & Ho & Hrun).
    exists call, others. split; [exact Hcall|]. split; [exact Ho|].
    rewrite Hrun. apply Z.eqb_neq in Hidx. fold index. now rewrite Hidx.
  - intros nps. induction nps as [|[name a] nps IH]; intros m w Hm Hall.
    + injection Hm as <-. cbn. rewrite app_nil_r. destruct w; reflexivity.
    + destruct (Hskip name a nps m w Hm) as (others & Ho & ->).
      { apply (Hall (name, a)). now left. }
      rewrite (IH others _ Ho).
      * cbn [state calls guards map fst]. now rewrite <- app_assoc.
      * intros na Hin. cbn [state]. apply Hall. now right.
  - apply bind_positional_is_reading.
  - intros args m w Hnot Hm.
    destruct (same_behaviour_left _ _ m (bind_positional_is_reading s args Hnot) Hm)
      as (m' & Hm' & Heq).
    destruct (positional_log s args 1 m' w Hm') as (l & Hl & Hreturns & Hthrows).
    rewrite Heq. unfold new_calls. rewrite Hl, skipn_length_app. now split.
  - intros args Hnot Hsome. unfold Statement.bind.
    rewrite and__forallb, forallb_of_map, Hnot.
    apply named_has_no_bind_traits, Hsome.
Qed.

(** ** Executing a statement *)

Lemma reset_run (s : statement) (w : world) :
  Statement.reset s w =
  (if fst (sqlite3_reset (_ptr s) (state w)) =? SQLITE_OK
   then Returns tt
   else Throws (error (fst (sqlite3_reset (_ptr s) (state w)))),
   {| state := snd (sqlite3_reset (_ptr s) (state w));
      calls := calls w ++
               [ev_reset (_ptr s) (fst (sqlite3_reset (_ptr s) (state w)))];
      guards := guards w |}).
Proof.
  unfold Statement.reset, reset_call, and_then. rewrite effect_run.
  cbn [fst snd]. now destruct (_ =? _).
Qed.

Lemma execute_run (s : statement) (w : world) :
  Statement.execute s w =
  let step := sqlite3_step (_ptr s) (state w) in
  let after_step :=
    {| state := snd step; calls := calls w ++ [ev_step (_ptr s) (fst step)];
       guards := guards w |} in
  if negb (fst step =? SQLITE_DONE) && negb (fst step =? SQLITE_ROW)
  then (Throws (error (fst step)), after_step)
  else Statement.reset s after_step.
Proof.
  unfold Statement.execute, step_call, and_then. rewrite effect_run.
  cbn [fst snd]. now destruct (negb _ && negb _).
Qed.

(** C2, as amended: [execute()] throws the step status, without a
    reset, when the step result is neither row nor done; when it is row
    or done the next engine call is the reset of the same statement, and
    the call returns exactly when that reset reports [SQLITE_OK] (else it
    throws the status of the reset).  [execute(args...)] first binds:
    what the binding throws leaves the call before any step, and after a
    binding that returned it goes on as [execute()]. *)
Theorem execute_raises_on_bind_step_or_reset (s : statement) (w : world) :
  let step := sqlite3_step (_ptr s) (state w) in
  let reset := sqlite3_reset (_ptr s) (snd step) in
  let out := Statement.execute s w in
  (fst step <> SQLITE_ROW /\ fst step <> SQLITE_DONE ->
     fst out = Throws (error (fst step)) /\
     new_calls w (snd out) = [ev_step (_ptr s) (fst step)]) /\
  (fst step = SQLITE_ROW \/ fst step = SQLITE_DONE ->
     new_calls w (snd out) =
       [ev_step (_ptr s) (fst step); ev_reset (_ptr s) (fst reset)] /\
     (fst reset = SQLITE_OK -> fst out = Returns tt) /\
     (fst reset <> SQLITE_OK -> fst out = Throws (error (fst reset)))) /\
  (raises (fst out) = true <->
     (fst step <> SQLITE_ROW /\ fst step <> SQLITE_DONE) \/
     ((fst step = SQLITE_ROW \/ fst step = SQLITE_DONE) /\
      fst reset <> SQLITE_OK)) /\
  (forall args,
     match Statement.bind s args, Statement.execute_args s args with
     | Some bind_args, Some m =>
         m w = match bind_args w with
               | (Returns _, w1) => Statement.execute s w1
               | (Throws e, w1) => (Throws e, w1)
               | (Undefined, w1) => (Undefined, w1)
               end
     | None, None => True
     | _, _ => False
     end).
Proof.
  cbv zeta. rewrite execute_run. cbv zeta.
  destruct (sqlite3_step (_ptr s) (state w)) as [ret e1]. cbn [fst snd].
  assert (Hbad : negb (ret =? SQLITE_DONE) && negb (ret =? SQLITE_ROW) = true <->
                 ret <> SQLITE_ROW /\ ret <> SQLITE_DONE).
  { rewrite andb_true_iff, !negb_true_iff, !Z.eqb_neq. tauto. }
  destruct (negb (ret =? SQLITE_DONE) && negb (ret =? SQLITE_ROW)) eqn:Hcase.
  - pose proof (proj1 Hbad eq_refl) as [Hrow Hdone]. cbn [fst snd].
    rewrite new_calls_app.
    split; [auto|]. split; [intros [?|?]; contradiction|].
    split; [cbn; tauto|].
    intros args. unfold Statement.execute_args.
    destruct (Statement.bind s args) as [bind_args|]; cbn [option_map]; [|exact I].
    unfold and_then at 1. destruct (bind_args w) as [[[]|e|] w1]; reflexivity.
  - assert (Hgood : ret = SQLITE_ROW \/ ret = SQLITE_DONE).
    { destruct (Z.eq_dec ret SQLITE_ROW) as [|Hrow]; auto.
      destruct (Z.eq_dec ret SQLITE_DONE) as [|Hdone]; auto.
      pose proof (proj2 Hbad (conj Hrow Hdone)). discriminate. }
    rewrite reset_run. cbn [fst snd state calls guards].
    destruct (sqlite3_reset (_ptr s) e1) as [ret' e2]. cbn [fst snd].
    split; [intros [? ?]; destruct Hgood; contradiction|].
    split.
    { intros _. split.
      - unfold new_calls. cbn [calls]. rewrite <- app_assoc.
        apply skipn_length_app.
      - split; intros H.
        + rewrite H. reflexivity.
        + apply Z.eqb_neq in H. now rewrite H. }
    split.
    { destruct (Z.eqb_spec ret' SQLITE_OK) as [Hok|Hko]; cbn [raises]; split.
      - discriminate.
      - intros [[? ?]|[_ ?]]; [destruct Hgood|]; contradiction.
      - intros _. right. auto.
      - reflexivity. }
    intros args. unfold Statement.execute_args.
    destruct (Statement.bind s args) as [bind_args|]; cbn [option_map]; [|exact I].
    unfold and_then at 1. destruct (bind_args w) as [[[]|e|] w1]; try reflexivity.
Qed.

(** ** Transaction guards *)
















Lemma finish_run (field : transaction -> statement) (this : nat) (w : world) :
  let m :=
    t <- Transaction.load this ;;
    if needs_rollback t then
      Statement.execute (field t) ;;;
      Transaction.assign_needs_rollback this false
    else pure tt in
  m w =
  if needs_rollback (guards w this) then
    match Statement.execute (field (guards w this)) w with
    | (Returns _, w1) =>
        (Returns tt,
         {| state := state w1; calls := calls w1;
            guards := fun a =>
              if Nat.eqb a this
              then Transaction.set_needs_rollback false (guards w1 this)
              else guards w1 a |})
    | (Throws e, w1) => (Throws e, w1)
    | (Undefined, w1) => (Undefined, w1)
    end
  else (Returns tt, w).
Proof.
  cbv zeta. unfold and_then, Transaction.load. cbn beta iota.
  destruct (needs_rollback (guards w this)); [|reflexivity].
  destruct (Statement.execute (field (guards w this)) w) as [[[]|e|] w1];
    reflexivity.
Qed.








(** ** Moving a guard *)








(** ** Iterating over the rows *)

Lemma ptr_eqb_refl (p : sqlite3_stmt_ptr) : ptr_eqb p p = true.
Proof. destruct p; cbn; auto using Nat.eqb_refl. Qed.

Lemma advance_run (it : Iterator.statement_iterator) (w : world) :
  Iterator.ret it <> SQLITE_DONE ->
  Iterator.advance it w =
  let st := sqlite3_step (Iterator.data it) (state w) in
  let w' := {| state := snd st;
               calls := calls w ++ [ev_step (Iterator.data it) (fst st)];
               guards := guards w |} in
  if negb (fst st =? SQLITE_ROW) && negb (fst st =? SQLITE_DONE)
  then (Throws (error (fst st)), w')
  else (Returns {| Iterator._current_column := Iterator._current_column it;
                   Iterator.ret := fst st |}, w').
Proof.
  intros Hret. unfold Iterator.advance.
  apply Z.eqb_neq in Hret. rewrite Hret. cbn [negb].
  unfold and_then, step_call. rewrite effect_run. cbn [fst snd].
  cbv zeta. now destruct (negb _ && negb _).
Qed.

Lemma neq_end (it : Iterator.statement_iterator) :
  Iterator.neq it (Iterator.from_end_tag (Iterator.data it)) =
  negb (Iterator.ret it =? SQLITE_DONE).
Proof.
  unfold Iterator.neq, Iterator.eq, Iterator.from_end_tag, Iterator.data,
    Column.data. cbn. now rewrite ptr_eqb_refl.
Qed.

Section Loop.
Variable R : Type.
Variable read : Column.column -> engine -> R.
Variable p : sqlite3_stmt_ptr.

Lemma rows_from_step (e : engine) (m : nat) :
  rows_from read p e (S m) =
  read {| Column.ptr := p |} e :: rows_from read p (snd (sqlite3_step p e)) m.
Proof.
  unfold rows_from. cbn [seq map stepped]. f_equal. f_equal.
  rewrite <- seq_shift, map_map. reflexivity.
Qed.

(** Entered on a row, with the statuses ahead being [m] rows and then
    [c], the loop reads [m + 1] rows and ends as [c] tells, after
    [m + 1] steps; [m + 2] iterations of fuel are enough. *)
Lemma loop_reads_rows (m : nat) :
  forall (fuel : nat) (it : Iterator.statement_iterator) (w : world)
         (rows : list R) (c : Z),
    Iterator.data it = p -> Iterator.ret it = SQLITE_ROW ->
    (forall k, (k < m)%nat -> status_at p k (state w) = SQLITE_ROW) ->
    status_at p m (state w) = c -> c <> SQLITE_ROW ->
    (m + 2 <= fuel)%nat ->
    Range.range_for_loop read fuel it (Iterator.from_end_tag p) rows w =
    Some ((rows ++ rows_from read p (state w) m, ending c),
          {| state := stepped p (S m) (state w);
             calls := calls w ++ repeat (ev_step p SQLITE_ROW) m ++ [ev_step p c];
             guards := guards w |}).
Proof.
  induction m as [|m IH]; intros fuel it w rows c Hp Hrow Hrows Hc Hnot Hfuel.
  - destruct fuel as [|[|fuel]]; try lia.
    cbn [Range.range_for_loop]. rewrite <- Hp at 1. rewrite neq_end, Hrow.
    cbn [Z.eqb negb SQLITE_ROW SQLITE_DONE Pos.eqb].
    unfold Iterator.increment. rewrite advance_run by (rewrite Hrow; discriminate).
    cbv zeta. rewrite Hp. unfold status_at in Hc. cbn [stepped] in Hc. rewrite Hc.
    apply Z.eqb_neq in Hnot. rewrite Hnot. cbn [negb andb].
    unfold rows_from, Iterator.deref. cbn [seq map stepped repeat app].
    replace (Iterator._current_column it) with {| Column.ptr := p |}
      by (destruct it as [[q] r]; cbn in Hp; now subst).
    unfold ending. destruct (c =? SQLITE_DONE) eqn:Hdone.
    + cbn [negb].
      unfold Iterator.neq, Iterator.eq, Iterator.data, Column.data.
      cbn [Iterator._current_column Iterator.ret Iterator.from_end_tag Column.ptr].
      rewrite ptr_eqb_refl, Hdone. reflexivity.
    + cbn [negb]. reflexivity.
  - destruct fuel as [|fuel]; try lia.
    cbn [Range.range_for_loop]. rewrite <- Hp at 1. rewrite neq_end, Hrow.
    cbn [Z.eqb negb SQLITE_ROW SQLITE_DONE Pos.eqb].
    unfold Iterator.increment. rewrite advance_run by (rewrite Hrow; discriminate).
    cbv zeta. rewrite Hp.
    pose proof (Hrows 0%nat ltac:(lia)) as H0.
    unfold status_at in H0. cbn [stepped] in H0. rewrite H0.
    cbn [Z.eqb negb andb SQLITE_ROW SQLITE_DONE Pos.eqb].
    rewrite IH with (c := c); cbn [state calls guards Iterator.data
      Iterator._current_column Iterator.ret]; auto; try lia.
    + rewrite rows_from_step, <- app_assoc. unfold Iterator.deref.
      cbn [app repeat].
      replace (Iterator._current_column it) with {| Column.ptr := p |}
        by (destruct it as [[q] r]; cbn in Hp; now subst).
      rewrite <- !app_assoc. reflexivity.
    + intros k Hk. apply (Hrows (S k)). lia.
Qed.

(** Conversely, a loop that ends has met such statuses. *)
Lemma loop_ends (fuel : nat) :
  forall (it : Iterator.statement_iterator) (w : world) (rows : list R) x w1,
    Iterator.data it = p -> Iterator.ret it = SQLITE_ROW ->
    Range.range_for_loop read fuel it (Iterator.from_end_tag p) rows w =
      Some (x, w1) ->
    exists m c,
      (forall k, (k < m)%nat -> status_at p k (state w) = SQLITE_ROW) /\
      status_at p m (state w) = c /\ c <> SQLITE_ROW /\
      x = (rows ++ rows_from read p (state w) m, ending c) /\
      w1 = {| state := stepped p (S m) (state w);
              calls := calls w ++ repeat (ev_step p SQLITE_ROW) m ++ [ev_step p c];
              guards := guards w |}.
Proof.
  induction fuel as [|fuel IH]; intros it w rows x w1 Hp Hrow Hrun;
    [discriminate|].
  destruct (Z.eq_dec (fst (sqlite3_step p (state w))) SQLITE_ROW) as [Hst|Hst].
  - (* another row: the loop goes on *)
    cbn [Range.range_for_loop] in Hrun. rewrite <- Hp in Hrun at 1.
    rewrite neq_end, Hrow in Hrun.
    cbn [Z.eqb negb SQLITE_ROW SQLITE_DONE Pos.eqb] in Hrun.
    unfold Iterator.increment in Hrun.
    rewrite advance_run in Hrun by (rewrite Hrow; discriminate).
    cbv zeta in Hrun. rewrite Hp, Hst in Hrun.
    cbn [Z.eqb negb andb SQLITE_ROW SQLITE_DONE Pos.eqb] in Hrun.
    apply IH in Hrun; [|exact Hp|reflexivity].
    destruct Hrun as (m & c & Hrows & Hc & Hnot & -> & ->).
    cbn [state calls guards] in *.
    exists (S m), c. split; [|split; [exact Hc|split; [exact Hnot|split]]].
    + intros [|k] Hk; [exact Hst|]. apply Hrows. lia.
    + rewrite rows_from_step, <- app_assoc. unfold Iterator.deref.
      replace (Iterator._current_column it) with {| Column.ptr := p |}
        by (destruct it as [[q] r]; cbn in Hp; now subst).
      reflexivity.
    + cbn [repeat app]. now rewrite <- !app_assoc.
  - (* the last step *)
    exists 0%nat, (fst (sqlite3_step p (state w))).
    split; [intros k Hk; lia|]. split; [reflexivity|]. split; [exact Hst|].
    destruct fuel as [|fuel].
    + cbn [Range.range_for_loop] in Hrun. rewrite <- Hp in Hrun at 1.
      rewrite neq_end, Hrow in Hrun.
      cbn [Z.eqb negb SQLITE_ROW SQLITE_DONE Pos.eqb] in Hrun.
      unfold Iterator.increment in Hrun.
      rewrite advance_run in Hrun by (rewrite Hrow; discriminate).
      cbv zeta in Hrun. rewrite Hp in Hrun.
      apply Z.eqb_neq in Hst. rewrite Hst in Hrun. cbn [negb andb] in Hrun.
      unfold ending.
      destruct (fst (sqlite3_step p (state w)) =? SQLITE_DONE); [discriminate|].
      cbn [negb] in Hrun. injection Hrun as <- <-.
      unfold rows_from, Iterator.deref. cbn [seq map stepped repeat app].
      replace (Iterator._current_column it) with {| Column.ptr := p |}
        by (destruct it as [[q] r]; cbn in Hp; now subst).
      split; reflexivity.
    + rewrite (loop_reads_rows 0 (S (S fuel)) it w rows
                 (fst (sqlite3_step p (state w)))) in Hrun; auto; try lia.
      injection Hrun as <- <-. split; reflexivity.
Qed.

Lemma stepped_succ (n : nat) (e : engine) :
  stepped p (S n) e = snd (sqlite3_step p (stepped p n e)).
Proof. revert e. induction n as [|n IH]; intros e; [reflexivity|apply IH]. Qed.

Lemma rows_from_read (e : engine) (m : nat) :
  rows_from read p (snd (sqlite3_step p e)) m = rows_read read p e (S m).
Proof. reflexivity. Qed.

Lemma begin_run (w : world) :
  let rs := sqlite3_reset p (state w) in
  let st := sqlite3_step p (snd rs) in
  let w1 := {| state := snd rs; calls := calls w ++ [ev_reset p (fst rs)];
               guards := guards w |} in
  let w2 := {| state := snd st;
               calls := calls w ++ [ev_reset p (fst rs); ev_step p (fst st)];
               guards := guards w |} in
  Range.begin {| Range._ptr := p |} w =
  if negb (fst rs =? SQLITE_OK) then (Throws (error (fst rs)), w1)
  else if negb (fst st =? SQLITE_ROW) && negb (fst st =? SQLITE_DONE)
       then (Throws (error (fst st)), w2)
       else (Returns {| Iterator._current_column := {| Column.ptr := p |};
                        Iterator.ret := fst st |}, w2).
Proof.
  cbv zeta. unfold Range.begin, Range.reset, reset_call.
  unfold and_then at 1 2. rewrite effect_run. cbn [fst snd Range._ptr].
  destruct (negb (fst (sqlite3_reset p (state w)) =? SQLITE_OK)); [reflexivity|].
  cbn [pure]. unfold Iterator.from_statement.
  rewrite advance_run by (cbn; discriminate).
  cbv zeta. cbn [state calls guards Iterator.data Iterator._current_column
                 Column.data Column.ptr].
  rewrite <- app_assoc. cbn [app]. reflexivity.
Qed.

(** An iteration that resets with success and meets [n] rows and then
    [c] reads those rows and ends as [c] tells; [n + 1] iterations of
    fuel are enough. *)
Lemma range_for_total (w : world) (n : nat) (c : Z) (fuel : nat) :
  fst (sqlite3_reset p (state w)) = SQLITE_OK ->
  meets p w n c -> (n < fuel)%nat ->
  Range.range_for read fuel {| Range._ptr := p |} w =
  Some ((rows_read read p (snd (sqlite3_reset p (state w))) n, ending c),
        iterated p w n c).
Proof.
  intros Hok (Hrows & Hc & Hnot) Hfuel.
  unfold Range.range_for. rewrite begin_run. cbv zeta. rewrite Hok.
  cbn [Z.eqb negb SQLITE_OK]. unfold Range.end_. cbn [Range._ptr].
  destruct n as [|n].
  - unfold status_at in Hc. cbn [stepped] in Hc. rewrite Hc.
    apply Z.eqb_neq in Hnot. rewrite Hnot. cbn [negb andb].
    unfold ending, iterated. cbn [repeat app stepped rows_read seq map].
    destruct (c =? SQLITE_DONE) eqn:Hdone; cbn [negb].
    + destruct fuel as [|fuel]; [lia|]. cbn [Range.range_for_loop].
      unfold Iterator.neq, Iterator.eq, Iterator.from_end_tag, Iterator.data,
        Column.data.
      cbn [Iterator._current_column Iterator.ret Column.ptr].
      rewrite ptr_eqb_refl, Hdone. cbn [andb negb].
      reflexivity.
    + reflexivity.
  - pose proof (Hrows 0%nat ltac:(lia)) as H0.
    unfold status_at in H0. cbn [stepped] in H0. rewrite H0.
    cbn [Z.eqb negb andb SQLITE_ROW SQLITE_DONE Pos.eqb].
    rewrite (loop_reads_rows n fuel _ _ [] c); cbn [state calls guards]; auto;
      try lia.
    + unfold iterated. rewrite rows_from_read. cbn [app repeat].
      rewrite <- ?app_assoc. reflexivity.
    + intros k Hk. apply (Hrows (S k)). lia.
Qed.

(** Conversely, an iteration that ends either failed to reset, or
    reset with success and met some rows and then another status. *)
Lemma range_for_shape (w : world) (fuel : nat) x w1 :
  Range.range_for read fuel {| Range._ptr := p |} w = Some (x, w1) ->
  let rs := sqlite3_reset p (state w) in
  (fst rs <> SQLITE_OK /\ x = ([], Throws (error (fst rs))) /\
   w1 = {| state := snd rs; calls := calls w ++ [ev_reset p (fst rs)];
           guards := guards w |}) \/
  (fst rs = SQLITE_OK /\
   exists n c, meets p w n c /\
               x = (rows_read read p (snd rs) n, ending c) /\
               w1 = iterated p w n c).
Proof.
  cbv zeta. unfold Range.range_for. rewrite begin_run. cbv zeta.
  destruct (Z.eqb_spec (fst (sqlite3_reset p (state w))) SQLITE_OK) as [Hok|Hko];
    cbn [negb].
  2:{ intros Hrun. injection Hrun as <- <-. left. auto. }
  intros Hrun. right. split; [exact Hok|].
  rewrite ?Hok in Hrun.
  set (e1 := snd (sqlite3_reset p (state w))) in *.
  destruct (Z.eq_dec (fst (sqlite3_step p e1)) SQLITE_ROW) as [Hst|Hst].
  - rewrite Hst in Hrun.
    cbn [Z.eqb negb andb SQLITE_ROW SQLITE_DONE Pos.eqb] in Hrun.
    unfold Range.end_ in Hrun. cbn [Range._ptr] in Hrun.
    apply loop_ends in Hrun; [|reflexivity|reflexivity].
    destruct Hrun as (m & c & Hrows & Hc & Hnot & -> & ->).
    cbn [state calls guards app] in *.
    exists (S m), c. split; [|split].
    + split; [|split; [exact Hc|exact Hnot]].
      intros [|k] Hk; [exact Hst|]. apply Hrows. lia.
    + reflexivity.
    + unfold iterated. fold e1. rewrite ?Hok. cbn [repeat app].
      rewrite <- ?app_assoc. reflexivity.
  - exists 0%nat, (fst (sqlite3_step p e1)).
    split; [split; [intros k Hk; lia|split; [reflexivity|exact Hst]]|].
    apply Z.eqb_neq in Hst. rewrite Hst in Hrun. cbn [negb andb] in Hrun.
    unfold ending, iterated. fold e1. rewrite ?Hok.
    cbn [rows_read seq map repeat app stepped].
    destruct (fst (sqlite3_step p e1) =? SQLITE_DONE) eqn:Hdone; cbn [negb] in Hrun.
    + destruct fuel as [|fuel]; [discriminate|].
      cbn [Range.range_for_loop] in Hrun.
      unfold Range.end_, Iterator.neq, Iterator.eq, Iterator.from_end_tag,
        Iterator.data, Column.data in Hrun.
      cbn [Iterator._current_column Iterator.ret Column.ptr Range._ptr] in Hrun.
      rewrite ptr_eqb_refl, Hdone in Hrun. cbn [andb negb] in Hrun.
      injection Hrun as <- <-. split; reflexivity.
    + injection Hrun as <- <-. split; reflexivity.
Qed.

(** The loop looks at the world through the engine only. *)
Lemma advance_alike (it : Iterator.statement_iterator) (w w' : world) :
  state w = state w' ->
  alike w w' (Some (Iterator.advance it w)) (Some (Iterator.advance it w')).
Proof.
  intros Hstate. unfold Iterator.advance.
  destruct (negb (Iterator.ret it =? SQLITE_DONE)).
  - unfold and_then, step_call. rewrite !effect_run. cbn [fst snd].
    rewrite <- Hstate.
    destruct (negb _ && negb _); cbn; (split; [reflexivity|]);
      (split; [reflexivity|]); eexists; split; reflexivity.
  - cbn. split; [reflexivity|]. split; [exact Hstate|].
    exists []. now rewrite !app_nil_r.
Qed.

Lemma loop_alike (fuel : nat) :
  forall (it last : Iterator.statement_iterator) (rows : list R) (w w' : world),
    state w = state w' ->
    forall l0 w0 w0',
      calls w = calls w0 ++ l0 -> calls w' = calls w0' ++ l0 ->
      alike w0 w0' (Range.range_for_loop read fuel it last rows w)
                   (Range.range_for_loop read fuel it last rows w').
Proof.
  induction fuel as [|fuel IH];
    intros it last rows w w' Hstate l0 w0 w0' Hl Hl'; [exact I|].
  cbn [Range.range_for_loop].
  destruct (Iterator.neq it last).
  - unfold Iterator.increment.
    pose proof (advance_alike it w w' Hstate) as Hadv. unfold alike in Hadv.
    rewrite <- Hstate.
    destruct (Iterator.advance it w) as [r w1],
             (Iterator.advance it w') as [r' w1'].
    destruct Hadv as (<- & Hstate1 & l & Hc & Hc').
    assert (Hl1 : calls w1 = calls w0 ++ (l0 ++ l))
      by (now rewrite Hc, Hl, app_assoc).
    assert (Hl1' : calls w1' = calls w0' ++ (l0 ++ l))
      by (now rewrite Hc', Hl', app_assoc).
    destruct r as [it'|e|].
    + now apply (IH it' last _ w1 w1' Hstate1 (l0 ++ l)).
    + cbn. eauto.
    + cbn. eauto.
  - cbn. eauto.
Qed.

Lemma range_for_alike (fuel : nat) (w w' : world) :
  sqlite3_reset p (state w) = sqlite3_reset p (state w') ->
  alike w w' (Range.range_for read fuel {| Range._ptr := p |} w)
             (Range.range_for read fuel {| Range._ptr := p |} w').
Proof.
  intros Hreset. unfold Range.range_for. rewrite !begin_run. cbv zeta.
  rewrite <- Hreset.
  destruct (negb (fst (sqlite3_reset p (state w)) =? SQLITE_OK)).
  - cbn. repeat split. eexists; split; reflexivity.
  - destruct (negb _ && negb _).
    + cbn. repeat split. eexists; split; reflexivity.
    + apply loop_alike with
        (l0 := [ev_reset p (fst (sqlite3_reset p (state w)));
                ev_step p (fst (sqlite3_step p (snd (sqlite3_reset p (state w)))))]);
        reflexivity.
Qed.

Lemma reset_stepped (j : nat) (e : engine) :
  rewinds p -> sqlite3_reset p (stepped p j e) = sqlite3_reset p e.
Proof.
  intros Hrew. revert e. induction j as [|j IH]; intros e; [reflexivity|].
  cbn [stepped]. rewrite IH. apply Hrew.
Qed.

Lemma rows_read_length (e : engine) (n : nat) :
  List.length (rows_read read p e n) = n.
Proof. unfold rows_read. now rewrite length_map, length_seq. Qed.

End Loop.

(** C5, as amended: an iteration over [fetch()] that resets with
    success and meets [n] rows and then a status [c] other than row
    ends after those [n + 1] steps, having read the [n] rows: normally
    when [c] is done, by throwing [c] when it is anything else, the
    failing step being the last call made; [n + 1] loop iterations are
    the most it takes.  Conversely an iteration that ends normally has
    met done right after the rows it read, and one that ends by an
    exception threw the status of a failed reset before any row, or the
    status, neither row nor done, that followed the rows it read. *)
Theorem iteration_ends_at_first_status_other_than_row
  {R : Type} (read : Column.column -> engine -> R) (s : statement) (w : world) :
  (forall n c fuel,
     fst (sqlite3_reset (_ptr s) (state w)) = SQLITE_OK ->
     meets (_ptr s) w n c -> (n < fuel)%nat ->
     Range.range_for read fuel (Statement.fetch s) w =
     Some ((rows_read read (_ptr s) (snd (sqlite3_reset (_ptr s) (state w))) n,
            ending c),
           iterated (_ptr s) w n c)) /\
  (forall fuel rows w1,
     Range.range_for read fuel (Statement.fetch s) w =
       Some ((rows, Returns tt), w1) ->
     fst (sqlite3_reset (_ptr s) (state w)) = SQLITE_OK /\
     meets (_ptr s) w (List.length rows) SQLITE_DONE /\
     w1 = iterated (_ptr s) w (List.length rows) SQLITE_DONE) /\
  (forall fuel rows e w1,
     Range.range_for read fuel (Statement.fetch s) w =
       Some ((rows, Throws e), w1) ->
     (fst (sqlite3_reset (_ptr s) (state w)) <> SQLITE_OK /\
      e = error (fst (sqlite3_reset (_ptr s) (state w))) /\ rows = [] /\
      new_calls w w1 =
        [ev_reset (_ptr s) (fst (sqlite3_reset (_ptr s) (state w)))]) \/
     (exists c,
        fst (sqlite3_reset (_ptr s) (state w)) = SQLITE_OK /\
        meets (_ptr s) w (List.length rows) c /\ c <> SQLITE_DONE /\
        e = error c /\ w1 = iterated (_ptr s) w (List.length rows) c)).
Proof.
  unfold Statement.fetch. split; [|split].
  - intros n c fuel Hok Hmeets Hfuel. now apply range_for_total.
  - intros fuel rows w1 Hrun.
    apply range_for_shape in Hrun. cbv zeta in Hrun.
    destruct Hrun as [(_ & Hx & _)|(Hok & n & c & Hmeets & Hx & ->)];
      [discriminate|].
    injection Hx as -> Hend. rewrite rows_read_length.
    unfold ending in Hend.
    destruct (Z.eqb_spec c SQLITE_DONE) as [->|]; [auto|discriminate].
  - intros fuel rows e w1 Hrun.
    apply range_for_shape in Hrun. cbv zeta in Hrun.
    destruct Hrun as [(Hko & Hx & ->)|(Hok & n & c & Hmeets & Hx & ->)].
    + left. injection Hx as -> ->. rewrite new_calls_app. auto.
    + right. injection Hx as -> Hend. rewrite rows_read_length.
      unfold ending in Hend.
      destruct (Z.eqb_spec c SQLITE_DONE) as [->|Hnd]; [discriminate|].
      injection Hend as Hend. subst e. exists c. auto.
Qed.

(** C4, as amended: an iteration over [fetch()] that ended began with a
    reset of the statement.  A second iteration ends the same way, with
    the same rows, after the same calls, whenever the reset it begins
    with reports the status and leaves the engine in the state that the
    reset of the first iteration did, as is the case on an engine that
    rewinds the statement whatever steps were taken.  When that reset
    reports a status other than [SQLITE_OK], the second iteration
    throws the status after that one call, and yields no row. *)
Theorem fetch_twice_yields_same_rows
  {R : Type} (read : Column.column -> engine -> R) (s : statement) (fuel : nat)
  (w w1 : world) (rows : list R) (out : outcome unit) :
  Range.range_for read fuel (Statement.fetch s) w = Some ((rows, out), w1) ->
  (exists ret others, new_calls w w1 = ev_reset (_ptr s) ret :: others) /\
  (sqlite3_reset (_ptr s) (state w1) = sqlite3_reset (_ptr s) (state w) ->
   exists w2,
     Range.range_for read fuel (Statement.fetch s) w1 = Some ((rows, out), w2) /\
     new_calls w1 w2 = new_calls w w1) /\
  (rewinds (_ptr s) ->
     sqlite3_reset (_ptr s) (state w1) = sqlite3_reset (_ptr s) (state w)) /\
  (fst (sqlite3_reset (_ptr s) (state w1)) <> SQLITE_OK ->
     Range.range_for read fuel (Statement.fetch s) w1 =
       Some (([], Throws (error (fst (sqlite3_reset (_ptr s) (state w1))))),
             {| state := snd (sqlite3_reset (_ptr s) (state w1));
                calls := calls w1 ++
                         [ev_reset (_ptr s) (fst (sqlite3_reset (_ptr s) (state w1)))];
                guards := guards w1 |})).
Proof.
  unfold Statement.fetch. intros Hrun.
  pose proof (range_for_shape _ read _ _ _ _ _ Hrun) as Hshape. cbv zeta in Hshape.
  split; [|split; [|split]].
  - destruct Hshape as [(_ & _ & Hw)|(_ & n & c & _ & _ & Hw)];
      rewrite Hw; unfold iterated; rewrite new_calls_app; eauto.
  - intros Hreset.
    pose proof (range_for_alike _ read (_ptr s) fuel w1 w Hreset) as Halike.
    rewrite Hrun in Halike. unfold alike in Halike.
    destruct (Range.range_for read fuel {| Range._ptr := _ptr s |} w1)
      as [[x w2]|]; [|contradiction].
    destruct Halike as (-> & _ & l & Hc2 & Hc1).
    exists w2. split; [reflexivity|].
    unfold new_calls. rewrite Hc2, skipn_length_app, Hc1, skipn_length_app.
    reflexivity.
  - intros Hrew.
    destruct Hshape as [(_ & _ & ->)|(_ & n & c & _ & _ & ->)]; cbn [state iterated].
    + apply Hrew.
    + rewrite reset_stepped by exact Hrew. apply Hrew.
  - intros Hko. unfold Range.range_for. rewrite begin_run. cbv zeta.
    apply Z.eqb_neq in Hko. rewrite Hko. reflexivity.
Qed.

(** ** Round trips *)

Lemma wrap_in_range (bits v : Z) : 0 < bits -> in_range bits v -> wrap bits v = v.
Proof.
  unfold in_range, wrap. intros Hbits Hv.
  assert (Hpow : 2 ^ bits = 2 * 2 ^ (bits - 1)).
  { replace bits with (Z.succ (bits - 1)) at 1 by lia.
    apply Z.pow_succ_r. lia. }
  rewrite Z.mod_small by lia. lia.
Qed.

Lemma narrow_fits_int (I : integer_type) (v : Z) :
  sizeof (ty_integer I) < 8 -> representable I v -> in_range 32 v.
Proof.
  unfold representable, in_range.
  destruct I; cbn [sizeof]; try destruct model; cbn; lia.
Qed.

Lemma wide_fits_int64 (I : integer_type) (v : Z) :
  representable I v -> in_range 64 v.
Proof.
  unfold representable, in_range.
  destruct I; cbn [sizeof]; try destruct model; cbn; lia.
Qed.

Lemma integer_cast_representable (I : integer_type) (v : Z) :
  representable I v -> Meta.integer_cast (ty_integer I) v = v.
Proof.
  unfold Meta.integer_cast.
  destruct I; cbn [representable]; intros Hv;
    try (apply wrap_in_range; [cbn [sizeof]; try destruct model; lia|exact Hv]).
  destruct (Z.eqb_spec v 0); lia.
Qed.

(** The bind, the start of the iteration and the extraction of a
    round trip, when the engine gives back what it was given. *)
Lemma round_trip_run {V A B : Type}
  (bind_ : sqlite3_stmt_ptr -> Z -> A -> engine -> Z * engine)
  (column_ : sqlite3_stmt_ptr -> Z -> engine -> A)
  (bind_ev : sqlite3_stmt_ptr -> Z -> A -> Z -> event)
  (column_ev : sqlite3_stmt_ptr -> Z -> event)
  (into : V -> A) (cast : A -> B) (s : statement) (index col : Z) (x : V)
  (w : world) :
  echoes bind_ column_ (_ptr s) index col (into x) (state w) ->
  fst ((Statement.bind_to_with
          (fun p i v => effect (bind_ p i (into v)) (bind_ev p i (into v)))
          s index x ;;;
        it <- Range.begin (Statement.fetch s) ;;
        (v <- query (column_ (Column.data (Iterator.deref it)) col)
                    (column_ev (Column.data (Iterator.deref it)) col) ;;
         pure (cast v))) w) = Returns (cast (into x)).
Proof.
  unfold echoes. cbv zeta. intros (Hb & Hr & Hs & Hc).
  unfold Statement.bind_to_with. unfold and_then at 1 2.
  rewrite effect_run. cbn [fst snd]. rewrite Hb.
  cbn [Z.eqb negb SQLITE_OK pure].
  unfold and_then at 1. unfold Statement.fetch. rewrite begin_run. cbv zeta.
  cbn [state calls guards]. rewrite Hr, Hs.
  cbn [Z.eqb negb andb SQLITE_OK SQLITE_ROW SQLITE_DONE Pos.eqb].
  unfold and_then, query, pure, Iterator.deref, Column.data.
  cbn [fst snd state Iterator._current_column Column.ptr]. now rewrite Hc.
Qed.

(** C9: a value of an integer type narrower than 8 bytes comes back
    equal from a round trip through a statement for which the engine
    gives back by [sqlite3_column_int] what [sqlite3_bind_int] was given;
    a value of an 8-byte integer type, through one for which
    [sqlite3_column_int64] gives back what [sqlite3_bind_int64] was
    given; a [double], and a [float] (whose conversion to [double] and
    back is exact), through one for which [sqlite3_column_double] gives
    back what [sqlite3_bind_double] was given. *)
Theorem scalar_round_trip (s : statement) (index col : Z) (w : world) :
  (forall I value,
     sizeof (ty_integer I) < 8 ->
     representable I value ->
     echoes sqlite3_bind_int sqlite3_column_int (_ptr s) index col value
            (state w) ->
     exists m,
       round_trip (ty_integer I) s index col value = Some m /\
       fst (m w) = Returns value) /\
  (forall I value,
     sizeof (ty_integer I) = 8 ->
     representable I value ->
     echoes sqlite3_bind_int64 sqlite3_column_int64 (_ptr s) index col value
            (state w) ->
     exists m,
       round_trip (ty_integer I) s index col value = Some m /\
       fst (m w) = Returns value) /\
  (forall d : double,
     echoes sqlite3_bind_double sqlite3_column_double (_ptr s) index col d
            (state w) ->
     exists m,
       round_trip ty_double s index col d = Some m /\ fst (m w) = Returns d) /\
  (forall f : float,
     double_to_float (float_to_double f) = f ->
     echoes sqlite3_bind_double sqlite3_column_double (_ptr s) index col
            (float_to_double f) (state w) ->
     exists m,
       round_trip ty_float s index col f = Some m /\ fst (m w) = Returns f).
Proof.
  assert (Hinteger : forall I value,
            exists m,
              round_trip (ty_integer I) s index col value = Some m /\
              m = (Statement.bind_to_with
                     (Meta.integer_bind (ty_integer I)) s index value ;;;
                   it <- Range.begin (Statement.fetch s) ;;
                   Meta.integer_convert (ty_integer I)
                     (Column.data (Iterator.deref it)) col)).
  { intros I value.
    assert (His : is_integer (ty_integer I) = true) by (destruct I; reflexivity).
    unfold round_trip, Statement.bind_to.
    cbn [Meta.bind_traits Meta.column_traits]. rewrite His. cbn [option_map].
    eexists. split; reflexivity. }
  split; [|split; [|split]].
  - intros I value Hnarrow Hrep Hecho.
    destruct (Hinteger I value) as (m & Hm & ->). eexists. split; [exact Hm|].
    unfold Meta.integer_bind, Meta.integer_convert, Meta.do_integer_bind,
      Meta.do_integer_convert.
    apply Z.ltb_lt in Hnarrow as Hlt. rewrite Hlt.
    pose proof (narrow_fits_int I value Hnarrow Hrep) as Hfits.
    unfold bind_int_call, column_int_call.
    etransitivity.
    + apply (round_trip_run sqlite3_bind_int sqlite3_column_int
               ev_bind_int ev_column_int (wrap 32)
               (Meta.integer_cast (ty_integer I))).
      rewrite (wrap_in_range 32 value) by (auto; lia). exact Hecho.
    + rewrite (wrap_in_range 32 value) by (auto; lia).
      f_equal. now apply integer_cast_representable.
  - intros I value Hwide Hrep Hecho.
    destruct (Hinteger I value) as (m & Hm & ->). eexists. split; [exact Hm|].
    unfold Meta.integer_bind, Meta.integer_convert, Meta.do_integer_bind,
      Meta.do_integer_convert.
    assert (Hge : (sizeof (ty_integer I) <? 8) = false) by (apply Z.ltb_ge; lia).
    rewrite Hge.
    pose proof (wide_fits_int64 I value Hrep) as Hfits.
    unfold bind_int64_call, column_int64_call.
    etransitivity.
    + apply (round_trip_run sqlite3_bind_int64 sqlite3_column_int64
               ev_bind_int64 ev_column_int64 (wrap 64)
               (Meta.integer_cast (ty_integer I))).
      rewrite (wrap_in_range 64 value) by (auto; lia). exact Hecho.
    + rewrite (wrap_in_range 64 value) by (auto; lia).
      f_equal. now apply integer_cast_representable.
  - intros d Hecho. unfold round_trip, Statement.bind_to.
    cbn [Meta.bind_traits Meta.column_traits option_map].
    eexists. split; [reflexivity|].
    pose proof (round_trip_run sqlite3_bind_double sqlite3_column_double
                  ev_bind_double ev_column_double
                  (fun x => x) (fun x => x) s index col d w Hecho) as H.
    rewrite <- H. unfold bind_double_call, column_double_call. reflexivity.
  - intros f Hexact Hecho. unfold round_trip, Statement.bind_to.
    cbn [Meta.bind_traits Meta.column_traits option_map].
    eexists. split; [reflexivity|].
    pose proof (round_trip_run sqlite3_bind_double sqlite3_column_double
                  ev_bind_double ev_column_double
                  float_to_double double_to_float s index col f w Hecho) as H.
    rewrite Hexact in H. rewrite <- H.
    unfold bind_double_call, column_double_call. reflexivity.
Qed.

End Properties.

(** * The properties on the small engine *)

Import Toy.

Lemma update_update {A} (n : nat) (f g : A -> A) (l : list A) :
  update n g (update n f l) = update n (fun x => g (f x)) l.
Proof.
  revert n. induction l as [|x l IH]; intros [|n]; cbn; auto. now rewrite IH.
Qed.

Lemma update_ext {A} (n : nat) (f g : A -> A) (l : list A) :
  (forall x, f x = g x) -> update n f l = update n g l.
Proof.
  intros Hfg. revert n. induction l as [|x l IH]; intros [|n]; cbn; auto.
  - now rewrite Hfg.
  - now rewrite IH.
Qed.

(** The small engine rewinds every statement. *)
Lemma toy_rewinds (p : sqlite3_stmt_ptr) : rewinds p.
Proof.
  intros e. cbn [sqlite3_reset sqlite3_step sqlite]. unfold reset, step, on_stmt.
  destruct p as [h|]; [|split; reflexivity].
  split.
  - destruct (nth_error (stmts e) h); [|reflexivity].
    cbn [snd change catalog stmts]. do 2 f_equal.
    rewrite update_update. now apply update_ext.
  - cbn [snd change catalog stmts]. do 2 f_equal.
    rewrite update_update. now apply update_ext.
Qed.

(** A statement of the unbounded query reports a row at every step. *)
Lemma counting_reports_rows (n : nat) :
  forall e : database,
    (exists s rest, stmts e = s :: rest /\ prog s = counting) ->
    status_at (Some 0%nat) n e = SQLITE_ROW.
Proof.
  unfold status_at.
  induction n as [|n IH]; intros e (s & rest & He & Hs).
  - cbn [stepped sqlite3_step sqlite]. unfold step, on_stmt.
    rewrite He. cbn [nth_error fst]. now rewrite Hs.
  - cbn [stepped]. apply IH.
    cbn [sqlite3_step sqlite]. unfold step, on_stmt.
    rewrite He. cbn [nth_error snd change stmts update].
    eexists _, rest. rewrite He. split; [reflexivity|exact Hs].
Qed.


(** The scope of C1: a guard that has committed and is then assigned an
    active guard is active again, and its rollback executes. *)
Lemma assigned_guard_completes_again :
  let w0 := snd (Transaction.construct 1 connection0 (in_transaction quiet)) in
  let first := Transaction.commit 0 w0 in
  let w1 := snd (Transaction.move_assign 0 1 (snd first)) in
  let second := Transaction.rollback 0 w1 in
  Transaction.completed (fst first, new_calls w0 (snd first)) = true /\
  needs_rollback (guards (snd first) 0%nat) = false /\
  needs_rollback (guards w1 0%nat) = true /\
  Transaction.completed (fst second, new_calls w1 (snd second)) = true.
Proof. repeat split. Qed.


(** C2, as stated, fails: [execute(42)] on a statement without
    parameters throws the status [SQLITE_RANGE] of the bind, and no
    step was made. *)
Lemma execute_raises_before_any_step :
  exists m,
    Statement.execute_args handle0 [argument_of ty_int 42] = Some m /\
    fst (m (prepared two_rows)) = Throws (error SQLITE_RANGE) /\
    new_calls (prepared two_rows) (snd (m (prepared two_rows))) =
      [ev_bind_int (Some 0%nat) 1 42 SQLITE_RANGE] /\
    ~ raises_exactly_on_bad_step m (Some 0%nat) (prepared two_rows).
Proof.
  eexists. split; [reflexivity|]. split; [reflexivity|]. split; [reflexivity|].
  unfold raises_exactly_on_bad_step. intros [Hraise _].
  destruct (Hraise eq_refl) as (ret & Hin & _).
  change (In (ev_step (Some 0%nat) ret)
             [ev_bind_int (Some 0%nat) 1 42 SQLITE_RANGE]) in Hin.
  destruct Hin as [Hin|[]]. discriminate.
Qed.

Lemma execute_raises_on_bind_step_or_reset_witness :
  new_calls (prepared two_rows) (snd (Statement.execute handle0 (prepared two_rows))) =
    [ev_step (Some 0%nat) SQLITE_ROW; ev_reset (Some 0%nat) SQLITE_OK] /\
  fst (Statement.execute handle0 (prepared two_rows)) = Returns tt.
Proof.
  destruct (execute_raises_on_bind_step_or_reset handle0 (prepared two_rows))
    as (_ & Hgood & _).
  destruct Hgood as (Hcalls & Hok & _); [left; reflexivity|].
  split; [exact Hcalls|apply Hok; reflexivity].
Defined.

(** C3, as stated, fails: of the three positional arguments of a call on
    a statement with one parameter, the first is bound, the binding of
    the second is refused and thrown, and the third is never bound. *)
Lemma refused_binding_leaves_the_rest_unbound :
  exists m,
    Statement.bind handle0
      [argument_of ty_int 7; argument_of ty_int 8; argument_of ty_int 9] = Some m /\
    fst (m (prepared (select_parameters [":a"%string]))) =
      Throws (error SQLITE_RANGE) /\
    new_calls (prepared (select_parameters [":a"%string]))
              (snd (m (prepared (select_parameters [":a"%string])))) =
      [ev_bind_int (Some 0%nat) 1 7 SQLITE_OK;
       ev_bind_int (Some 0%nat) 2 8 SQLITE_RANGE].
Proof. eexists. repeat split. Qed.

Lemma bind_named_or_positional_witness :
  (exists m,
     Statement.bind handle0
       (named_arguments [(":a"%string, argument_of ty_int 7);
                         (":zz"%string, argument_of ty_int 8)]) = Some m /\
     fst (m (prepared (select_parameters [":a"%string]))) = Returns tt /\
     new_calls (prepared (select_parameters [":a"%string]))
               (snd (m (prepared (select_parameters [":a"%string])))) =
       [ev_bind_parameter_index (Some 0%nat) ":a" 1;
        ev_bind_int (Some 0%nat) 1 7 SQLITE_OK;
        ev_bind_parameter_index (Some 0%nat) ":zz" 0]) /\
  (exists m,
     Statement.bind handle0 [argument_of ty_int 7; argument_of ty_int 8] = Some m /\
     fst (m (prepared (select_parameters ["a"%string; "b"%string]))) = Returns tt /\
     map binding_of
         (new_calls (prepared (select_parameters ["a"%string; "b"%string]))
                    (snd (m (prepared (select_parameters ["a"%string; "b"%string]))))) =
       [Some (Some 0%nat, 1, SQLITE_OK); Some (Some 0%nat, 2, SQLITE_OK)]).
Proof.
  destruct (bind_named_or_positional handle0) as (Hnamed & _ & _ & _ & _ & Hpos & _).
  split.
  - specialize (Hnamed [(":a"%string, argument_of ty_int 7);
                        (":zz"%string, argument_of ty_int 8)]).
    destruct (Statement.bind handle0 _) as [m|]; [|destruct Hnamed].
    exists m. split; [reflexivity|].
    pose proof (Hnamed (prepared (select_parameters [":a"%string]))) as Hrun.
    rewrite Hrun. split; reflexivity.
  - eexists. split; [reflexivity|]. split; [reflexivity|].
    apply (Hpos [argument_of ty_int 7; argument_of ty_int 8]); reflexivity.
Defined.

(** C4, as stated, fails: on an engine whose reset reports the failure
    of the last step, a first iteration reads two rows and throws at
    the third step, and the second iteration throws at its reset and
    yields no row. *)
Lemma second_fetch_after_failed_step_yields_no_row :
  exists w1 w2,
    Range.range_for (SQL := Reporting.sqlite) read_int 5 (Statement.fetch handle0)
      (Reporting.prepared (fails_after 2 SQLITE_BUSY)) =
      Some (([0; 1], Throws (error SQLITE_BUSY)), w1) /\
    Range.range_for (SQL := Reporting.sqlite) read_int 5 (Statement.fetch handle0) w1 =
      Some (([], Throws (error SQLITE_BUSY)), w2) /\
    new_calls w1 w2 = [ev_reset (Some 0%nat) SQLITE_BUSY].
Proof. eexists. eexists. repeat split. Qed.

Lemma fetch_twice_yields_same_rows_witness :
  (Range.range_for (SQL := Reporting.sqlite) read_int 5 (Statement.fetch handle0)
     (Reporting.prepared two_rows) =
     Some (([10; 20], Returns tt), Reporting.after_first_pass) /\
   exists w2,
     Range.range_for (SQL := Reporting.sqlite) read_int 5 (Statement.fetch handle0)
       Reporting.after_first_pass =
       Some (([10; 20], Returns tt), w2) /\
     new_calls Reporting.after_first_pass w2 =
       new_calls (Reporting.prepared two_rows) Reporting.after_first_pass) /\
  (Range.range_for read_int 5 (Statement.fetch handle0) (prepared two_rows) =
     Some (([10; 20], Returns tt), after_first_pass) /\
   exists w2,
     Range.range_for read_int 5 (Statement.fetch handle0) after_first_pass =
       Some (([10; 20], Returns tt), w2) /\
     new_calls after_first_pass w2 = new_calls (prepared two_rows) after_first_pass).
Proof.
  split; (split; [reflexivity|]).
  - apply (fetch_twice_yields_same_rows (SQL := Reporting.sqlite) read_int handle0 5
             (Reporting.prepared two_rows)
             Reporting.after_first_pass [10; 20] (Returns tt));
      reflexivity.
  - destruct (fetch_twice_yields_same_rows (SQL := sqlite) read_int handle0 5
                (prepared two_rows) after_first_pass [10; 20] (Returns tt) eq_refl)
      as (_ & Hsame & Hrewinds & _).
    apply Hsame, Hrewinds, toy_rewinds.
Defined.

(** C5, as stated, fails: the iteration over the unbounded query does
    not end, whatever the number of loop iterations allowed. *)
Lemma unbounded_query_iteration_never_ends :
  status_at (Some 0%nat) 0
            (snd (sqlite3_reset (Some 0%nat) (state (prepared counting)))) =
    SQLITE_ROW /\
  forall fuel,
    Range.range_for read_int fuel (Statement.fetch handle0) (prepared counting) =
      None.
Proof.
  split; [reflexivity|]. intros fuel.
  destruct (Range.range_for (SQL := sqlite) read_int fuel (Statement.fetch handle0)
              (prepared counting)) as [[x w1]|] eqn:Hrun; [|reflexivity].
  apply range_for_shape in Hrun. cbv zeta in Hrun.
  destruct Hrun as [(Hko & _)|(_ & n & c & (_ & Hc & Hnot) & _)].
  - exfalso. apply Hko. reflexivity.
  - exfalso. apply Hnot. rewrite <- Hc.
    apply counting_reports_rows. eexists _, _. split; reflexivity.
Qed.

Lemma iteration_ends_at_first_status_other_than_row_witness :
  Range.range_for read_int 3 (Statement.fetch handle0) (prepared two_rows) =
    Some ((rows_read read_int (Some 0%nat)
             (snd (sqlite3_reset (Some 0%nat) (state (prepared two_rows)))) 2,
           ending SQLITE_DONE),
          iterated (Some 0%nat) (prepared two_rows) 2 SQLITE_DONE) /\
  Range.range_for read_int 3 (Statement.fetch handle0)
                  (prepared (fails_after 2 SQLITE_BUSY)) =
    Some ((rows_read read_int (Some 0%nat)
             (snd (sqlite3_reset (Some 0%nat)
                     (state (prepared (fails_after 2 SQLITE_BUSY))))) 2,
           Throws (error SQLITE_BUSY)),
          iterated (Some 0%nat) (prepared (fails_after 2 SQLITE_BUSY)) 2 SQLITE_BUSY).
Proof.
  split.
  - apply (proj1 (iteration_ends_at_first_status_other_than_row (SQL := sqlite)
                    read_int handle0 (prepared two_rows)) 2%nat SQLITE_DONE 3%nat).
    + reflexivity.
    + split; [|split; [reflexivity|discriminate]].
      intros [|[|k]] Hk; [reflexivity|reflexivity|lia].
    + lia.
  - apply (proj1 (iteration_ends_at_first_status_other_than_row (SQL := sqlite)
                    read_int handle0 (prepared (fails_after 2 SQLITE_BUSY)))
                 2%nat SQLITE_BUSY 3%nat).
    + reflexivity.
    + split; [|split; [reflexivity|discriminate]].
      intros [|[|k]] Hk; [reflexivity|reflexivity|lia].
    + lia.
Defined.

Lemma connection_execute_raises_iff_witness :
  fst (Connection.execute connection0 "VACUUM"%string (world_of quiet [])) =
    Throws (execute_error SQLITE_ERROR {| str := Some "syntax error"%string |}) /\
  fst (Connection.execute connection0 "COMMIT;"%string (world_of quiet [])) =
    Returns tt.
Proof.
  split.
  - apply (connection_execute_raises_iff connection0 "VACUUM"%string
             (world_of quiet [])).
    reflexivity.
  - apply (connection_execute_raises_iff connection0 "COMMIT;"%string
             (world_of quiet [])).
    reflexivity.
Defined.

Lemma integer_width_dispatch_witness :
  exists bind_ convert,
    Meta.bind_traits ty_long = Some bind_ /\
    Meta.column_traits ty_long = Some convert /\
    new_calls (prepared (select_parameters [""%string]))
              (snd (bind_ (Some 0%nat) 1 5 (prepared (select_parameters [""%string])))) =
      [ev_bind_int64 (Some 0%nat) 1 5 SQLITE_OK] /\
    new_calls (prepared two_rows) (snd (convert (Some 0%nat) 0 (prepared two_rows))) =
      [ev_column_int64 (Some 0%nat) 0].
Proof.
  destruct (integer_width_dispatch i_long (Some 0%nat) 1 5
              (prepared (select_parameters [""%string])))
    as (_ & _ & bind_ & convert & Hb & Hc & _ & Hwide).
  destruct (integer_width_dispatch i_long (Some 0%nat) 0 5 (prepared two_rows))
    as (_ & _ & bind_' & convert' & Hb' & Hc' & _ & Hwide').
  exists bind_, convert. split; [exact Hb|]. split; [exact Hc|].
  split; [exact (proj1 (Hwide eq_refl))|].
  assert (Heq : convert' = convert) by congruence. subst convert'.
  exact (proj1 (proj2 (Hwide' eq_refl))).
Defined.

Lemma empty_string_without_pointer_read_witness :
  sqlite3_column_text (Some 0%nat) 0 (state on_null_row) = None /\
  fst (Meta.string_convert (Some 0%nat) 0 on_null_row) = Returns [] /\
  new_calls on_null_row (snd (Meta.string_convert (Some 0%nat) 0 on_null_row)) =
    [ev_column_bytes (Some 0%nat) 0].
Proof.
  split; [reflexivity|].
  destruct (empty_string_without_pointer_read (Some 0%nat) 0 on_null_row)
    as (_ & _ & Hnarrow & _).
  apply Hnarrow. reflexivity.
Defined.

Lemma scalar_round_trip_witness :
  (exists m,
     round_trip ty_long_long handle0 1 0 (2 ^ 40) = Some m /\
     fst (m (prepared (select_parameters [""%string]))) = Returns (2 ^ 40)) /\
  (exists m,
     round_trip ty_short handle0 1 0 (-5) = Some m /\
     fst (m (prepared (select_parameters [""%string]))) = Returns (-5)) /\
  (exists m,
     round_trip ty_double handle0 1 0 one_and_a_half = Some m /\
     fst (m (prepared (select_parameters [""%string]))) = Returns one_and_a_half) /\
  (exists m,
     round_trip ty_float handle0 1 0 one_and_a_half_f = Some m /\
     fst (m (prepared (select_parameters [""%string]))) = Returns one_and_a_half_f).
Proof.
  destruct (scalar_round_trip handle0 1 0 (prepared (select_parameters [""%string])))
    as (Hnarrow & Hwide & Hdouble & Hfloat).
  split; [|split; [|split]].
  - apply (Hwide i_long_long (2 ^ 40)).
    + reflexivity.
    + vm_compute. split; [intros Hc; discriminate Hc|reflexivity].
    + vm_compute. repeat split.
  - apply (Hnarrow i_short (-5)).
    + reflexivity.
    + vm_compute. split; [intros Hc; discriminate Hc|reflexivity].
    + vm_compute. repeat split.
  - apply (Hdouble one_and_a_half). vm_compute. repeat split.
  - apply (Hfloat one_and_a_half_f).
    + vm_compute. reflexivity.
    + vm_compute. repeat split.
Defined.


(** * Further properties of the wrapper *)

Section TraitProperties.
Context {CXX : Implementation} {SQL : Sqlite3}.

(** ** The metafunctions of type_traits.hpp *)

Lemma or__existsb (l : list bool) : or_ l = existsb (fun b => b) l.
Proof.
  induction l as [|b [|b' l] IH]; cbn [or_ existsb] in *; auto.
  - now rewrite orb_false_r.
  - rewrite <- IH. now destruct b.
Qed.

Lemma is_same_iff (T U : cpp_type) : is_same T U = true <-> T = U.
Proof.
  unfold is_same. destruct (cpp_type_eq_dec T U); split; auto; discriminate.
Qed.

(** X1: [is_any_of<T, Args...>] holds exactly when [T] is one of [Args];
    [and_] holds exactly when every argument does and [or_] exactly
    when one does, the empty packs included; [not_] of a conjunction is
    the disjunction of the negations. *)
Theorem is_any_of_iff_member (T : cpp_type) (Args : list cpp_type) :
  (is_any_of T Args = true <-> In T Args) /\
  (forall l, and_ l = true <-> Forall (fun b => b = true) l) /\
  (forall l, or_ l = true <-> Exists (fun b => b = true) l) /\
  (forall l, Meta.not_ (and_ l) = or_ (map Meta.not_ l)).
Proof.
  split; [|split; [|split]].
  - unfold is_any_of. rewrite or__existsb, existsb_exists. split.
    + intros (b & Hin & Hb). apply in_map_iff in Hin as (U & <- & Hin).
      apply is_same_iff in Hb. now subst.
    + intros Hin. exists true. split; [|reflexivity].
      apply in_map_iff. exists T. split; [now apply is_same_iff|exact Hin].
  - intros l. rewrite and__forallb, forallb_forall, Forall_forall. reflexivity.
  - intros l. rewrite or__existsb, existsb_exists, Exists_exists. reflexivity.
  - intros l. rewrite and__forallb, or__existsb. unfold Meta.not_.
    induction l as [|b l IH]; [reflexivity|].
    cbn [forallb map existsb]. rewrite negb_andb, IH. reflexivity.
Qed.



(** ** The types that can be bound and extracted *)


End TraitProperties.

Section TextProperties.
Context {CXX : Implementation} {SQL : Sqlite3}.

(** ** Text: the string traits and the three ways to bind *)

Lemma find_terminator_app (a b : list Z) :
  Forall (fun c => c <> 0) a ->
  Meta.find_terminator (a ++ 0 :: b) = Some (List.length a).
Proof.
  induction 1 as [|c a Hc _ IH]; [reflexivity|].
  cbn [app Meta.find_terminator List.length].
  apply Z.eqb_neq in Hc. now rewrite Hc, IH.
Qed.

Lemma char_traits_length_text (a b : list Z) (w : world) :
  Forall (fun c => c <> 0) a ->
  Meta.char_traits_length (Some (a ++ 0 :: b)) w =
  (Returns (Z.of_nat (List.length a)), w).
Proof.
  intros Ha. unfold Meta.char_traits_length.
  now rewrite find_terminator_app.
Qed.

(** X3: the text [s] of a string without a zero inside is seen alike by
    the three specializations of [string_traits]: as a [std::string],
    as the array of a literal (its characters and the terminator) and
    as a pointer to such a buffer, [c_str] gives the characters followed
    by the terminator and [size] their number.  The size of a null
    pointer is undefined, and a string of [char16_t] is no string for
    the wrapper. *)
Theorem string_traits_agree_on_text (s : list Z) (w : world) :
  Forall (fun c => c <> 0) s ->
  exists of_string of_array of_pointer,
    Meta.string_traits (ty_basic_string ty_char) = Some of_string /\
    Meta.string_traits (ty_array ty_char (S (List.length s))) = Some of_array /\
    Meta.string_traits (ty_const_pointer ty_char) = Some of_pointer /\
    Meta.c_str of_string s = Some (s ++ [0]) /\
    Meta.c_str of_array (s ++ [0]) = Some (s ++ [0]) /\
    Meta.c_str of_pointer (Some (s ++ [0])) = Some (s ++ [0]) /\
    Meta.size of_string s w = (Returns (Z.of_nat (List.length s)), w) /\
    Meta.size of_array (s ++ [0]) w = (Returns (Z.of_nat (List.length s)), w) /\
    Meta.size of_pointer (Some (s ++ [0])) w =
      (Returns (Z.of_nat (List.length s)), w) /\
    Meta.size of_pointer None w = (Undefined, w) /\
    Meta.string_traits (ty_basic_string ty_char16_t) = None /\
    Meta.string_traits (ty_const_pointer ty_char16_t) = None.
Proof.
  intros Hs. do 3 eexists.
  split; [reflexivity|]. split; [reflexivity|]. split; [reflexivity|].
  cbn [Meta.c_str Meta.size].
  repeat split.
  - unfold pure. do 2 f_equal. lia.
  - now apply char_traits_length_text.
Qed.




End TextProperties.

Section OwnedStrings.
Context {CXX : Implementation} {SQL : Sqlite3}.

(** ** Extracting and round-tripping owned strings *)






End OwnedStrings.

Section StringRoundTrip.
Context {CXX : Implementation} {SQL : Sqlite3}.




End StringRoundTrip.

Section BindingProperties.
Context {CXX : Implementation} {SQL : Sqlite3}.

(** ** What [bind] does and does not do *)

Lemma new_calls_eq (w w' : world) (l : list event) :
  calls w' = calls w ++ l -> new_calls w w' = l.
Proof. intros H. unfold new_calls. rewrite H. apply skipn_length_app. Qed.

Lemma only_binds_pure {A} (a : A) : only_binds (pure a).
Proof.
  intros w. split; [reflexivity|]. exists []. now rewrite app_nil_r.
Qed.

Lemma only_binds_throw {A} (e : exception) : only_binds (@throw _ _ A e).
Proof.
  intros w. split; [reflexivity|]. exists []. now rewrite app_nil_r.
Qed.

Lemma only_binds_undefined {A} : only_binds (@undefined _ _ A).
Proof.
  intros w. split; [reflexivity|]. exists []. now rewrite app_nil_r.
Qed.

Lemma only_binds_effect {A} (f : engine -> A * engine) (ev : A -> event) :
  (forall a, is_binding (ev a) = true) -> only_binds (effect f ev).
Proof.
  intros Hev w. rewrite effect_run. cbn [snd guards calls].
  split; [reflexivity|]. eexists. split; [reflexivity|].
  cbn. now rewrite Hev.
Qed.

Lemma only_binds_and_then {A B} (m : M A) (k : A -> M B) :
  only_binds m -> (forall a, only_binds (k a)) -> only_binds (and_then m k).
Proof.
  intros Hm Hk w. unfold and_then.
  destruct (Hm w) as (Hg & l & Hl & Hb).
  destruct (m w) as [[a|e|] w1]; cbn [snd] in *.
  - destruct (Hk a w1) as (Hg' & l' & Hl' & Hb').
    split; [congruence|]. exists (l ++ l').
    rewrite Hl', Hl, app_assoc, forallb_app, Hb, Hb'. auto.
  - split; [exact Hg|]. eauto.
  - split; [exact Hg|]. eauto.
Qed.

Lemma bind_traits_only_bind (T : cpp_type)
  (f : sqlite3_stmt_ptr -> Z -> value_of T -> M Z) :
  Meta.bind_traits T = Some f ->
  forall ptr index v, only_binds (f ptr index v).
Proof.
  destruct T as [[]| | | | | | | | | |C N|C|C| |U]; cbn; intros Hf ptr index v;
    try discriminate;
    try (injection Hf as <-; apply only_binds_effect; reflexivity);
    try (injection Hf as <-; unfold Meta.integer_bind, Meta.do_integer_bind;
         destruct (_ <? _); apply only_binds_effect; reflexivity);
    destruct C; try discriminate; injection Hf as <-;
    try (apply only_binds_effect; reflexivity).
  - apply only_binds_and_then.
    + unfold Meta.char_traits_length. destruct v as [buf|];
        [|apply only_binds_undefined].
      destruct (Meta.find_terminator buf);
        [apply only_binds_pure|apply only_binds_undefined].
    + intros n. apply only_binds_effect. reflexivity.
  - apply only_binds_and_then.
    + unfold Meta.char_traits_length. destruct v as [buf|];
        [|apply only_binds_undefined].
      destruct (Meta.find_terminator buf);
        [apply only_binds_pure|apply only_binds_undefined].
    + intros n. apply only_binds_effect. reflexivity.
Qed.

Lemma bind_to_with_only_binds {V : Type}
  (traits_bind : sqlite3_stmt_ptr -> Z -> V -> M Z) (s : statement) (index : Z)
  (value : V) :
  (forall ptr index v, only_binds (traits_bind ptr index v)) ->
  only_binds (Statement.bind_to_with traits_bind s index value).
Proof.
  intros H. unfold Statement.bind_to_with. apply only_binds_and_then; [apply H|].
  intros ret. destruct (negb _); [apply only_binds_throw|apply only_binds_pure].
Qed.

Lemma expand_only_binds (es : list (option (M unit))) (m : M unit) :
  Forall (fun e => forall m', e = Some m' -> only_binds m') es ->
  Statement.expand es = Some m -> only_binds m.
Proof.
  revert m. induction es as [|e es IH]; intros m Hall Hm.
  - injection Hm as <-. apply only_binds_pure.
  - cbn [Statement.expand] in Hm. inversion Hall as [|? ? He Hes]; subst.
    destruct e as [me|]; [|discriminate].
    destruct (Statement.expand es) as [ms|]; [|discriminate].
    injection Hm as <-. apply only_binds_and_then; [now apply He|].
    intros _. now apply IH.
Qed.

Lemma bind_adds_bindings (s : statement) (args : list Statement.argument)
  (m : M unit) :
  Statement.bind s args = Some m -> only_binds m.
Proof.
  unfold Statement.bind.
  destruct (and_ _); unfold Statement.bind_impl_true, Statement.bind_impl_false,
    Statement.bind_parameters; apply expand_only_binds; apply Forall_forall;
    intros e Hin m' ->; apply in_map_iff in Hin as (x & Hx & _).
  - unfold Statement.bind_named_argument in Hx.
    destruct x as [T v]. cbn [Statement.arg_type Statement.arg_value] in Hx.
    destruct T; try discriminate.
    unfold Statement.bind_to_name in Hx.
    destruct (Meta.bind_traits T) as [f|] eqn:Hf; [|discriminate].
    injection Hx as <-.
    apply only_binds_and_then.
    + apply only_binds_effect. reflexivity.
    + intros i. destruct (i =? 0); [apply only_binds_pure|].
      apply bind_to_with_only_binds. now apply (bind_traits_only_bind T).
  - unfold Statement.bind_to in Hx.
    destruct (Meta.bind_traits (Statement.arg_type (snd x))) as [f|] eqn:Hf;
      [|discriminate].
    injection Hx as <-.
    apply bind_to_with_only_binds.
    now apply (bind_traits_only_bind (Statement.arg_type (snd x))).
Qed.

Lemma bindings_step_nothing (l : list event) :
  forallb is_binding l = true -> existsb Transaction.is_step l = false.
Proof.
  induction l as [|ev l IH]; [auto|].
  cbn [forallb existsb]. intros H. apply andb_true_iff in H as (Hev & Hl).
  rewrite (IH Hl). destruct ev; try discriminate; reflexivity.
Qed.

Lemma bindings_hand_nothing (l : list event) :
  forallb is_binding l = true -> finalized l = [] /\ handed_out l = [].
Proof.
  induction l as [|ev l IH]; [auto|].
  cbn [forallb]. intros H. apply andb_true_iff in H as (Hev & Hl).
  destruct ev; try discriminate; cbn [finalized handed_out]; auto.
Qed.

(** X9: [bind] only binds: whatever the arguments, named or positional,
    and however the call ends, the engine calls it made are lookups of
    parameter names and bindings; it steps no statement, prepares and
    finalizes none, and leaves the guards alone. *)
Theorem bind_only_binds (s : statement) (args : list Statement.argument)
  (m : M unit) (w : world) :
  Statement.bind s args = Some m ->
  grows w (snd (m w)) /\
  guards (snd (m w)) = guards w /\
  forallb is_binding (new_calls w (snd (m w))) = true /\
  existsb Transaction.is_step (new_calls w (snd (m w))) = false /\
  finalized (new_calls w (snd (m w))) = [] /\
  handed_out (new_calls w (snd (m w))) = [].
Proof.
  intros Hm. destruct (bind_adds_bindings s args m Hm w) as (Hg & l & Hl & Hb).
  rewrite (new_calls_eq w _ l Hl).
  split; [now exists l|]. split; [exact Hg|]. split; [exact Hb|].
  destruct (bindings_hand_nothing l Hb) as (Hf & Hh).
  split; [now apply bindings_step_nothing|auto].
Qed.

Lemma expand_app (l1 l2 : list (option (M unit))) (m : M unit) :
  Statement.expand (l1 ++ l2) = Some m ->
  exists m1 m2,
    Statement.expand l1 = Some m1 /\ Statement.expand l2 = Some m2 /\
    forall w, m w = (m1 ;;; m2) w.
Proof.
  revert m. induction l1 as [|e l1 IH]; intros m Hm.
  - exists (pure tt), m. repeat split; auto.
  - cbn [app Statement.expand] in Hm |- *.
    destruct e as [me|]; [|discriminate].
    destruct (Statement.expand (l1 ++ l2)) as [ms|] eqn:Hms; [|discriminate].
    injection Hm as <-.
    destruct (IH ms eq_refl) as (m1 & m2 & H1 & H2 & Heq).
    rewrite H1. exists (me ;;; m1), m2. repeat split; auto.
    intros w. rewrite and_then_assoc.
    apply and_then_ext; auto.
Qed.

Lemma combine_seq_app {A} (i : nat) (l1 l2 : list A) :
  combine (seq i (List.length (l1 ++ l2))) (l1 ++ l2) =
  combine (seq i (List.length l1)) l1 ++
  combine (seq (i + List.length l1) (List.length l2)) l2.
Proof.
  revert i. induction l1 as [|x l1 IH]; intros i.
  - cbn. now rewrite Nat.add_0_r.
  - cbn [List.length app seq combine]. rewrite IH.
    now rewrite Nat.add_succ_r.
Qed.

(** X10: a positional [bind] stops at the first argument whose binding
    fails: when the arguments before [a] have been bound and the binding
    of [a], at the index that follows them, throws, the call throws the
    same from the same world; the arguments after [a] are not looked at
    and the bindings made before stay. *)
Theorem positional_bind_stops_at_first_failure
  (s : statement) (pre : list Statement.argument) (a : Statement.argument)
  (post : list Statement.argument) :
  forallb (fun a => is_named_parameter (Statement.arg_type a))
          (pre ++ a :: post) = false ->
  Statement.bind s (pre ++ a :: post) <> None ->
  exists m before this_one,
    Statement.bind s (pre ++ a :: post) = Some m /\
    Statement.bind_parameters s (Statement.index_sequence_for pre) pre =
      Some before /\
    Statement.bind_to (Statement.arg_type a) s
                      (Z.of_nat (List.length pre + 1)) (Statement.arg_value a) =
      Some this_one /\
    forall w w1 e w2,
      before w = (Returns tt, w1) -> this_one w1 = (Throws e, w2) ->
      m w = (Throws e, w2).
Proof.
  intros Hnot Hsome.
  destruct (Statement.bind s (pre ++ a :: post)) as [m|] eqn:Hm; [|contradiction].
  exists m. unfold Statement.bind in Hm.
  rewrite and__forallb, forallb_of_map, Hnot in Hm.
  unfold Statement.bind_impl_false, Statement.bind_parameters,
    Statement.index_sequence_for in Hm.
  rewrite combine_seq_app, map_app in Hm.
  apply expand_app in Hm as (m1 & m2 & H1 & H2 & Heq).
  cbn [List.length seq combine map Statement.expand fst snd Nat.add] in H2.
  destruct (Statement.bind_to (Statement.arg_type a) s
              (Z.of_nat (List.length pre + 1)) (Statement.arg_value a))
    as [me|] eqn:Hme; [|discriminate].
  destruct (Statement.expand _) as [mr|] in H2; [|discriminate].
  injection H2 as <-.
  exists m1, me. split; [reflexivity|]. split; [exact H1|]. split; [reflexivity|].
  intros w w1 e w2 Hbefore Hthis. rewrite Heq. unfold and_then.
  now rewrite Hbefore, Hthis.
Qed.

End BindingProperties.

Section StatementLife.
Context {CXX : Implementation} {SQL : Sqlite3}.

(** ** The handle of a statement *)

Lemma handed_out_app (l l' : list event) :
  handed_out (l ++ l') = handed_out l ++ handed_out l'.
Proof.
  induction l as [|ev l IH]; [reflexivity|].
  destruct ev; cbn [app handed_out]; auto.
  match goal with
  | |- context [match ?p with Some _ => _ | None => _ end] => destruct p
  end; auto.
  destruct (_ =? SQLITE_OK); cbn [app]; [f_equal|]; exact IH.
Qed.

Lemma finalized_app (l l' : list event) :
  finalized (l ++ l') = finalized l ++ finalized l'.
Proof.
  induction l as [|ev l IH]; [reflexivity|].
  destruct ev; cbn [app finalized]; auto. now rewrite IH.
Qed.

Lemma prepare_run (db : sqlite3_ptr) (sql : string) (w : world) :
  let r := sqlite3_prepare_v2 db sql (Z.of_nat (String.length sql)) (state w) in
  let w1 := {| state := snd r;
               calls := calls w ++
                        [ev_prepare db sql (Z.of_nat (String.length sql))
                                    (fst (fst r)) (snd (fst r))];
               guards := guards w |} in
  Statement.prepare db sql w =
  if fst (fst r) =? SQLITE_OK
  then (Returns {| _ptr := snd (fst r) |}, w1)
  else (Throws (error (fst (fst r))), w1).
Proof.
  cbv zeta. unfold Statement.prepare, prepare_call, and_then.
  rewrite effect_run. cbn [fst snd]. now destruct (_ =? _).
Qed.

Lemma destroy_run (s : statement) (w : world) :
  Statement.destroy s w =
  (Returns tt,
   match _ptr s with
   | Some _ =>
       {| state := snd (sqlite3_finalize (_ptr s) (state w));
          calls := calls w ++ [ev_finalize (_ptr s)];
          guards := guards w |}
   | None => w
   end).
Proof.
  unfold Statement.destroy. destruct (_ptr s); [|reflexivity].
  unfold and_then, finalize_call. now rewrite effect_run.
Qed.


End StatementLife.

Section IteratorProperties.
Context {CXX : Implementation} {SQL : Sqlite3}.

(** ** The iterator protocol *)

Lemma advance_returns (it it' : Iterator.statement_iterator) (w w' : world) :
  Iterator.advance it w = (Returns it', w') ->
  (Iterator.ret it = SQLITE_DONE /\ it' = it /\ w' = w) \/
  (Iterator.ret it <> SQLITE_DONE /\
   (Iterator.ret it' = SQLITE_ROW \/ Iterator.ret it' = SQLITE_DONE) /\
   Iterator._current_column it' = Iterator._current_column it /\
   Iterator.ret it' = fst (sqlite3_step (Iterator.data it) (state w)) /\
   w' = {| state := snd (sqlite3_step (Iterator.data it) (state w));
           calls := calls w ++ [ev_step (Iterator.data it) (Iterator.ret it')];
           guards := guards w |}).
Proof.
  destruct (Z.eq_dec (Iterator.ret it) SQLITE_DONE) as [Hdone|Hnot].
  - unfold Iterator.advance. apply Z.eqb_eq in Hdone as Hb. rewrite Hb.
    cbn [negb pure]. intros H. injection H as <- <-. left. auto.
  - rewrite advance_run by assumption. cbv zeta.
    destruct (Z.eqb_spec (fst (sqlite3_step (Iterator.data it) (state w))) SQLITE_ROW)
      as [Hrow|Hrow];
      destruct (Z.eqb_spec (fst (sqlite3_step (Iterator.data it) (state w)))
                           SQLITE_DONE) as [Hd|Hd];
      cbn [negb andb]; intros H; try discriminate H;
      injection H as <- <-; right; cbn [Iterator.ret Iterator._current_column];
      repeat split; auto.
Qed.

(** X12: an iterator that [begin()] or [++] returned stands on a row or at
    the end: its status is the one of the step just made, [SQLITE_ROW]
    or [SQLITE_DONE]; it views the statement of the range; it equals
    [end()] exactly when the status is [SQLITE_DONE].  An iterator at
    the end stays there: [++] returns it as it is and makes no engine
    call. *)
Theorem iterator_stands_on_row_or_end :
  (forall r w it w',
     Range.begin r w = (Returns it, w') ->
     (Iterator.ret it = SQLITE_ROW \/ Iterator.ret it = SQLITE_DONE) /\
     Iterator.deref it = {| Column.ptr := Range._ptr r |} /\
     (Iterator.eq it (Range.end_ r) = true <-> Iterator.ret it = SQLITE_DONE) /\
     exists l,
       new_calls w w' = l ++ [ev_step (Range._ptr r) (Iterator.ret it)]) /\
  (forall it w it' w',
     Iterator.increment it w = (Returns it', w') ->
     (Iterator.ret it' = SQLITE_ROW \/ Iterator.ret it' = SQLITE_DONE) /\
     Iterator.deref it' = Iterator.deref it /\
     (Iterator.eq it' (Iterator.from_end_tag (Iterator.data it)) = true <->
      Iterator.ret it' = SQLITE_DONE)) /\
  (forall it w,
     Iterator.ret it = SQLITE_DONE ->
     Iterator.increment it w = (Returns it, w)).
Proof.
  split; [|split].
  - intros [p] w it w'. rewrite begin_run. cbv zeta. cbn [Range._ptr].
    destruct (negb _); [discriminate|].
    destruct (negb _ && negb _) eqn:Hbad; [discriminate|].
    intros H. injection H as <- <-.
    cbn [Iterator.ret Iterator.deref Iterator._current_column].
    apply andb_false_iff in Hbad.
    split; [|split; [reflexivity|split]].
    + destruct Hbad as [H|H]; apply negb_false_iff, Z.eqb_eq in H; auto.
    + unfold Iterator.eq, Range.end_, Iterator.from_end_tag, Iterator.data,
        Column.data. cbn. rewrite ptr_eqb_refl. cbn [andb]. apply Z.eqb_eq.
    + exists [ev_reset p (fst (sqlite3_reset p (state w)))].
      rewrite new_calls_app. reflexivity.
  - intros it w it' w' H. unfold Iterator.increment in H.
    apply advance_returns in H as [(Hdone & -> & ->)|(Hnot & Hret & Hcol & _)].
    + split; [auto|]. split; [reflexivity|].
      unfold Iterator.eq, Iterator.from_end_tag, Iterator.data, Column.data. cbn.
      rewrite ptr_eqb_refl. cbn [andb]. apply Z.eqb_eq.
    + split; [exact Hret|]. unfold Iterator.deref. split; [exact Hcol|].
      unfold Iterator.eq, Iterator.from_end_tag, Iterator.data, Column.data. cbn.
      rewrite Hcol, ptr_eqb_refl. cbn [andb]. apply Z.eqb_eq.
  - intros it w Hdone. unfold Iterator.increment, Iterator.advance.
    apply Z.eqb_eq in Hdone. now rewrite Hdone.
Qed.

(** X13: the iterator that post-increment returns keeps the status it had
    and not the row it stood on: it views the same statement as the
    iterator after the step, so whatever is read through it is read
    from the engine after that step. *)
Theorem post_increment_returns_alias
  (it copy it' : Iterator.statement_iterator) (w w' : world) :
  Iterator.post_increment it w = (Returns (copy, it'), w') ->
  copy = it /\
  Iterator.deref copy = Iterator.deref it' /\
  (Iterator.ret it <> SQLITE_DONE ->
     state w' = snd (sqlite3_step (Iterator.data it) (state w)) /\
     Iterator.ret it' = fst (sqlite3_step (Iterator.data it) (state w)) /\
     new_calls w w' = [ev_step (Iterator.data it) (Iterator.ret it')]) /\
  (Iterator.ret it = SQLITE_DONE -> it' = it /\ w' = w).
Proof.
  unfold Iterator.post_increment, and_then.
  destruct (Iterator.advance it w) as [[it1| |] w1] eqn:Hadv; try discriminate.
  cbn [pure]. intros H. injection H as <- <- <-.
  apply advance_returns in Hadv as [(Hdone & -> & ->)|(Hnot & Hret & Hcol & Hst & ->)].
  - repeat split; auto; intros; contradiction.
  - split; [reflexivity|]. unfold Iterator.deref. split; [now rewrite Hcol|].
    split; [|intros; contradiction].
    intros _. cbn [state]. split; [reflexivity|]. split; [exact Hst|].
    apply new_calls_app.
Qed.

End IteratorProperties.

Section GuardConstruction.
Context {CXX : Implementation} {SQL : Sqlite3}.

(** ** Constructing a guard *)

Lemma construct_run (this : nat) (con : Connection.connection) (w : world) :
  let db := Connection.db con in
  let pc := sqlite3_prepare_v2 db "COMMIT;" 7 (state w) in
  let c := {| _ptr := snd (fst pc) |} in
  let w1 := {| state := snd pc;
               calls := calls w ++
                        [ev_prepare db "COMMIT;" 7 (fst (fst pc)) (snd (fst pc))];
               guards := guards w |} in
  let pr := sqlite3_prepare_v2 db "ROLLBACK;" 9 (snd pc) in
  let r := {| _ptr := snd (fst pr) |} in
  let w2 := {| state := snd pr;
               calls := calls w ++
                        [ev_prepare db "COMMIT;" 7 (fst (fst pc)) (snd (fst pc));
                         ev_prepare db "ROLLBACK;" 9 (fst (fst pr)) (snd (fst pr))];
               guards := guards w |} in
  let ex := sqlite3_exec db "BEGIN TRANSACTION;" (snd pr) in
  let w3 := {| state := snd ex;
               calls := calls w ++
                        [ev_prepare db "COMMIT;" 7 (fst (fst pc)) (snd (fst pc));
                         ev_prepare db "ROLLBACK;" 9 (fst (fst pr)) (snd (fst pr));
                         ev_exec db "BEGIN TRANSACTION;"
                                 (fst (fst ex)) (snd (fst ex))];
               guards := fun a =>
                 if Nat.eqb a this
                 then {| _commit := c; _rollback := r; needs_rollback := true |}
                 else guards w a |} in
  Transaction.construct this con w =
  if negb (fst (fst pc) =? SQLITE_OK)
  then (Throws (error (fst (fst pc))), w1)
  else if negb (fst (fst pr) =? SQLITE_OK)
  then (Throws (error (fst (fst pr))), snd (Statement.destroy c w2))
  else if negb (fst (fst ex) =? SQLITE_OK) || valid {| str := snd (fst ex) |}
  then (Throws (execute_error (fst (fst ex)) {| str := snd (fst ex) |}),
        snd ((Statement.destroy r ;;; Statement.destroy c) w3))
  else (Returns tt, w3).
Proof.
  cbv zeta. unfold Transaction.construct, Connection.prepare.
  unfold and_then at 1. rewrite prepare_run. cbv zeta.
  change (Z.of_nat (String.length "COMMIT;")) with 7.
  destruct (fst (fst (sqlite3_prepare_v2 (Connection.db con) "COMMIT;" 7 (state w)))
            =? SQLITE_OK); cbn [negb]; [|reflexivity].
  unfold and_then at 1. unfold on_exception at 1. rewrite prepare_run. cbv zeta.
  change (Z.of_nat (String.length "ROLLBACK;")) with 9.
  cbn [state calls guards].
  destruct (fst (fst (sqlite3_prepare_v2 (Connection.db con) "ROLLBACK;" 9 _))
            =? SQLITE_OK); cbn [negb].
  2:{ rewrite <- app_assoc. reflexivity. }
  unfold and_then at 1. unfold Transaction.store at 1. cbn beta iota.
  cbn [state calls guards].
  unfold on_exception, Connection.execute, exec_call. unfold and_then at 1.
  rewrite effect_run. cbn [fst snd state calls guards].
  unfold error_string_move. cbn [fst str].
  rewrite <- !app_assoc. cbn [app].
  destruct (negb _ || valid _); reflexivity.
Qed.

Lemma construct_returned (this : nat) (con : Connection.connection) (w : world) :
  let db := Connection.db con in
  let pc := sqlite3_prepare_v2 db "COMMIT;" 7 (state w) in
  let pr := sqlite3_prepare_v2 db "ROLLBACK;" 9 (snd pc) in
  let ex := sqlite3_exec db "BEGIN TRANSACTION;" (snd pr) in
  fst (Transaction.construct this con w) = Returns tt ->
  fst (fst pc) = SQLITE_OK /\ fst (fst pr) = SQLITE_OK /\
  fst ex = (SQLITE_OK, None) /\
  snd (Transaction.construct this con w) =
  {| state := snd ex;
     calls := calls w ++
              [ev_prepare db "COMMIT;" 7 SQLITE_OK (snd (fst pc));
               ev_prepare db "ROLLBACK;" 9 SQLITE_OK (snd (fst pr));
               ev_exec db "BEGIN TRANSACTION;" SQLITE_OK None];
     guards := fun a =>
       if Nat.eqb a this
       then {| _commit := {| _ptr := snd (fst pc) |};
               _rollback := {| _ptr := snd (fst pr) |};
               needs_rollback := true |}
       else guards w a |}.
Proof.
  cbv zeta. rewrite construct_run. cbv zeta.
  destruct (Z.eqb_spec
              (fst (fst (sqlite3_prepare_v2 (Connection.db con) "COMMIT;" 7 (state w))))
              SQLITE_OK) as [Hc|Hc]; cbn [negb]; [|discriminate].
  destruct (Z.eqb_spec
              (fst (fst (sqlite3_prepare_v2 (Connection.db con) "ROLLBACK;" 9
                           (snd (sqlite3_prepare_v2 (Connection.db con) "COMMIT;" 7
                                   (state w))))))
              SQLITE_OK) as [Hr|Hr]; cbn [negb]; [|discriminate].
  destruct (sqlite3_exec (Connection.db con) "BEGIN TRANSACTION;" _)
    as [[ret msg] e] eqn:Hex. cbn [fst snd].
  rewrite Hc, Hr.
  destruct (Z.eqb_spec ret SQLITE_OK) as [->|Hret]; cbn [negb orb]; [|discriminate].
  unfold valid. cbn [str]. destruct msg as [msg|]; [discriminate|].
  intros _. cbn [snd]. auto.
Qed.

(** X14: the constructor of a guard prepares [COMMIT;], prepares
    [ROLLBACK;] and executes [BEGIN TRANSACTION;], in this order and
    with no other engine call; it returns exactly when the three
    succeed (the execution without a message), and the guard is then
    active and holds the two handles the engine gave; the other guards
    are as they were. *)
Theorem construct_begins_transaction
  (this : nat) (con : Connection.connection) (w : world) :
  let db := Connection.db con in
  let pc := sqlite3_prepare_v2 db "COMMIT;" 7 (state w) in
  let pr := sqlite3_prepare_v2 db "ROLLBACK;" 9 (snd pc) in
  let ex := sqlite3_exec db "BEGIN TRANSACTION;" (snd pr) in
  let out := Transaction.construct this con w in
  (fst out = Returns tt <->
   fst (fst pc) = SQLITE_OK /\ fst (fst pr) = SQLITE_OK /\
   fst ex = (SQLITE_OK, None)) /\
  (fst out = Returns tt ->
   new_calls w (snd out) =
     [ev_prepare db "COMMIT;" 7 SQLITE_OK (snd (fst pc));
      ev_prepare db "ROLLBACK;" 9 SQLITE_OK (snd (fst pr));
      ev_exec db "BEGIN TRANSACTION;" SQLITE_OK None] /\
   state (snd out) = snd ex /\
   guards (snd out) this =
     {| _commit := {| _ptr := snd (fst pc) |};
        _rollback := {| _ptr := snd (fst pr) |};
        needs_rollback := true |} /\
   forall b, b <> this -> guards (snd out) b = guards w b).
Proof.
  cbv zeta. split.
  - split.
    + intros Hok. destruct (construct_returned this con w Hok) as (Hc & Hr & Hex & _).
      auto.
    + intros (Hc & Hr & Hex). rewrite construct_run. cbv zeta.
      rewrite Hc, Hr, Hex. reflexivity.
  - intros Hok. destruct (construct_returned this con w Hok) as (_ & _ & _ & ->).
    cbn [state guards]. rewrite new_calls_app, Nat.eqb_refl.
    repeat split.
    intros b Hb. apply Nat.eqb_neq in Hb. now rewrite Hb.
Qed.

Lemma destroy_calls (s : statement) (w : world) :
  fst (Statement.destroy s w) = Returns tt /\
  guards (snd (Statement.destroy s w)) = guards w /\
  calls (snd (Statement.destroy s w)) =
  calls w ++ match _ptr s with Some _ => [ev_finalize (_ptr s)] | None => [] end.
Proof.
  rewrite destroy_run. cbn [fst snd].
  destruct (_ptr s); cbn [calls guards]; auto using app_nil_r.
Qed.

(** X15: a constructor that fails releases what it prepared: it throws the
    status of the preparation that failed, or the [execute_error] of
    [BEGIN TRANSACTION;] with its status and message; the handle of
    [COMMIT;] is finalized when the preparation of [ROLLBACK;] fails,
    and the handles of [ROLLBACK;] and [COMMIT;], in this order, when
    the execution fails.  No statement is stepped, so no rollback is
    made, and every handle the engine handed out is finalized once. *)
Theorem failed_construct_releases_statements
  (this : nat) (con : Connection.connection) (w : world) :
  let db := Connection.db con in
  let pc := sqlite3_prepare_v2 db "COMMIT;" 7 (state w) in
  let pr := sqlite3_prepare_v2 db "ROLLBACK;" 9 (snd pc) in
  let ex := sqlite3_exec db "BEGIN TRANSACTION;" (snd pr) in
  let released (p : sqlite3_stmt_ptr) :=
    match p with Some _ => [ev_finalize p] | None => [] end in
  let out := Transaction.construct this con w in
  let new := new_calls w (snd out) in
  (fst (fst pc) <> SQLITE_OK ->
     fst out = Throws (error (fst (fst pc))) /\
     new = [ev_prepare db "COMMIT;" 7 (fst (fst pc)) (snd (fst pc))]) /\
  (fst (fst pc) = SQLITE_OK -> fst (fst pr) <> SQLITE_OK ->
     fst out = Throws (error (fst (fst pr))) /\
     new = [ev_prepare db "COMMIT;" 7 SQLITE_OK (snd (fst pc));
            ev_prepare db "ROLLBACK;" 9 (fst (fst pr)) (snd (fst pr))] ++
           released (snd (fst pc))) /\
  (fst (fst pc) = SQLITE_OK -> fst (fst pr) = SQLITE_OK ->
   fst ex <> (SQLITE_OK, None) ->
     fst out = Throws (execute_error (fst (fst ex)) {| str := snd (fst ex) |}) /\
     new = [ev_prepare db "COMMIT;" 7 SQLITE_OK (snd (fst pc));
            ev_prepare db "ROLLBACK;" 9 SQLITE_OK (snd (fst pr));
            ev_exec db "BEGIN TRANSACTION;" (fst (fst ex)) (snd (fst ex))] ++
           released (snd (fst pr)) ++ released (snd (fst pc))) /\
  (forall e, fst out = Throws e ->
     existsb Transaction.is_step new = false /\
     finalized new = rev (handed_out new)).
Proof.
  cbv zeta. rewrite construct_run. cbv zeta.
  set (db := Connection.db con).
  set (pc := sqlite3_prepare_v2 db "COMMIT;" 7 (state w)).
  set (pr := sqlite3_prepare_v2 db "ROLLBACK;" 9 (snd pc)).
  set (ex := sqlite3_exec db "BEGIN TRANSACTION;" (snd pr)).
  destruct (Z.eqb_spec (fst (fst pc)) SQLITE_OK) as [Hc|Hc]; cbn [negb].
  2:{ cbn [fst snd]. rewrite new_calls_app. apply Z.eqb_neq in Hc as Hcb.
      split; [auto|]. split; [intros; contradiction|].
      split; [intros; contradiction|].
      intros e _. split; [reflexivity|].
      cbn [finalized handed_out].
      destruct (snd (fst pc)); [now rewrite Hcb|reflexivity]. }
  destruct (Z.eqb_spec (fst (fst pr)) SQLITE_OK) as [Hr|Hr]; cbn [negb].
  2:{ cbn [fst snd]. apply Z.eqb_neq in Hr as Hrb.
      match goal with
      | |- context [Statement.destroy ?s ?w0] =>
          destruct (destroy_calls s w0) as (_ & _ & Hcalls);
          assert (Hnew : new_calls w (snd (Statement.destroy s w0)) =
                         [ev_prepare db "COMMIT;" 7 SQLITE_OK (snd (fst pc));
                          ev_prepare db "ROLLBACK;" 9 (fst (fst pr)) (snd (fst pr))] ++
                         match snd (fst pc) with
                         | Some _ => [ev_finalize (snd (fst pc))]
                         | None => []
                         end)
      end.
      { apply new_calls_eq. rewrite Hcalls. cbn [calls _ptr].
        now rewrite Hc, <- app_assoc. }
      rewrite Hnew.
      split; [intros; contradiction|]. split; [auto|].
      split; [intros; contradiction|].
      intros e _. split.
      - destruct (snd (fst pc)); reflexivity.
      - cbn [app finalized handed_out Z.eqb SQLITE_OK].
        destruct (snd (fst pc)) as [hc|]; destruct (snd (fst pr)) as [hr|];
          cbn [finalized handed_out rev app]; rewrite ?Hrb; reflexivity. }
  destruct (negb (fst (fst ex) =? SQLITE_OK) || valid {| str := snd (fst ex) |})
    eqn:Hbad.
  2:{ cbn [fst]. split; [intros; contradiction|]. split; [intros; contradiction|].
      split; [|discriminate].
      intros _ _ Hne. exfalso. apply Hne.
      apply orb_false_iff in Hbad as (Hret & Hmsg).
      apply negb_false_iff, Z.eqb_eq in Hret. unfold valid in Hmsg. cbn [str] in Hmsg.
      destruct ex as [[ret msg] e]. cbn [fst snd] in *. subst ret.
      destruct msg; [discriminate|reflexivity]. }
  cbn [fst snd]. unfold and_then.
  match goal with
  | |- context [Statement.destroy ?s ?w0] =>
      destruct (destroy_calls s w0) as (Hret1 & _ & Hcalls1);
      destruct (Statement.destroy s w0) as [r1 w4]
  end.
  cbn [fst snd calls _ptr] in Hret1, Hcalls1. subst r1.
  match goal with
  | |- context [Statement.destroy ?s ?w0] =>
      destruct (destroy_calls s w0) as (_ & _ & Hcalls2);
      assert (Hnew : new_calls w (snd (Statement.destroy s w0)) =
                     [ev_prepare db "COMMIT;" 7 SQLITE_OK (snd (fst pc));
                      ev_prepare db "ROLLBACK;" 9 SQLITE_OK (snd (fst pr));
                      ev_exec db "BEGIN TRANSACTION;" (fst (fst ex)) (snd (fst ex))] ++
                     match snd (fst pr) with
                     | Some _ => [ev_finalize (snd (fst pr))]
                     | None => []
                     end ++
                     match snd (fst pc) with
                     | Some _ => [ev_finalize (snd (fst pc))]
                     | None => []
                     end)
  end.
  { apply new_calls_eq. rewrite Hcalls2, Hcalls1. cbn [_ptr].
    now rewrite Hc, Hr, <- !app_assoc. }
  rewrite Hnew.
  split; [intros; contradiction|]. split; [intros; contradiction|].
  split; [auto|].
  intros e _. split.
  - destruct (snd (fst pc)); destruct (snd (fst pr)); reflexivity.
  - destruct (snd (fst pc)) as [hc|]; destruct (snd (fst pr)) as [hr|];
      reflexivity.
Qed.

End GuardConstruction.

Section GuardLife.
Context {CXX : Implementation} {SQL : Sqlite3}.

(** ** The statements of a guard over its life *)

Lemma running_not_resources (l : list event) :
  forallb is_running l = true -> finalized l = [] /\ handed_out l = [].
Proof.
  induction l as [|ev l IH]; [auto|].
  cbn [forallb]. intros H. apply andb_true_iff in H as (Hev & Hl).
  destruct ev; try discriminate; cbn [finalized handed_out]; auto.
Qed.

Lemma execute_running (s : statement) (w : world) :
  guards (snd (Statement.execute s w)) = guards w /\
  exists l, calls (snd (Statement.execute s w)) = calls w ++ l /\
            forallb is_running l = true.
Proof.
  rewrite execute_run. cbv zeta. destruct (negb _ && negb _).
  - cbn [snd guards calls]. split; [reflexivity|]. eexists. split; reflexivity.
  - rewrite reset_run. cbn [snd guards calls state]. split; [reflexivity|].
    eexists. rewrite <- app_assoc. split; reflexivity.
Qed.

(** What [commit()], [rollback()] and the body of the destructor leave
    of the guard: its statements, and a log grown by steps and resets. *)
Lemma finish_keeps_statements (field : transaction -> statement) (this : nat)
  (w : world) :
  let m :=
    t <- Transaction.load this ;;
    if needs_rollback t then
      Statement.execute (field t) ;;;
      Transaction.assign_needs_rollback this false
    else pure tt in
  _commit (guards (snd (m w)) this) = _commit (guards w this) /\
  _rollback (guards (snd (m w)) this) = _rollback (guards w this) /\
  exists l, calls (snd (m w)) = calls w ++ l /\ forallb is_running l = true.
Proof.
  cbv zeta. rewrite (finish_run field this w).
  destruct (needs_rollback (guards w this)).
  - destruct (execute_running (field (guards w this)) w) as (Hg & l & Hl & Hrun).
    destruct (Statement.execute (field (guards w this)) w) as [[[]|e|] w1];
      cbn [snd guards calls] in *; rewrite ?Nat.eqb_refl;
      unfold Transaction.set_needs_rollback; cbn [_commit _rollback];
      rewrite ?Hg; eauto.
  - cbn [snd]. repeat split. exists []. now rewrite app_nil_r.
Qed.

Lemma run_keeps_statements (this : nat) (ops : list Transaction.operation)
  (w : world) :
  Forall (fun op => op <> Transaction.op_destroy) ops ->
  let w' := snd (Transaction.run (map (pair this) ops) w) in
  _commit (guards w' this) = _commit (guards w this) /\
  _rollback (guards w' this) = _rollback (guards w this) /\
  exists l, calls w' = calls w ++ l /\ forallb is_running l = true.
Proof.
  cbv zeta. intros Hops. revert w.
  induction Hops as [|op ops Hop _ IH]; intros w.
  - cbn. repeat split. exists []. now rewrite app_nil_r.
  - cbn [map Transaction.run].
    assert (Hone :
              _commit (guards (snd (Transaction.perform this op w)) this) =
                _commit (guards w this) /\
              _rollback (guards (snd (Transaction.perform this op w)) this) =
                _rollback (guards w this) /\
              exists l, calls (snd (Transaction.perform this op w)) = calls w ++ l /\
                        forallb is_running l = true).
    { destruct op; [| |contradiction].
      - exact (finish_keeps_statements _commit this w).
      - exact (finish_keeps_statements _rollback this w). }
    destruct (Transaction.perform this op w) as [r w1]. cbn [snd] in Hone.
    specialize (IH w1).
    destruct (Transaction.run (map (pair this) ops) w1) as [rs w2].
    cbn [snd] in *.
    destruct Hone as (Hc & Hr & l & Hl & Hrun).
    destruct IH as (Hc' & Hr' & l' & Hl' & Hrun').
    split; [congruence|]. split; [congruence|].
    exists (l ++ l'). rewrite Hl', Hl, app_assoc, forallb_app, Hrun, Hrun'. auto.
Qed.

Lemma run_app (l1 l2 : list (nat * Transaction.operation)) (w : world) :
  snd (Transaction.run (l1 ++ l2) w) =
  snd (Transaction.run l2 (snd (Transaction.run l1 w))).
Proof.
  revert w. induction l1 as [|[a op] l1 IH]; intros w; [reflexivity|].
  cbn [app Transaction.run].
  destruct (Transaction.perform a op w) as [r w1].
  specialize (IH w1).
  destruct (Transaction.run (l1 ++ l2) w1) as [rs w2].
  destruct (Transaction.run l1 w1) as [rs1 w3]. cbn [snd] in *. exact IH.
Qed.

Lemma destructor_calls (this : nat) (w : world) :
  exists l,
    forallb is_running l = true /\
    calls (snd (Transaction.destructor this w)) =
    calls w ++ l ++
    match _ptr (_rollback (guards w this)) with
    | Some _ => [ev_finalize (_ptr (_rollback (guards w this)))]
    | None => []
    end ++
    match _ptr (_commit (guards w this)) with
    | Some _ => [ev_finalize (_ptr (_commit (guards w this)))]
    | None => []
    end.
Proof.
  unfold Transaction.destructor, finally.
  set (body := t <- Transaction.load this ;;
               if needs_rollback t then Transaction.rollback this else pure tt).
  assert (Hbody :
            _commit (guards (snd (body w)) this) = _commit (guards w this) /\
            _rollback (guards (snd (body w)) this) = _rollback (guards w this) /\
            exists l, calls (snd (body w)) = calls w ++ l /\
                      forallb is_running l = true).
  { assert (Heq : body w = if needs_rollback (guards w this)
                           then Transaction.rollback this w
                           else (Returns tt, w)).
    { subst body. unfold and_then, Transaction.load. cbn beta iota.
      now destruct (needs_rollback (guards w this)). }
    rewrite Heq. destruct (needs_rollback (guards w this)).
    - exact (finish_keeps_statements _rollback this w).
    - cbn [snd]. repeat split. exists []. now rewrite app_nil_r. }
  destruct (body w) as [r w1]. cbn [snd] in *.
  destruct Hbody as (Hc & Hr & l & Hl & Hrun).
  exists l. split; [exact Hrun|].
  unfold and_then, Transaction.load. cbn beta iota.
  destruct (destroy_calls (_rollback (guards w1 this)) w1) as (Hret1 & _ & Hcalls1).
  destruct (Statement.destroy (_rollback (guards w1 this)) w1) as [r1 w2].
  cbn [fst snd] in *. subst r1.
  destruct (destroy_calls (_commit (guards w1 this)) w2) as (_ & _ & Hcalls2).
  rewrite Hcalls2, Hcalls1, Hl, Hc, Hr, <- !app_assoc. reflexivity.
Qed.

(** X16: over its life a guard finalizes what it prepared: after a
    constructor that returned, whatever commits and rollbacks are made
    on the guard before its scope ends and however they end, the handles
    finalized from the construction on are those of [ROLLBACK;] and of
    [COMMIT;], once each and in this order, and apart from them the
    guard only stepped and reset statements. *)
Theorem guard_finalizes_what_it_prepared
  (this : nat) (con : Connection.connection) (w : world)
  (ops : list Transaction.operation) :
  fst (Transaction.construct this con w) = Returns tt ->
  Forall (fun op => op <> Transaction.op_destroy) ops ->
  let w1 := snd (Transaction.construct this con w) in
  let w2 := snd (Transaction.lifetime this ops w1) in
  finalized (new_calls w w2) = rev (handed_out (new_calls w w2)) /\
  handed_out (new_calls w w1) = handed_out (new_calls w w2) /\
  exists l,
    forallb is_running l = true /\
    new_calls w1 w2 = l ++ map ev_finalize (finalized (new_calls w w2)).
Proof.
  intros Hok Hops. cbv zeta.
  unfold Transaction.lifetime. rewrite run_app.
  pose proof (run_keeps_statements this ops
                (snd (Transaction.construct this con w)) Hops) as Hrun.
  cbv zeta in Hrun.
  set (w1 := snd (Transaction.construct this con w)) in *.
  set (w' := snd (Transaction.run (map (pair this) ops) w1)) in *.
  destruct Hrun as (Hc & Hr & l & Hl & Hlrun).
  cbn [Transaction.run Transaction.perform].
  destruct (destructor_calls this w') as (l' & Hlrun' & Hd).
  destruct (Transaction.destructor this w') as [rd w2]. cbn [snd] in *.
  rewrite Hc, Hr in Hd.
  destruct (construct_returned this con w Hok) as (_ & _ & _ & Hw1).
  cbv zeta in Hw1. fold w1 in Hw1.
  assert (Hnew : new_calls w w1 =
                 [ev_prepare (Connection.db con) "COMMIT;" 7 SQLITE_OK
                    (snd (fst (sqlite3_prepare_v2 (Connection.db con) "COMMIT;" 7
                                 (state w))));
                  ev_prepare (Connection.db con) "ROLLBACK;" 9 SQLITE_OK
                    (snd (fst (sqlite3_prepare_v2 (Connection.db con) "ROLLBACK;" 9
                                 (snd (sqlite3_prepare_v2 (Connection.db con)
                                         "COMMIT;" 7 (state w))))));
                  ev_exec (Connection.db con) "BEGIN TRANSACTION;" SQLITE_OK None]).
  { rewrite Hw1. apply new_calls_app. }
  assert (Hgrow1 : calls w1 = calls w ++ new_calls w w1).
  { rewrite Hnew, Hw1. reflexivity. }
  assert (Hguard : guards w1 this =
                   {| _commit :=
                        {| _ptr := snd (fst (sqlite3_prepare_v2 (Connection.db con)
                                               "COMMIT;" 7 (state w))) |};
                      _rollback :=
                        {| _ptr := snd (fst (sqlite3_prepare_v2 (Connection.db con)
                                               "ROLLBACK;" 9
                                               (snd (sqlite3_prepare_v2
                                                       (Connection.db con)
                                                       "COMMIT;" 7 (state w))))) |};
                      needs_rollback := true |}).
  { rewrite Hw1. cbn [guards]. now rewrite Nat.eqb_refl. }
  clear Hw1.
  rewrite Hguard in Hd. cbn [_commit _rollback _ptr] in Hd.
  set (c := snd (fst (sqlite3_prepare_v2 (Connection.db con) "COMMIT;" 7 (state w))))
    in *.
  set (r := snd (fst (sqlite3_prepare_v2 (Connection.db con) "ROLLBACK;" 9 _))) in *.
  assert (Hall : new_calls w w2 =
                 new_calls w w1 ++ (l ++ l') ++
                 match r with Some _ => [ev_finalize r] | None => [] end ++
                 match c with Some _ => [ev_finalize c] | None => [] end).
  { apply new_calls_eq. rewrite Hd, Hl, Hgrow1, <- !app_assoc. reflexivity. }
  assert (Hrunning : forallb is_running (l ++ l') = true).
  { now rewrite forallb_app, Hlrun, Hlrun'. }
  destruct (running_not_resources _ Hrunning) as (Hfin & Hout).
  assert (Hfinal : finalized (new_calls w w2) =
                   match r with Some _ => [r] | None => [] end ++
                   match c with Some _ => [c] | None => [] end).
  { rewrite Hall, (finalized_app (new_calls w w1)), (finalized_app (l ++ l')),
      Hfin, Hnew. cbn [finalized app].
    destruct r; destruct c; reflexivity. }
  assert (Hhanded : handed_out (new_calls w w2) = handed_out (new_calls w w1)).
  { rewrite Hall, (handed_out_app (new_calls w w1)), (handed_out_app (l ++ l')),
      Hout. cbn [app].
    destruct r; destruct c; cbn [handed_out app]; now rewrite ?app_nil_r. }
  split; [|split; [now rewrite Hhanded|]].
  - rewrite Hhanded, Hfinal, Hnew. cbn [handed_out Z.eqb SQLITE_OK].
    destruct r; destruct c; reflexivity.
  - exists (l ++ l'). split; [exact Hrunning|].
    apply new_calls_eq. rewrite Hd, Hl, Hfinal, <- !app_assoc.
    destruct r; destruct c; reflexivity.
Qed.

End GuardLife.

Section FetchProperties.
Context {CXX : Implementation} {SQL : Sqlite3}.

(** ** [connection::fetch] *)

Lemma expand_map_none {X : Type} (f f' : X -> option (M unit)) (l : list X) :
  (forall x, f x = None <-> f' x = None) ->
  Statement.expand (map f l) = None <-> Statement.expand (map f' l) = None.
Proof.
  intros Hf. induction l as [|x l IH]; [reflexivity|].
  cbn [map Statement.expand].
  destruct (f x) as [m|] eqn:Hx; destruct (f' x) as [m'|] eqn:Hx'.
  - destruct (Statement.expand (map f l)); destruct (Statement.expand (map f' l));
      try reflexivity; split; try discriminate; intros _.
    + assert (H : @None (M unit) = None) by reflexivity.
      apply IH in H. discriminate H.
    + assert (H : @None (M unit) = None) by reflexivity.
      apply IH in H. discriminate H.
  - assert (H : f x = None) by (apply Hf; exact Hx'). congruence.
  - assert (H : f' x = None) by (apply Hf; exact Hx). congruence.
  - reflexivity.
Qed.

(** Whether a call of [bind] compiles does not depend on the
    statement. *)
Lemma bind_compiles_alike (s s' : statement) (args : list Statement.argument) :
  Statement.bind s args = None <-> Statement.bind s' args = None.
Proof.
  unfold Statement.bind.
  destruct (and_ _); unfold Statement.bind_impl_true, Statement.bind_impl_false,
    Statement.bind_parameters; apply expand_map_none.
  - intros [T v]. unfold Statement.bind_named_argument.
    cbn [Statement.arg_type Statement.arg_value].
    destruct T; try reflexivity. unfold Statement.bind_to_name.
    destruct (Meta.bind_traits T); cbn [option_map]; split; auto; discriminate.
  - intros [i [T v]]. unfold Statement.bind_to.
    cbn [Statement.arg_type Statement.arg_value fst snd].
    destruct (Meta.bind_traits T); cbn [option_map]; split; auto; discriminate.
Qed.

(** X17: [fetch(query, args...)] does not lose the statement it prepares:
    its first engine call prepares the text of the query; when it
    throws, from the preparation or from the binding, every handle the
    engine handed out has been finalized; when it returns, nothing has
    been finalized, the range holds the handle that was handed out, and
    the destructor of the range finalizes it. *)
Theorem fetch_hands_statement_to_range
  (con : Connection.connection) (query : string)
  (args : list Statement.argument) (m : M Range.statement_range) (w : world) :
  Connection.fetch con query args = Some m ->
  let db := Connection.db con in
  let p := sqlite3_prepare_v2 db query (Z.of_nat (String.length query)) (state w) in
  let out := m w in
  let new := new_calls w (snd out) in
  (exists l,
     new = ev_prepare db query (Z.of_nat (String.length query))
                      (fst (fst p)) (snd (fst p)) :: l) /\
  (forall e, fst out = Throws e ->
     finalized new = handed_out new /\
     existsb Transaction.is_step new = false) /\
  (forall r, fst out = Returns r ->
     Range._ptr r = snd (fst p) /\
     finalized new = [] /\
     handed_out new =
       match Range._ptr r with Some _ => [Range._ptr r] | None => [] end /\
     finalized (new_calls (snd out) (snd (Connection.release r (snd out)))) =
       handed_out new) /\
  (args = [] -> m w = Connection.fetch_query con query w).
Proof.
  intros Hfetch. cbv zeta.
  assert (Hquery : args = [] -> m w = Connection.fetch_query con query w).
  { intros ->. cbn in Hfetch. injection Hfetch as <-.
    unfold Connection.fetch_query, and_then.
    destruct (Connection.prepare con query w) as [[stmt| |] w1]; reflexivity. }
  rewrite <- !and_assoc. split; [|exact Hquery]. rewrite !and_assoc.
  clear Hquery. revert Hfetch.
  unfold Connection.fetch.
  destruct (Statement.bind {| _ptr := None |} args) as [b0|] eqn:Hb0;
    [|discriminate].
  cbn [option_map]. intros Hm. injection Hm as <-. cbv zeta.
  unfold and_then. unfold Connection.prepare. rewrite prepare_run. cbv zeta.
  set (db := Connection.db con).
  set (n := Z.of_nat (String.length query)).
  destruct (sqlite3_prepare_v2 db query n (state w)) as [[ret handle] e1].
  cbn [fst snd].
  destruct (Z.eqb_spec ret SQLITE_OK) as [->|Hret].
  2:{ cbn [fst snd]. rewrite new_calls_app. apply Z.eqb_neq in Hret.
      split; [eauto|]. split; [|discriminate].
      intros e _. cbn [finalized handed_out existsb Transaction.is_step orb].
      destruct handle; now rewrite ?Hret. }
  destruct (Statement.bind {| _ptr := handle |} args) as [b|] eqn:Hb.
  2:{ apply (bind_compiles_alike _ {| _ptr := None |}) in Hb. congruence. }
  set (w1 := {| state := e1;
                calls := calls w ++ [ev_prepare db query n SQLITE_OK handle];
                guards := guards w |}).
  destruct (bind_adds_bindings _ _ _ Hb w1) as (_ & l & Hl & Hbinding).
  destruct (bindings_hand_nothing l Hbinding) as (Hfin & Hout).
  pose proof (bindings_step_nothing l Hbinding) as Hstep.
  unfold on_exception. fold w1.
  destruct (b w1) as [[[]|e|] w2]; cbn [snd] in Hl; cbn [fst snd pure].
  - assert (Hnew : new_calls w w2 = ev_prepare db query n SQLITE_OK handle :: l).
    { apply new_calls_eq. rewrite Hl. subst w1. cbn [calls].
      now rewrite <- app_assoc. }
    rewrite Hnew. split; [eauto|]. split; [discriminate|].
    intros r Hr. injection Hr as <-. cbn [Range._ptr].
    split; [reflexivity|].
    cbn [finalized handed_out Z.eqb SQLITE_OK]. rewrite Hfin, Hout.
    split; [now destruct handle|]. split; [now destruct handle|].
    unfold Connection.release. cbn [Range._ptr].
    destruct (destroy_calls {| _ptr := handle |} w2) as (_ & _ & Hd).
    rewrite (new_calls_eq _ _ _ Hd). cbn [_ptr].
    destruct handle; reflexivity.
  - destruct (destroy_calls {| _ptr := handle |} w2) as (_ & _ & Hd).
    cbn [_ptr] in Hd.
    assert (Hnew : new_calls w (snd (Statement.destroy {| _ptr := handle |} w2)) =
                   ev_prepare db query n SQLITE_OK handle ::
                   l ++ match handle with
                        | Some _ => [ev_finalize handle]
                        | None => []
                        end).
    { apply new_calls_eq. rewrite Hd, Hl. subst w1. cbn [calls].
      now rewrite <- !app_assoc. }
    rewrite Hnew. split; [eauto|]. split; [|discriminate].
    intros e' _. cbn [finalized handed_out existsb Transaction.is_step orb
                        Z.eqb SQLITE_OK].
    rewrite finalized_app, handed_out_app, existsb_app, Hfin, Hout, Hstep.
    destruct handle; auto.
  - assert (Hnew : new_calls w w2 = ev_prepare db query n SQLITE_OK handle :: l).
    { apply new_calls_eq. rewrite Hl. subst w1. cbn [calls].
      now rewrite <- app_assoc. }
    rewrite Hnew. split; [eauto|]. split; discriminate.
Qed.

End FetchProperties.

Section HandleProperties.
Context {CXX : Implementation} {SQL : Sqlite3} {OPEN : Sqlite3Open}.

(** ** Opening and closing the database handle *)

Lemma closed_app (l l' : list Handle.handle_event) :
  Handle.closed (l ++ l') = Handle.closed l ++ Handle.closed l'.
Proof.
  induction l as [|ev l IH]; [reflexivity|].
  destruct ev; cbn [app Handle.closed]; auto. now rewrite IH.
Qed.

Lemma taken_app (l l' : list Handle.handle_event) :
  Handle.taken (l ++ l') = Handle.taken l ++ Handle.taken l'.
Proof.
  induction l as [|ev l IH]; [reflexivity|].
  destruct ev; cbn [app Handle.taken]; auto.
  match goal with
  | |- context [match ?p with Some _ => _ | None => _ end] => destruct p
  end; auto.
  destruct (_ =? SQLITE_OK); cbn [app]; [f_equal|]; exact IH.
Qed.

Lemma open_run (filename : string) (flags : Z) (s : Handle.session) :
  let r := sqlite3_open_v2 filename flags (Handle.engine_state s) in
  let ret := fst (fst r) in
  let ptr := snd (fst r) in
  let old := Handle.data s in
  Handle.open filename flags s =
  if ret =? SQLITE_OK then
    (Returns tt,
     match old with
     | Some _ =>
         {| Handle.this := {| Connection.db := ptr |};
            Handle.engine_state :=
              snd (sqlite3_close old
                     (snd (sqlite3_extended_result_codes ptr 1 (snd r))));
            Handle.handle_calls :=
              Handle.handle_calls s ++
              [Handle.ev_open_v2 filename flags ret ptr;
               Handle.ev_extended_result_codes ptr 1;
               Handle.ev_close old] |}
     | None =>
         {| Handle.this := {| Connection.db := ptr |};
            Handle.engine_state :=
              snd (sqlite3_extended_result_codes ptr 1 (snd r));
            Handle.handle_calls :=
              Handle.handle_calls s ++
              [Handle.ev_open_v2 filename flags ret ptr;
               Handle.ev_extended_result_codes ptr 1] |}
     end)
  else
    (Throws (error ret),
     {| Handle.this := Handle.this s;
        Handle.engine_state := snd r;
        Handle.handle_calls :=
          Handle.handle_calls s ++ [Handle.ev_open_v2 filename flags ret ptr] |}).
Proof.
  cbv zeta. unfold Handle.open, Handle.data.
  destruct (_ =? SQLITE_OK); cbn [negb]; [|reflexivity].
  unfold Handle.reset_db, Handle.deleter.
  cbn [Handle.this Handle.engine_state Handle.handle_calls].
  destruct (Connection.db (Handle.this s)); rewrite <- ?app_assoc; reflexivity.
Qed.

(** X18: [open] either replaces the handle or leaves the connection as it
    was.  When [sqlite3_open_v2] does not report [SQLITE_OK], [open]
    throws that status after this one call: the connection keeps the
    handle it had, and the handle the engine wrote is neither kept nor
    closed.  When it reports [SQLITE_OK], [open] returns: extended
    result codes are switched on for the new handle, the connection
    holds it, and after that the handle held before, if there was one,
    is closed. *)
Theorem open_replaces_handle_or_keeps_it
  (filename : string) (flags : Z) (s : Handle.session) :
  let r := sqlite3_open_v2 filename flags (Handle.engine_state s) in
  let ret := fst (fst r) in
  let ptr := snd (fst r) in
  let out := Handle.open filename flags s in
  (ret <> SQLITE_OK ->
     fst out = Throws (error ret) /\
     Handle.this (snd out) = Handle.this s /\
     Handle.is_open (snd out) = Handle.is_open s /\
     Handle.engine_state (snd out) = snd r /\
     Handle.handle_calls (snd out) =
       Handle.handle_calls s ++ [Handle.ev_open_v2 filename flags ret ptr]) /\
  (ret = SQLITE_OK ->
     fst out = Returns tt /\
     Handle.data (snd out) = ptr /\
     Handle.handle_calls (snd out) =
       Handle.handle_calls s ++
       Handle.ev_open_v2 filename flags ret ptr ::
       Handle.ev_extended_result_codes ptr 1 ::
       match Handle.data s with
       | Some _ => [Handle.ev_close (Handle.data s)]
       | None => []
       end).
Proof.
  cbv zeta. rewrite open_run. cbv zeta.
  destruct (Z.eqb_spec
              (fst (fst (sqlite3_open_v2 filename flags (Handle.engine_state s))))
              SQLITE_OK) as [Hret|Hret].
  - split; [intros Hne; contradiction|]. intros _. cbn [fst snd].
    destruct (Handle.data s); cbn; auto.
  - split; [|intros Heq; contradiction]. intros _. cbn [fst snd].
    unfold Handle.is_open. cbn. auto.
Qed.

Lemma destructor_calls_of (s : Handle.session) :
  Handle.handle_calls (Handle.destructor s) =
  Handle.handle_calls s ++
  match Handle.data s with
  | Some _ => [Handle.ev_close (Handle.data s)]
  | None => []
  end.
Proof.
  unfold Handle.destructor, Handle.data, Handle.deleter.
  destruct (Connection.db (Handle.this s)); cbn; auto using app_nil_r.
Qed.

Lemma opens_then_destructor (fs : list (string * Z)) (s : Handle.session) :
  exists l,
    Handle.handle_calls (Handle.destructor (Handle.opens fs s)) =
      Handle.handle_calls s ++ l /\
    Handle.closed l =
      match Handle.data s with Some _ => [Handle.data s] | None => [] end ++
      Handle.taken l.
Proof.
  revert s. induction fs as [|[filename flags] fs IH]; intros s.
  - cbn [Handle.opens]. rewrite destructor_calls_of. eexists. split; [reflexivity|].
    destruct (Handle.data s); reflexivity.
  - cbn [Handle.opens]. destruct (IH (snd (Handle.open filename flags s)))
      as (l & Hl & Hclosed).
    rewrite open_run in Hl, Hclosed. cbv zeta in Hl, Hclosed.
    destruct (sqlite3_open_v2 filename flags (Handle.engine_state s))
      as [[ret ptr] e1] eqn:Hopen.
    rewrite open_run. cbv zeta. rewrite Hopen.
    cbn [fst snd] in *.
    destruct (Z.eqb_spec ret SQLITE_OK) as [->|Hret]; cbn [snd] in *.
    + destruct (Handle.data s) as [h|] eqn:Hold;
        cbn [Handle.handle_calls Handle.data Handle.this Connection.db] in *;
        rewrite Hl, <- app_assoc; eexists; (split; [reflexivity|]);
        cbn [app Handle.closed Handle.taken Z.eqb SQLITE_OK];
        rewrite Hclosed; destruct ptr; reflexivity.
    + cbn [Handle.handle_calls Handle.data Handle.this] in *.
      rewrite Hl, <- app_assoc. eexists. split; [reflexivity|].
      cbn [app Handle.closed Handle.taken]. apply Z.eqb_neq in Hret.
      rewrite Hclosed. unfold Handle.data.
      destruct ptr; now rewrite ?Hret.
Qed.

(** X19: every handle a connection owned is closed exactly once: over the
    life of a connection that is default-constructed, opened any number
    of times (an [open] that throws being caught) and destroyed, the
    handles closed are the handles that the successful calls of
    [sqlite3_open_v2] gave, in the order they were given; the handle
    written by a call that failed is never closed. *)
Theorem owned_handles_closed_once (fs : list (string * Z)) (e : engine) :
  let s := Handle.destructor (Handle.opens fs (Handle.default e)) in
  Handle.is_open (Handle.default e) = false /\
  Handle.closed (Handle.handle_calls s) = Handle.taken (Handle.handle_calls s).
Proof.
  cbv zeta. split; [reflexivity|].
  destruct (opens_then_destructor fs (Handle.default e)) as (l & -> & Hclosed).
  exact Hclosed.
Qed.

End HandleProperties.

(** ** Who frees the message of an [error_string] *)

(** X20: the message of an [error_string] is handed to [sqlite3_free]
    once: after a move construction the new object holds the message of
    the source and the source holds none, and destroying the two
    releases that message and nothing else.  A move assignment does the
    same and never frees the message its target held before; a
    self-assignment leaves the object without a message, and its
    destructor then releases nothing. *)
Theorem moved_message_released_once (this o : nat) (h : ErrorString.heap) :
  this <> o ->
  let message := match str (ErrorString.objects h o) with
                 | Some m => [m]
                 | None => []
                 end in
  let constructed := ErrorString.move_construct this o h in
  let assigned := ErrorString.move_assign this o h in
  let self := ErrorString.move_assign this this h in
  (ErrorString.data this constructed = str (ErrorString.objects h o) /\
   ErrorString.data o constructed = None /\
   ErrorString.released
     (ErrorString.freed
        (ErrorString.destructor this (ErrorString.destructor o constructed))) =
     ErrorString.released (ErrorString.freed h) ++ message) /\
  (ErrorString.data this assigned = str (ErrorString.objects h o) /\
   ErrorString.data o assigned = None /\
   ErrorString.freed assigned = ErrorString.freed h /\
   ErrorString.released
     (ErrorString.freed
        (ErrorString.destructor this (ErrorString.destructor o assigned))) =
     ErrorString.released (ErrorString.freed h) ++ message) /\
  (ErrorString.data this self = None /\
   ErrorString.released
     (ErrorString.freed (ErrorString.destructor this self)) =
     ErrorString.released (ErrorString.freed h)).
Proof.
  intros Hne. cbv zeta.
  assert (Hreleased : forall l l',
            ErrorString.released (l ++ l') =
            ErrorString.released l ++ ErrorString.released l').
  { induction l as [|[m|] l IH]; intros l'; cbn [app ErrorString.released];
      rewrite ?IH; reflexivity. }
  apply Nat.eqb_neq in Hne as Hto. rewrite Nat.eqb_sym in Hto.
  apply Nat.eqb_neq in Hne as Hot.
  unfold ErrorString.move_construct, ErrorString.move_assign,
    ErrorString.destructor, ErrorString.put, ErrorString.data.
  cbn [ErrorString.objects ErrorString.freed str].
  rewrite !Nat.eqb_refl, ?Hto, ?Hot. cbn [str].
  rewrite !Hreleased. cbn [ErrorString.released].
  rewrite !app_nil_r.
  destruct (str (ErrorString.objects h o)); cbn [ErrorString.released];
    rewrite ?app_nil_r; repeat split; reflexivity.
Qed.

Section TypedColumnProperties.
Context {CXX : Implementation} {SQL : Sqlite3}.

(** ** The typed row view *)


End TypedColumnProperties.

Section GuardMoves.
Context {CXX : Implementation} {SQL : Sqlite3}.

(** ** What moving a guard does to the statements *)

(** X22: a move assignment releases the statements its target held: the
    engine calls it makes are the finalizations of the two handles the
    target held, [COMMIT;] first, and nothing is stepped, so a
    transaction the target had open is not rolled back.  A
    self-assignment makes no engine call and keeps the two statements.
    A move construction makes no engine call. *)
Theorem move_assign_finalizes_target_statements (this o : nat) (w : world) :
  let released (p : sqlite3_stmt_ptr) :=
    match p with Some _ => [ev_finalize p] | None => [] end in
  let assigned := snd (Transaction.move_assign this o w) in
  (this <> o ->
     new_calls w assigned =
       released (_ptr (_commit (guards w this))) ++
       released (_ptr (_rollback (guards w this)))) /\
  (this = o ->
     new_calls w assigned = [] /\
     _commit (guards assigned this) = _commit (guards w this) /\
     _rollback (guards assigned this) = _rollback (guards w this) /\
     needs_rollback (guards assigned this) = false) /\
  existsb Transaction.is_step (new_calls w assigned) = false /\
  state (snd (Transaction.move_construct this o w)) = state w /\
  calls (snd (Transaction.move_construct this o w)) = calls w.
Proof.
  cbv zeta.
  assert (Hcalls :
            calls (snd (Transaction.move_assign this o w)) =
            calls w ++
            (if Nat.eqb this o then []
             else match _ptr (_commit (guards w this)) with
                  | Some _ => [ev_finalize (_ptr (_commit (guards w this)))]
                  | None => []
                  end ++
                  match _ptr (_rollback (guards w this)) with
                  | Some _ => [ev_finalize (_ptr (_rollback (guards w this)))]
                  | None => []
                  end) /\
            (this = o ->
             guards (snd (Transaction.move_assign this o w)) this =
             Transaction.set_needs_rollback false (guards w this))).
  { unfold Transaction.move_assign, Transaction.member_move_assign,
      Transaction.assign_needs_rollback, Transaction.load, Transaction.store,
      and_then.
    cbn beta iota. cbn [guards state calls].
    rewrite !destroy_run. cbn [fst snd guards state calls _ptr].
    destruct (Nat.eqb_spec this o) as [->|Hne].
    - rewrite !Nat.eqb_refl.
      cbn [Transaction.set_commit Transaction.set_rollback
             Transaction.set_needs_rollback _commit _rollback needs_rollback _ptr].
      cbn [guards calls]. rewrite !Nat.eqb_refl.
      cbn [Transaction.set_commit Transaction.set_rollback
             Transaction.set_needs_rollback _commit _rollback needs_rollback _ptr].
      split; [now rewrite app_nil_r|]. intros _.
      destruct (guards w o) as [[c] [r] f]. reflexivity.
    - assert (Hto : Nat.eqb this o = false) by now apply Nat.eqb_neq.
      assert (Hot : Nat.eqb o this = false) by (apply Nat.eqb_neq; congruence).
      rewrite !Nat.eqb_refl, ?Hot, ?Hto.
      cbn [Transaction.set_commit Transaction.set_rollback
             Transaction.set_needs_rollback _commit _rollback needs_rollback _ptr].
      split; [|intros; contradiction].
      destruct (_ptr (_commit (guards w this)));
        cbn [guards calls state]; rewrite ?Nat.eqb_refl, ?Hot, ?Hto;
        cbn [Transaction.set_commit Transaction.set_rollback
               Transaction.set_needs_rollback _commit _rollback needs_rollback _ptr];
        destruct (_ptr (_rollback (guards w this)));
        cbn [calls app]; rewrite <- ?app_assoc, ?app_nil_r; reflexivity. }
  destruct Hcalls as (Hcalls & Hself).
  apply new_calls_eq in Hcalls. rewrite Hcalls.
  split; [|split; [|split; [|split]]].
  - intros Hne. apply Nat.eqb_neq in Hne. now rewrite Hne.
  - intros ->. rewrite Nat.eqb_refl. split; [reflexivity|].
    rewrite (Hself eq_refl). repeat split.
  - destruct (Nat.eqb this o); [reflexivity|].
    destruct (_ptr (_commit (guards w this)));
      destruct (_ptr (_rollback (guards w this))); reflexivity.
  - reflexivity.
  - reflexivity.
Qed.

End GuardMoves.

(** * The further properties at work on the small engine *)

Import Files.

Lemma hi_has_no_zero : Forall (fun c => c <> 0) hi.
Proof. repeat constructor; discriminate. Defined.

Lemma string_traits_agree_on_text_witness :
  Forall (fun c => c <> 0) hi /\
  exists of_array of_pointer,
    Meta.string_traits (ty_array ty_char 3) = Some of_array /\
    Meta.string_traits (ty_const_pointer ty_char) = Some of_pointer /\
    Meta.size of_array (hi ++ [0]) one_parameter = (Returns 2, one_parameter) /\
    Meta.size of_pointer (Some (hi ++ [0])) one_parameter =
      (Returns 2, one_parameter).
Proof.
  split; [exact hi_has_no_zero|].
  destruct (string_traits_agree_on_text hi one_parameter hi_has_no_zero)
    as (of_string & of_array & of_pointer & _ & Harray & Hpointer & _ & _ & _ &
        _ & Hsize & Hsize' & _).
  exists of_array, of_pointer. auto.
Defined.






Lemma bind_only_binds_witness :
  exists m,
    Statement.bind handle0 [argument_of ty_int 7; argument_of ty_int 8] = Some m /\
    fst (m one_parameter) = Throws (error SQLITE_RANGE) /\
    forallb is_binding (new_calls one_parameter (snd (m one_parameter))) = true /\
    finalized (new_calls one_parameter (snd (m one_parameter))) = [].
Proof.
  eexists. split; [reflexivity|]. split; [reflexivity|].
  match goal with
  | |- forallb is_binding (new_calls _ (snd (?m _))) = true /\ _ =>
      destruct (bind_only_binds handle0
                  [argument_of ty_int 7; argument_of ty_int 8] m one_parameter
                  eq_refl) as (_ & _ & Hbinding & _ & Hfinalized & _)
  end.
  split; [exact Hbinding|exact Hfinalized].
Defined.

Lemma positional_bind_stops_at_first_failure_witness :
  forallb (fun a => is_named_parameter (Statement.arg_type a))
          ([argument_of ty_int 7] ++ argument_of ty_int 8 :: [argument_of ty_int 9])
    = false /\
  exists m,
    Statement.bind handle0
      ([argument_of ty_int 7] ++ argument_of ty_int 8 :: [argument_of ty_int 9])
      = Some m /\
    fst (m one_parameter) = Throws (error SQLITE_RANGE) /\
    new_calls one_parameter (snd (m one_parameter)) =
      [ev_bind_int (Some 0%nat) 1 7 SQLITE_OK;
       ev_bind_int (Some 0%nat) 2 8 SQLITE_RANGE].
Proof.
  split; [reflexivity|].
  destruct (positional_bind_stops_at_first_failure handle0
              [argument_of ty_int 7] (argument_of ty_int 8) [argument_of ty_int 9]
              eq_refl ltac:(discriminate))
    as (m & before & this_one & Hm & Hbefore & Hthis & Hstop).
  exists m. split; [exact Hm|].
  injection Hbefore as <-. injection Hthis as <-.
  rewrite (Hstop one_parameter _ _ _ eq_refl eq_refl).
  split; reflexivity.
Defined.

Lemma post_increment_returns_alias_witness :
  exists copy it' w',
    Iterator.post_increment first_row on_first_row = (Returns (copy, it'), w') /\
    copy = first_row /\
    read_int (Iterator.deref first_row) (state on_first_row) = 10 /\
    read_int (Iterator.deref copy) (state w') = 20.
Proof.
  eexists _, _, _. split; [reflexivity|].
  match goal with
  | |- ?copy = _ /\ _ /\ read_int _ (state ?w') = _ =>
      destruct (post_increment_returns_alias first_row copy _ on_first_row w'
                  eq_refl) as (Hcopy & _)
  end.
  split; [exact Hcopy|]. split; reflexivity.
Defined.

Lemma guard_finalizes_what_it_prepared_witness :
  fst (Transaction.construct 0 connection0 (world_of quiet [])) = Returns tt /\
  Forall (fun op => op <> Transaction.op_destroy)
         [Transaction.op_commit; Transaction.op_rollback] /\
  finalized
    (new_calls (world_of quiet [])
       (snd (Transaction.lifetime 0 [Transaction.op_commit; Transaction.op_rollback]
               (in_transaction quiet)))) = [Some 1%nat; Some 0%nat] /\
  handed_out
    (new_calls (world_of quiet [])
       (snd (Transaction.lifetime 0 [Transaction.op_commit; Transaction.op_rollback]
               (in_transaction quiet)))) = [Some 0%nat; Some 1%nat].
Proof.
  assert (Hops : Forall (fun op => op <> Transaction.op_destroy)
                        [Transaction.op_commit; Transaction.op_rollback])
    by (repeat constructor; discriminate).
  split; [reflexivity|]. split; [exact Hops|].
  destruct (guard_finalizes_what_it_prepared 0 connection0 (world_of quiet [])
              [Transaction.op_commit; Transaction.op_rollback] eq_refl Hops)
    as (Hfinalized & Hhanded & _).
  cbv zeta in Hfinalized, Hhanded.
  change (snd (Transaction.construct 0 connection0 (world_of quiet [])))
    with (in_transaction quiet) in Hfinalized, Hhanded.
  rewrite Hfinalized, <- Hhanded. split; reflexivity.
Defined.

Lemma fetch_hands_statement_to_range_witness :
  exists m,
    Connection.fetch connection0 "SELECT ?;"
      [argument_of ty_int 7; argument_of ty_int 8] = Some m /\
    fst (m (world_of one_query [])) = Throws (error SQLITE_RANGE) /\
    finalized (new_calls (world_of one_query []) (snd (m (world_of one_query []))))
      = [Some 0%nat] /\
    handed_out (new_calls (world_of one_query []) (snd (m (world_of one_query []))))
      = [Some 0%nat].
Proof.
  eexists. split; [reflexivity|]. split; [reflexivity|].
  match goal with
  | |- finalized (new_calls _ (snd (?m _))) = _ /\ _ =>
      destruct (fetch_hands_statement_to_range connection0 "SELECT ?;"
                  [argument_of ty_int 7; argument_of ty_int 8] m
                  (world_of one_query []) eq_refl)
        as (_ & Hthrows & _)
  end.
  cbv zeta in Hthrows.
  destruct (Hthrows (error SQLITE_RANGE) eq_refl) as (Hsame & _).
  rewrite Hsame. split; reflexivity.
Defined.

Lemma moved_message_released_once_witness :
  1%nat <> 0%nat /\
  ErrorString.data 1 (ErrorString.move_construct 1 0 one_message) =
    Some "syntax error"%string /\
  ErrorString.released
    (ErrorString.freed
       (ErrorString.destructor 1
          (ErrorString.destructor 0 (ErrorString.move_construct 1 0 one_message))))
    = ["syntax error"%string] /\
  ErrorString.data 0 (ErrorString.move_assign 0 0 one_message) = None.
Proof.
  assert (Hne : 1%nat <> 0%nat) by discriminate.
  split; [exact Hne|].
  destruct (moved_message_released_once 1 0 one_message Hne)
    as ((Hdata & _ & Hreleased) & _ & _).
  cbv zeta in Hdata, Hreleased.
  split; [exact Hdata|]. split; [exact Hreleased|]. reflexivity.
Defined.

Lemma failed_construct_releases_statements_witness :
  fst (Transaction.construct 0 connection0 (world_of no_begin [])) =
    Throws (execute_error SQLITE_ERROR {| str := Some "syntax error"%string |}) /\
  finalized
    (new_calls (world_of no_begin [])
       (snd (Transaction.construct 0 connection0 (world_of no_begin [])))) =
    [Some 1%nat; Some 0%nat] /\
  existsb Transaction.is_step
    (new_calls (world_of no_begin [])
       (snd (Transaction.construct 0 connection0 (world_of no_begin [])))) = false.
Proof.
  destruct (failed_construct_releases_statements 0 connection0 (world_of no_begin []))
    as (_ & _ & Hbegin & Hany).
  cbv zeta in Hbegin, Hany.
  destruct (Hbegin eq_refl eq_refl ltac:(discriminate)) as (Hthrows & _).
  destruct (Hany _ Hthrows) as (Hstep & Hfinalized).
  split; [exact Hthrows|]. split; [|exact Hstep].
  rewrite Hfinalized. reflexivity.
Defined.

Lemma open_replaces_handle_or_keeps_it_witness :
  Handle.data (snd (Handle.open "a.db" 6 unopened)) = Some 4%nat /\
  fst (Handle.open EmptyString 6
         (snd (Handle.open "a.db" 6 unopened))) =
    Throws (error SQLITE_CANTOPEN) /\
  Handle.data (snd (Handle.open EmptyString 6
                      (snd (Handle.open "a.db" 6 unopened)))) =
    Some 4%nat.
Proof.
  destruct (open_replaces_handle_or_keeps_it "a.db" 6 unopened)
    as (_ & Hopened).
  destruct (open_replaces_handle_or_keeps_it EmptyString 6
              (snd (Handle.open "a.db" 6 unopened)))
    as (Hfailed & _).
  cbv zeta in Hopened, Hfailed.
  destruct (Hopened eq_refl) as (_ & Hdata & _).
  destruct (Hfailed ltac:(discriminate)) as (Hthrows & Hthis & _).
  split; [exact Hdata|]. split; [exact Hthrows|].
  unfold Handle.data. now rewrite Hthis.
Defined.

Lemma owned_handles_closed_once_witness :
  Handle.closed
    (Handle.handle_calls
       (Handle.destructor
          (Handle.opens [("a.db"%string, 6); (EmptyString, 6); ("bb.db"%string, 6)]
             unopened))) = [Some 4%nat; Some 5%nat].
Proof.
  destruct (owned_handles_closed_once (SQL := sqlite)
              [("a.db"%string, 6); (EmptyString, 6); ("bb.db"%string, 6)] nothing)
    as (_ & Hclosed).
  cbv zeta in Hclosed. fold unopened in Hclosed. rewrite Hclosed. reflexivity.
Defined.


Lemma iterator_stands_on_row_or_end_witness :
  exists it w',
    Range.begin (Statement.fetch handle0) (prepared two_rows) = (Returns it, w') /\
    Iterator.ret it = SQLITE_ROW /\
    Iterator.eq it (Range.end_ (Statement.fetch handle0)) = false /\
    Iterator.increment (Range.end_ (Statement.fetch handle0)) w' =
      (Returns (Range.end_ (Statement.fetch handle0)), w').
Proof.
  destruct (iterator_stands_on_row_or_end (SQL := sqlite)) as (Hbegin & _ & Hend).
  eexists _, _. split; [reflexivity|].
  match goal with
  | |- Iterator.ret ?it = _ /\ Iterator.eq _ _ = _ /\ _ _ ?w' = _ =>
      destruct (Hbegin (Statement.fetch handle0) (prepared two_rows) it w' eq_refl)
        as (_ & _ & Hiff & _)
  end.
  split; [reflexivity|]. split.
  - apply not_true_is_false. intros Heq. apply Hiff in Heq. discriminate Heq.
  - apply Hend. reflexivity.
Defined.

Lemma construct_begins_transaction_witness :
  fst (Transaction.construct 0 connection0 (world_of quiet [])) = Returns tt /\
  guards (in_transaction quiet) 0%nat =
    {| _commit := {| _ptr := Some 0%nat |};
       _rollback := {| _ptr := Some 1%nat |};
       needs_rollback := true |} /\
  fst (Transaction.construct 0 connection0 (world_of only_commit [])) <> Returns tt.
Proof.
  destruct (construct_begins_transaction 0 connection0 (world_of quiet []))
    as (Hiff & Hreturned).
  destruct (construct_begins_transaction 0 connection0 (world_of only_commit []))
    as (Hiff' & _).
  cbv zeta in Hiff, Hreturned, Hiff'.
  assert (Hok : fst (Transaction.construct 0 connection0 (world_of quiet [])) =
                Returns tt).
  { apply Hiff. repeat split. }
  split; [exact Hok|]. split.
  - destruct (Hreturned Hok) as (_ & _ & Hguard & _). exact Hguard.
  - intros Hno. apply Hiff' in Hno as (_ & Hrollback & _). discriminate Hrollback.
Defined.


Lemma move_assign_finalizes_target_statements_witness :
  new_calls (in_transaction quiet)
    (snd (Transaction.move_assign 0 1 (in_transaction quiet))) =
    [ev_finalize (Some 0%nat); ev_finalize (Some 1%nat)] /\
  needs_rollback (guards (in_transaction quiet) 0%nat) = true /\
  new_calls (in_transaction quiet)
    (snd (Transaction.move_assign 0 0 (in_transaction quiet))) = [].
Proof.
  destruct (move_assign_finalizes_target_statements 0 1 (in_transaction quiet))
    as (Hmoved & _).
  destruct (move_assign_finalizes_target_statements 0 0 (in_transaction quiet))
    as (_ & Hself & _).
  cbv zeta in Hmoved, Hself.
  split; [exact (Hmoved ltac:(discriminate))|]. split; [reflexivity|].
  exact (proj1 (Hself eq_refl)).
Defined.
